(** * Schemer: the reader and the Eval/Apply core of scheme.py

    A shallow embedding of the interpreter of [scheme.py], with the parts
    of [scheme_primitives.py] and [scheme_tokens.py] it relies on.

    - Scheme values are the Python objects of the interpreter: [None],
      [bool], [int], [str] (symbols), the [NULL] singleton, [Pair],
      [LambdaProcedure], [PrimitiveProcedure] and the [EOF] singleton.
      Numbers are Python ints ([Z]); float literals lie outside the
      embedded fragment.
    - Python exceptions are values of [pyexn]; every fallible function
      returns an [outcome].
    - Frames are mutable and shared, so they live in a store ([heap]) and
      are referred to by their index; stateful code is written in the
      state-and-exception monad [M].
    - Python's interpreter stack is finite.  [scheme_eval] and
      [scheme_apply] take the number [d] of nested activations they may
      still open and raise [RecursionError] when it is used up. *)

From Stdlib Require Import ZArith List String Ascii Bool Arith Lia.
From Stdlib Require DecimalString DecimalPos.
Import ListNotations.

Local Open Scope string_scope.

(** ** Python objects *)

(** The callables a [PrimitiveProcedure] wraps: the three functions
    [create_global_frame] registers with [use_env = True], and the
    functions of [scheme_primitives.py] registered by [@primitive] (named
    by their Python name). *)
Inductive pyfn :=
| Fscheme_eval
| Fscheme_apply
| Fscheme_load
| Fnative (name : string).

Inductive value :=
| PyNone
| VBool (b : bool)
| VInt (z : Z)
| VStr (s : string)
| NULL
| Pair (first second : value)
| LambdaProcedure (formals body : value) (env : nat)
| PrimitiveProcedure (fn : pyfn)
| EOF.

(** [PrimitiveProcedure.use_env]: [True] exactly for the procedures built
    in [create_global_frame]; [@primitive] leaves the default [False]. *)
Definition use_env (fn : pyfn) : bool :=
  match fn with
  | Fnative _ => false
  | _ => true
  end.

(** Exceptions.  A [SchemeError] keeps its message template and the
    arguments of [str.format] unformatted. *)
Inductive pyexn :=
| SchemeError (msg : string) (args : list value)
| TypeError
| AttributeError
| IndexError
| NameError
| RecursionError
| PyException (msg : string)
| HostError (cls : string).

Inductive outcome (A : Type) :=
| Ret (a : A)
| Raise (e : pyexn).
Arguments Ret {A} a.
Arguments Raise {A} e.

Definition obind {A B} (x : outcome A) (k : A -> outcome B) : outcome B :=
  match x with
  | Ret a => k a
  | Raise e => Raise e
  end.

Declare Scope py_scope.
Delimit Scope py_scope with py.
Notation "x <-- c ;;; k" := (obind c (fun x => k))
  (at level 61, c at next level, right associativity) : py_scope.

(** ** Built-in operations on the objects *)

Definition is_pair (v : value) : bool :=
  match v with Pair _ _ => true | _ => false end.

Definition scheme_booleanp (x : value) : bool :=
  match x with VBool _ => true | _ => false end.

Definition scheme_symbolp (x : value) : bool :=
  match x with VStr _ => true | _ => false end.

(** [isinstance(x, int)]: [bool] is a subclass of [int]. *)
Definition scheme_numberp (x : value) : bool :=
  match x with VInt _ | VBool _ => true | _ => false end.

Definition scheme_nullp (x : value) : bool :=
  match x with NULL => true | _ => false end.

Fixpoint scheme_listp (x : value) : bool :=
  match x with
  | NULL => true
  | Pair _ second => scheme_listp second
  | _ => false
  end.

Definition scheme_atomp (x : value) : bool :=
  if scheme_booleanp x then true
  else if scheme_numberp x then true
  else if scheme_symbolp x then true
  else if scheme_nullp x then true
  else false.

(** The integer a [bool] or [int] denotes in comparisons. *)
Definition as_int (v : value) : option Z :=
  match v with
  | VBool b => Some (if b then 1 else 0)%Z
  | VInt z => Some z
  | _ => None
  end.

Definition pyfn_eqb (f g : pyfn) : bool :=
  match f, g with
  | Fscheme_eval, Fscheme_eval => true
  | Fscheme_apply, Fscheme_apply => true
  | Fscheme_load, Fscheme_load => true
  | Fnative a, Fnative b => String.eqb a b
  | _, _ => false
  end.

Fixpoint value_eqb (a b : value) : bool :=
  match a, b with
  | PyNone, PyNone => true
  | VBool x, VBool y => Bool.eqb x y
  | VInt x, VInt y => Z.eqb x y
  | VStr x, VStr y => String.eqb x y
  | NULL, NULL => true
  | Pair a1 a2, Pair b1 b2 => value_eqb a1 b1 && value_eqb a2 b2
  | LambdaProcedure f1 b1 e1, LambdaProcedure f2 b2 e2 =>
      value_eqb f1 f2 && value_eqb b1 b2 && Nat.eqb e1 e2
  | PrimitiveProcedure f, PrimitiveProcedure g => pyfn_eqb f g
  | EOF, EOF => true
  | _, _ => false
  end.

(** Python's [==].  Ints and bools compare by value ([True == 1]), strings
    by content.  [Pair] and the procedure classes define no [__eq__] and
    compare by identity; the embedding has no object identity and compares
    them by structure.  The interpreter only ever compares against a
    string or a bool, or uses such objects as dictionary keys that are
    never looked up. *)
Definition py_eq (a b : value) : bool :=
  match as_int a, as_int b with
  | Some x, Some y => Z.eqb x y
  | None, None => value_eqb a b
  | _, _ => false
  end.

(** [Pair.__len__], from the second component on. *)
Fixpoint pair_len_from (n : nat) (second : value) : outcome nat :=
  match second with
  | Pair _ s => pair_len_from (S n) s
  | NULL => Ret n
  | _ => Raise (SchemeError "length attempted on improper list" [])
  end.

(** The builtin [len]. *)
Definition py_len (v : value) : outcome nat :=
  match v with
  | Pair _ second => pair_len_from 1 second
  | NULL => Ret 0
  | VStr s => Ret (String.length s)
  | _ => Raise TypeError
  end.

(** Truth value testing, as in [if x:].  A class with [__len__] and no
    [__bool__] is true when its length is non-zero, so [NULL] is false and
    testing an improper [Pair] raises. *)
Definition py_truthy (v : value) : outcome bool :=
  match v with
  | PyNone => Ret false
  | VBool b => Ret b
  | VInt z => Ret (negb (Z.eqb z 0))
  | VStr s => Ret (negb (String.eqb s ""))
  | NULL => Ret false
  | Pair _ _ => obind (py_len v) (fun n => Ret (negb (Nat.eqb n 0)))
  | LambdaProcedure _ _ _ => Ret true
  | PrimitiveProcedure _ => Ret true
  | EOF => Ret true
  end.

(** [Pair.__getitem__] for an index [k >= 0]. *)
Fixpoint pair_getitem (first second : value) (k : nat) {struct k}
  : outcome value :=
  match k with
  | O => Ret first
  | S k' =>
      match second with
      | NULL => Raise (SchemeError "list index out of bounds" [])
      | Pair f s => pair_getitem f s k'
      | _ => Raise (SchemeError "ill-formed list" [])
      end
  end.

Definition char_str (c : ascii) : value := VStr (String c EmptyString).

(** [x[k]] for an index [k >= 0] (the interpreter indexes with 0, 1 and
    loop counters only). *)
Definition py_getitem (v : value) (k : nat) : outcome value :=
  match v with
  | Pair first second => pair_getitem first second k
  | NULL => Raise (SchemeError "list index out of bounds" [])
  | VStr s =>
      match String.get k s with
      | Some c => Ret (char_str c)
      | None => Raise IndexError
      end
  | _ => Raise TypeError
  end.

(** Attribute access [x.first] and [x.second]. *)
Definition get_first (v : value) : outcome value :=
  match v with Pair first _ => Ret first | _ => Raise AttributeError end.

Definition get_second (v : value) : outcome value :=
  match v with Pair _ second => Ret second | _ => Raise AttributeError end.

(** Iteration.  An iterator yields some items and then either stops or
    raises: [(items, None)] or [(items, Some e)]. *)
Definition pyiter : Type := list value * option pyexn.

(** The generator [Pair.__iter__]: it raises when the list is improper,
    after the items before the bad tail. *)
Fixpoint pair_iter (y : value) : pyiter :=
  match y with
  | NULL => ([], None)
  | Pair first second =>
      let (items, e) := pair_iter second in (first :: items, e)
  | _ => ([], Some AttributeError)
  end.

Definition str_chars (s : string) : list value :=
  map char_str (list_ascii_of_string s).

Definition py_iter (v : value) : pyiter :=
  match v with
  | Pair _ _ => pair_iter v
  | NULL => ([], None)
  | VStr s => (str_chars s, None)
  | _ => ([], Some TypeError)
  end.

(** [[x for x in v]]. *)
Definition list_of_iter (it : pyiter) : outcome (list value) :=
  match it with
  | (items, None) => Ret items
  | (_, Some e) => Raise e
  end.

(** A Python list of values as a Scheme list. *)
Fixpoint scheme_list (l : list value) : value :=
  match l with
  | [] => NULL
  | x :: r => Pair x (scheme_list r)
  end.

(** ** Frames and the store *)

(** A Python [dict] with insertion order: assigning to a present key
    replaces its value in place, assigning to a new key appends. *)
Definition dict : Type := list (value * value).

Fixpoint dict_set (d : dict) (k v : value) : dict :=
  match d with
  | [] => [(k, v)]
  | (k', v') :: r =>
      if py_eq k' k then (k', v) :: r else (k', v') :: dict_set r k v
  end.

Fixpoint dict_get (d : dict) (k : value) : option value :=
  match d with
  | [] => None
  | (k', v') :: r => if py_eq k' k then Some v' else dict_get r k
  end.

Definition dict_has (d : dict) (k : value) : bool :=
  existsb (fun kv => py_eq (fst kv) k) d.

(** [class Frame]: [self.inner] and [self.parent] (a reference, or
    [None] for the global frame). *)
Record Frame := mkFrame { inner : dict; parent : option nat }.

Definition heap : Type := list Frame.

(** Stateful, fallible code: the store is threaded through and survives
    an exception, as Python's mutations do. *)
Definition M (A : Type) : Type := heap -> outcome A * heap.

Definition ret {A} (a : A) : M A := fun h => (Ret a, h).
Definition raise {A} (e : pyexn) : M A := fun h => (Raise e, h).
Definition bind {A B} (c : M A) (k : A -> M B) : M B :=
  fun h =>
    match c h with
    | (Ret a, h') => k a h'
    | (Raise e, h') => (Raise e, h')
    end.
Definition lift {A} (o : outcome A) : M A := fun h => (o, h).

Notation "x <- c ;; k" := (bind c (fun x => k))
  (at level 61, c at next level, right associativity) : py_scope.
Notation "c ;; k" := (bind c (fun _ => k))
  (at level 61, right associativity) : py_scope.
Notation "' ( x , y ) <- c ;; k" := (bind c (fun p => let (x, y) := p in k))
  (at level 61, c at next level, x name, y name, right associativity)
  : py_scope.

Local Open Scope list_scope.
Local Open Scope py_scope.

(** [Frame(parent)]: a fresh frame; its reference is its index. *)
Definition new_frame (fr : Frame) : M nat :=
  fun h => (Ret (List.length h), h ++ [fr]).

Fixpoint set_nth {A} (l : list A) (i : nat) (x : A) : list A :=
  match l, i with
  | [], _ => []
  | _ :: r, O => x :: r
  | y :: r, S i' => y :: set_nth r i' x
  end.

(** [self.inner[sym] = val]; also [Frame.define]. *)
Definition define (self : nat) (sym val : value) : M unit :=
  fun h =>
    match nth_error h self with
    | Some fr =>
        (Ret tt, set_nth h self (mkFrame (dict_set (inner fr) sym val) (parent fr)))
    | None => (Raise AttributeError, h)
    end.

(** [Frame.find]: the frame at or above [self] that defines [sym].  The
    method calls itself on the parent; [n] bounds the length of the chain
    ([find] below starts it with the size of the store, which no chain of
    distinct frames exceeds). *)
Fixpoint find_in (n : nat) (h : heap) (self : nat) (sym : string)
  : outcome nat :=
  match n with
  | O => Raise RecursionError
  | S n' =>
      match nth_error h self with
      | None => Raise AttributeError
      | Some fr =>
          if dict_has (inner fr) (VStr sym) then Ret self
          else
            match parent fr with
            | Some p => find_in n' h p sym
            | None => Raise (SchemeError "unknown identifier: {0}" [VStr sym])
            end
      end
  end.

Definition find (self : nat) (sym : string) : M nat :=
  fun h => (find_in (List.length h) h self sym, h).

(** [Frame.__getitem__]: [self.find(sym).inner[sym]]. *)
Definition getitem (self : nat) (sym : string) : M value :=
  fr <- find self sym ;;
  fun h =>
    match nth_error h fr with
    | Some f =>
        match dict_get (inner f) (VStr sym) with
        | Some v => (Ret v, h)
        | None => (Raise (HostError "KeyError"), h)
        end
    | None => (Raise AttributeError, h)
    end.

(** The arguments of [make_call_frame] are Scheme lists when it is called
    from [scheme_apply] and Python lists when it is called from
    [do_let_form]. *)
Inductive pyseq :=
| Scheme (v : value)
| PyList (l : list value).

Definition seq_len (s : pyseq) : outcome nat :=
  match s with
  | Scheme v => py_len v
  | PyList l => Ret (List.length l)
  end.

Definition seq_iter (s : pyseq) : pyiter :=
  match s with
  | Scheme v => py_iter v
  | PyList l => (l, None)
  end.

(** [for (key, val) in zip(formals, vals): d[key] = val].  [zip] asks the
    first iterator, then the second, and stops at the first that is
    exhausted; an iterator that raises ends the loop with its exception. *)
Fixpoint zip_bind (d : dict) (keys : list value) (ke : option pyexn)
  (vals : list value) (ve : option pyexn) : outcome dict :=
  match keys with
  | [] => match ke with Some e => Raise e | None => Ret d end
  | k :: keys' =>
      match vals with
      | [] => match ve with Some e => Raise e | None => Ret d end
      | v :: vals' => zip_bind (dict_set d k v) keys' ke vals' ve
      end
  end.

(** [iter(x)] fails at once on an object that is not iterable. *)
Definition not_iterable (it : pyiter) : bool :=
  match it with
  | ([], Some TypeError) => true
  | _ => false
  end.

(** The body of [Frame.make_call_frame]: the dictionary of the new
    frame. *)
Definition call_frame_inner (formals vals : pyseq) : outcome dict :=
  match seq_len formals with
  | Ret _ =>
      let (ks, ke) := seq_iter formals in
      let (vs, ve) := seq_iter vals in
      if not_iterable (seq_iter formals) then Raise TypeError
      else if not_iterable (seq_iter vals) then Raise TypeError
      else zip_bind [] ks ke vs ve
  | Raise (SchemeError _ _) =>
      match formals, vals with
      | Scheme f, Scheme v =>
          (k1 <-- get_first f ;;; v1 <-- get_first v ;;;
           k2 <-- get_second f ;;; v2 <-- get_second v ;;;
           Ret (dict_set (dict_set [] k1 v1) k2 v2))%py
      | _, _ => Raise AttributeError
      end
  | Raise e => Raise e
  end.

Definition make_call_frame (self : nat) (formals vals : pyseq) : M nat :=
  d <- lift (call_frame_inner formals vals) ;;
  new_frame (mkFrame d (Some self)).

(** ** Checking the structure of programs *)

(** [check_form(expr, min, max)]; [max] is [None] by default. *)
Definition check_form (expr : value) (min : nat) (max : option nat)
  : outcome unit :=
  if negb (scheme_listp expr) then
    Raise (PyException "badly formed expression: %s")
  else
    (length <-- py_len expr ;;;
     if Nat.ltb length min then Raise (SchemeError "too few operands in form" [])
     else
       match max with
       | Some m =>
           if Nat.ltb m length then
             Raise (SchemeError "too many operands in form" [])
           else Ret tt
       | None => Ret tt
       end)%py.

(** [args += x] in [check_formals]: a list extended by the items of an
    iterable; the items of a string are its characters. *)
Definition list_iadd (args : list value) (x : value) : outcome (list value) :=
  (items <-- list_of_iter (py_iter x) ;;; Ret (args ++ items))%py.

(** The [while] loop of [check_formals], entered with
    [formals = Pair first second]. *)
Fixpoint check_formals_loop (args : list value) (first second : value)
  : outcome unit :=
  match second with
  | Pair first' second' =>
      if is_pair first then
        Raise (SchemeError "formal arguments cannot be pair" [])
      else if scheme_symbolp first && existsb (py_eq first) args then
        Raise (SchemeError "formal arguments cannot have the same name" [])
      else if scheme_symbolp first && scheme_numberp first then
        Raise (SchemeError "formal arguments cannot be number" [])
      else
        (args' <-- list_iadd args first ;;;
         check_formals_loop args' first' second')%py
  | _ => Ret tt
  end.

Definition check_formals (formals : value) : outcome unit :=
  match formals with
  | Pair first second => check_formals_loop [] first second
  | _ =>
      if scheme_numberp formals then
        Raise (SchemeError "formal arguments cannot be number" [])
      else Ret tt
  end.

(** ** Loops *)

(** [for i, x in enumerate(it): body]: the body answers [Some a] for
    [return a] and [None] to go on; [orelse] is the code after the loop. *)
Fixpoint for_loop {A} (i : nat) (items : list value) (e : option pyexn)
  (body : nat -> value -> M (option A)) (orelse : M A) : M A :=
  match items with
  | [] => match e with Some x => raise x | None => orelse end
  | x :: r =>
      o <- body i x ;;
      match o with
      | Some a => ret a
      | None => for_loop (S i) r e body orelse
      end
  end.

Definition for_in {A} (it : pyiter) (body : nat -> value -> M (option A))
  (orelse : M A) : M A :=
  for_loop 0 (fst it) (snd it) body orelse.

(** [for i in range(lo, lo + n): body]. *)
Fixpoint for_range (lo n : nat) (body : nat -> M unit) : M unit :=
  match n with
  | O => ret tt
  | S n' => body lo ;; for_range (S lo) n' body
  end.

(** [try: c except TypeError: raise SchemeError("Wrong type of argument")]. *)
Definition except_TypeError {A} (c : M A) : M A :=
  fun h =>
    match c h with
    | (Raise TypeError, h') =>
        (Raise (SchemeError "Wrong type of argument" []), h')
    | r => r
    end.

Definition type_name (v : value) : string :=
  match v with
  | PyNone => "NoneType"
  | VBool _ => "bool"
  | VInt _ => "int"
  | VStr _ => "str"
  | NULL => "NULL"
  | Pair _ _ => "Pair"
  | LambdaProcedure _ _ _ => "LambdaProcedure"
  | PrimitiveProcedure _ => "PrimitiveProcedure"
  | EOF => "EOF"
  end.

(** ** Special forms and Eval/Apply *)

Definition evalT : Type := value -> nat -> M value.
Definition applyT : Type := value -> value -> nat -> M value.

(** [Pair.map] and [NULL.map], with a function that may change the
    store. *)
Fixpoint pair_map (fn : value -> M value) (self : value) : M value :=
  match self with
  | NULL => ret NULL
  | Pair first second =>
      mapped <- fn first ;;
      match second with
      | NULL | Pair _ _ =>
          rest <- pair_map fn second ;;
          ret (Pair mapped rest)
      | _ => raise (SchemeError "ill-formed list" [])
      end
  | _ => raise AttributeError
  end.

Definition do_lambda_form (vals : value) (env : nat) : outcome value :=
  (_ <-- check_form vals 2 None ;;;
   formals <-- py_getitem vals 0 ;;;
   _ <-- check_formals formals ;;;
   arguments <-- get_first vals ;;;
   body <-- get_second vals ;;;
   n <-- py_len body ;;;
   if negb (Nat.eqb n 1) then
     Ret (LambdaProcedure arguments (Pair (VStr "begin") body) env)
   else
     (b <-- get_first body ;;; Ret (LambdaProcedure arguments b env)))%py.

Definition do_quote_form (vals : value) : outcome value :=
  (_ <-- check_form vals 1 (Some 1) ;;; py_getitem vals 0)%py.

(** [do_case_form] ignores its arguments. *)
Definition do_case_form (vals : value) (env : nat) : M value :=
  ret (VBool false).

Section Handlers.

(** The evaluator the handlers call back into. *)
Variable ev : evalT.

Definition do_define_form (vals : value) (env : nat) : M unit :=
  lift (check_form vals 2 None) ;;
  first <- lift (get_first vals) ;;
  if is_pair first then
    func_name <- lift (get_first first) ;;
    func_args <- lift (get_second first) ;;
    func_body <- lift (get_second vals) ;;
    func <- lift (do_lambda_form (Pair func_args func_body) env) ;;
    define env func_name func
  else
    rest <- lift (get_second vals) ;;
    e <- lift (get_first rest) ;;
    value <- ev e env ;;
    define env first value.

(** The first loop of [do_let_form]: it collects the names and the
    values of the bindings. *)
Fixpoint let_bindings (env : nat) (items : list value) (e : option pyexn)
  (names vals : list value) : M (list value * list value) :=
  match items with
  | [] =>
      match e with
      | Some x => raise x
      | None => ret (names, vals)
      end
  | item :: r =>
      name <- lift (get_first item) ;;
      second <- lift (get_second item) ;;
      e1 <- lift (get_first second) ;;
      v <- ev e1 env ;;
      let_bindings env r e (names ++ [name]) (vals ++ [v])
  end.

(** The loop that evaluates all body expressions but the last. *)
Definition eval_all_but_last (exprs : value) (last : nat) (env : nat)
  : M unit :=
  for_range 0 last
    (fun i => e <- lift (py_getitem exprs i) ;; ev e env ;; ret tt).

(** The [try] of [do_let_form] catches [UnboundLocalError] only, which
    nothing in its body raises; it is left out.  After [check_form] the
    list [exprs] is not empty, so [len(exprs) - 1] is not negative. *)
Definition do_let_form (vals : value) (env : nat) : M (value * nat) :=
  lift (check_form vals 2 None) ;;
  bindings <- lift (py_getitem vals 0) ;;
  exprs <- lift (get_second vals) ;;
  if negb (scheme_listp bindings) then
    raise (SchemeError "bad bindings list in let form" [])
  else
    '(names, vs) <- let_bindings env (fst (py_iter bindings))
                      (snd (py_iter bindings)) [] [] ;;
    new_env <- make_call_frame env (PyList names) (PyList vs) ;;
    n <- lift (py_len exprs) ;;
    let last := n - 1 in
    eval_all_but_last exprs last new_env ;;
    e <- lift (py_getitem exprs last) ;;
    ret (e, new_env).

(** The body of the binding loop of [do_let_star_form]. *)
Definition let_star_binding (new_env : nat) (binding : value) : M unit :=
  name <- lift (py_getitem binding 0) ;;
  e <- lift (py_getitem binding 1) ;;
  value <- ev e new_env ;;
  define new_env name value.

Definition do_let_star_form (vals : value) (env : nat) : M (value * nat) :=
  lift (check_form vals 2 None) ;;
  bindings <- lift (py_getitem vals 0) ;;
  exprs <- lift (get_second vals) ;;
  if negb (scheme_listp bindings) then
    raise (SchemeError "bad bindings list in let form" [])
  else
    new_env <- make_call_frame env (Scheme NULL) (Scheme NULL) ;;
    for_in (py_iter bindings)
      (fun _ binding => let_star_binding new_env binding ;; ret None)
      (ret tt) ;;
    n <- lift (py_len exprs) ;;
    let last := n - 1 in
    eval_all_but_last exprs last env ;;
    e <- lift (py_getitem exprs last) ;;
    ret (e, env).

Definition do_if_form (vals : value) (env : nat) : M value :=
  lift (check_form vals 3 (Some 3)) ;;
  condition <- lift (get_first vals) ;;
  result <- lift (get_second vals) ;;
  if_true <- lift (get_first result) ;;
  r2 <- lift (get_second result) ;;
  if_false <- lift (get_first r2) ;;
  true_false <- ev condition env ;;
  t <- lift (py_truthy true_false) ;;
  if t then ret if_true else ret if_false.

Definition do_and_form (vals : value) (env : nat) : M value :=
  for_in (py_iter vals)
    (fun _ condition =>
       v <- ev condition env ;;
       if py_eq v (VBool false) then ret (Some (VBool false))
       else ret None)
    (ret (VBool true)).

Definition do_or_form (vals : value) (env : nat) : M value :=
  for_in (py_iter vals)
    (fun _ condition =>
       v <- ev condition env ;;
       if negb (py_eq v (VBool false)) then ret (Some (VBool true))
       else ret None)
    (ret (VBool false)).

(** The body of the loop of [do_cond_form], for clause number [i]
    (inside the loop [num_clauses] is at least 1). *)
Definition cond_clause (num_clauses : nat) (env : nat) (i : nat)
  (clause : value) : M (option value) :=
  lift (check_form clause 1 None) ;;
  first <- lift (get_first clause) ;;
  second <- lift (get_second clause) ;;
  test <- (if py_eq first (VStr "else") then
             if Nat.ltb i (num_clauses - 1) then
               raise (SchemeError "else must be last" [])
             else if scheme_nullp second then
               raise (SchemeError "badly formed else clause" [])
             else ret (VBool true)
           else ev first env) ;;
  t <- lift (py_truthy test) ;;
  if t then
    n <- lift (py_len second) ;;
    if Nat.ltb 1 n then
      v <- ev (Pair (VStr "begin") second) env ;; ret (Some v)
    else if Nat.eqb n 1 then
      e <- lift (get_first second) ;;
      v <- ev e env ;; ret (Some v)
    else ret (Some (VBool true))
  else ret None.

Definition do_cond_form (vals : value) (env : nat) : M value :=
  num_clauses <- lift (py_len vals) ;;
  for_in (py_iter vals) (cond_clause num_clauses env) (ret PyNone).

(** The body of the loop of [do_begin_form]; [i] counts from 1, the
    index of the loop from 0 (after [check_form], [len(vals)] is at
    least 1). *)
Definition begin_statement (vals : value) (env : nat) (idx : nat)
  (statement : value) : M (option value) :=
  let i := S idx in
  n <- lift (py_len vals) ;;
  if Nat.eqb i (n - 1) then
    v <- lift (py_getitem vals i) ;; ret (Some v)
  else
    ev statement env ;; ret None.

Definition do_begin_form (vals : value) (env : nat) : M value :=
  lift (check_form vals 1 None) ;;
  _ <- lift (py_len vals) ;;
  for_in (py_iter vals) (begin_statement vals env) (ret PyNone).

(** The dictionary [LOGIC_FORMS]. *)
Definition LOGIC_FORMS : list (string * (value -> nat -> M value)) :=
  [ ("and", do_and_form);
    ("or", do_or_form);
    ("if", do_if_form);
    ("cond", do_cond_form);
    ("begin", do_begin_form);
    ("case", do_case_form) ].

Fixpoint assoc_str {A} (l : list (string * A)) (k : string) : option A :=
  match l with
  | [] => None
  | (k', a) :: r => if String.eqb k' k then Some a else assoc_str r k
  end.

(** [first in LOGIC_FORMS], and [LOGIC_FORMS[first]]. *)
Definition logic_form (first : value) : option (value -> nat -> M value) :=
  match first with
  | VStr s => assoc_str LOGIC_FORMS s
  | _ => None
  end.

End Handlers.

(** [scheme_load]: after the type check the body refers to the name
    [filename], which is not defined anywhere. *)
Definition scheme_load (sym : value) (env : nat) : M value :=
  if negb (scheme_symbolp sym) then
    raise (SchemeError "argument {0} of {1} has wrong type ({2})"
             [VInt 0; VStr "load"; VStr (type_name sym)])
  else raise NameError.

Section Interp.

(** The functions of [scheme_primitives.py] behind [@primitive], by
    their Python name: they take the argument values and return a value
    or raise; they do not see the frames. *)
Variable native : string -> list value -> outcome value.

Section Step.

(** [scheme_eval] and [scheme_apply] one activation further down the
    Python stack. *)
Variable ev : evalT.
Variable ap : applyT.

(** [procedure.fn( *arg_list )], where [frame] is the frame that
    [apply_primitive] appended to the arguments, if any: a call with the
    wrong number of arguments is a [TypeError]. *)
Definition call_fn (fn : pyfn) (arg_list : list value) (frame : option nat)
  : M value :=
  match fn, arg_list, frame with
  | Fnative name, _, None => lift (native name arg_list)
  | Fscheme_eval, [expr], Some env => ev expr env
  | Fscheme_apply, [procedure; args], Some env => ap procedure args env
  | Fscheme_load, [sym], Some env => scheme_load sym env
  | _, _, _ => raise TypeError
  end.

Definition apply_primitive (fn : pyfn) (arg_list : list value) (env : nat)
  : M value :=
  except_TypeError
    (call_fn fn arg_list (if use_env fn then Some env else None)).

(** The body of [scheme_eval]. *)
Definition eval_step (expr : value) (env : nat) : M value :=
  match expr with
  | PyNone =>
      raise (SchemeError "Cannot evaluate an undefined expression." [])
  | VStr sym => getitem env sym
  | _ =>
      if scheme_atomp expr then ret expr
      else if negb (scheme_listp expr) then
        raise (SchemeError "malformed list: {0}" [expr])
      else
        first <- lift (get_first expr) ;;
        rest <- lift (get_second expr) ;;
        match logic_form ev first with
        | Some handler =>
            e <- handler rest env ;;
            ev e env
        | None =>
            if py_eq first (VStr "lambda") then
              lift (do_lambda_form rest env)
            else if py_eq first (VStr "define") then
              do_define_form ev rest env ;;
              ret PyNone
            else if py_eq first (VStr "quote") then
              lift (do_quote_form rest)
            else if py_eq first (VStr "let") then
              '(e, env') <- do_let_form ev rest env ;;
              ev e env'
            else if py_eq first (VStr "let*") then
              '(e, env') <- do_let_star_form ev rest env ;;
              ev e env'
            else
              procedure <- ev first env ;;
              args <- pair_map (fun operand => ev operand env) rest ;;
              ap procedure args env
        end
  end.

(** The body of [scheme_apply]. *)
Definition apply_step (procedure args : value) (env : nat) : M value :=
  match procedure with
  | PrimitiveProcedure fn =>
      arg_list <- lift (list_of_iter (py_iter args)) ;;
      apply_primitive fn arg_list env
  | LambdaProcedure formals body _ =>
      _ <- lift (list_of_iter (py_iter args)) ;;
      new_frame <- make_call_frame env (Scheme formals) (Scheme args) ;;
      ev body new_frame
  | _ => raise (SchemeError "Cannot call {0}" [procedure])
  end.

End Step.

(** [scheme_eval] and [scheme_apply] with [d] activations left on the
    Python stack. *)
Fixpoint scheme_eval (d : nat) (expr : value) (env : nat) (h : heap)
  : outcome value * heap :=
  match d with
  | O => raise RecursionError h
  | S d' =>
      eval_step (fun e en => scheme_eval d' e en)
        (fun p a en => scheme_apply d' p a en) expr env h
  end
with scheme_apply (d : nat) (procedure args : value) (env : nat) (h : heap)
  : outcome value * heap :=
  match d with
  | O => raise RecursionError h
  | S d' =>
      apply_step (fun e en => scheme_eval d' e en)
        (fun p a en => scheme_apply d' p a en) procedure args env h
  end.

End Interp.

(** ** The global frame *)

(** The list [_PRIMITIVES] that the [@primitive] decorators build, in the
    order of [scheme_primitives.py]: the Scheme name and the Python
    function it is bound to. *)
Definition _PRIMITIVES : list (string * string) :=
  [ ("boolean?", "scheme_booleanp"); ("not", "scheme_not");
    ("eq?", "scheme_eqp"); ("pair?", "scheme_pairp");
    ("null?", "scheme_nullp"); ("list?", "scheme_listp");
    ("length", "scheme_length"); ("cons", "scheme_cons");
    ("car", "scheme_car"); ("cdr", "scheme_cdr"); ("list", "scheme_list");
    ("append", "scheme_append"); ("symbol?", "scheme_symbolp");
    ("number?", "scheme_numberp"); ("integer?", "scheme_integerp");
    ("+", "scheme_add"); ("-", "scheme_sub"); ("*", "scheme_mul");
    ("/", "scheme_div"); ("quotient", "scheme_quo");
    ("modulo", "scheme_modulo"); ("remainder", "scheme_modulo");
    ("floor", "scheme_floor"); ("ceil", "scheme_ceil");
    ("=", "scheme_eq"); ("<", "scheme_lt"); (">", "scheme_gt");
    ("<=", "scheme_le"); (">=", "scheme_ge"); ("atom?", "scheme_atomp");
    ("eof?", "scheme_eof_objectp"); ("display", "scheme_display");
    ("newline", "scheme_newline"); ("error", "scheme_error");
    ("exit", "scheme_exit");
    ("forward", "tscheme_forward"); ("fd", "tscheme_forward");
    ("backward", "tscheme_backward"); ("back", "tscheme_backward");
    ("bk", "tscheme_backward");
    ("left", "tscheme_left"); ("lt", "tscheme_left");
    ("right", "tscheme_right"); ("rt", "tscheme_right");
    ("circle", "tscheme_circle");
    ("setposition", "tscheme_setposition");
    ("setpos", "tscheme_setposition"); ("goto", "tscheme_setposition");
    ("setheading", "tscheme_setheading"); ("seth", "tscheme_setheading");
    ("penup", "tscheme_penup"); ("pu", "tscheme_penup");
    ("pendown", "tscheme_pendown"); ("pd", "tscheme_pendown");
    ("showturtle", "tscheme_showturtle"); ("st", "tscheme_showturtle");
    ("hideturtle", "tscheme_hideturtle"); ("ht", "tscheme_hideturtle");
    ("clear", "tscheme_clear"); ("color", "tscheme_color");
    ("begin_fill", "tscheme_begin_fill"); ("end_fill", "tscheme_end_fill");
    ("exitonclick", "tscheme_exitonclick"); ("speed", "tscheme_speed") ].

(** [add_primitives(frame)]. *)
Fixpoint add_primitives (prims : list (string * string)) (frame : nat)
  : M unit :=
  match prims with
  | [] => ret tt
  | (name, fn) :: r =>
      define frame (VStr name) (PrimitiveProcedure (Fnative fn)) ;;
      add_primitives r frame
  end.

Definition create_global_frame : M nat :=
  env <- new_frame (mkFrame [] None) ;;
  define env (VStr "eval") (PrimitiveProcedure Fscheme_eval) ;;
  define env (VStr "apply") (PrimitiveProcedure Fscheme_apply) ;;
  define env (VStr "load") (PrimitiveProcedure Fscheme_load) ;;
  add_primitives _PRIMITIVES env ;;
  ret env.

(** The store and the global frame a session starts with. *)
Definition initial_heap : heap := snd (create_global_frame []).
Definition global_env : nat := 0.

(** ** Primitives on integers and lists

    The arithmetic, comparison and list functions of
    [scheme_primitives.py], on the values of the embedding.  A call with
    a wrong number of arguments is Python's [TypeError]. *)

(** [_check_nums( *vals )]. *)
Fixpoint _check_nums (i : Z) (vals : list value) : outcome unit :=
  match vals with
  | [] => Ret tt
  | v :: r =>
      if negb (scheme_numberp v) then
        Raise (SchemeError "operand {0} ({1}) is not a number" [VInt i; v])
      else _check_nums (i + 1) r
  end.

(** The loop of [_arith] with an integer operator; an operand that is not
    a number makes the operator raise [TypeError].  On integers
    [round(s) == s] holds and [round(s)] is [s]. *)
Fixpoint arith_loop (fn : Z -> Z -> Z) (s : value) (vals : list value)
  : outcome value :=
  match vals with
  | [] =>
      match as_int s with
      | Some z => Ret (VInt z)
      | None => Raise TypeError
      end
  | v :: r =>
      match as_int s, as_int v with
      | Some a, Some b => arith_loop fn (VInt (fn a b)) r
      | _, _ => Raise TypeError
      end
  end.

Definition _arith (fn : Z -> Z -> Z) (init : value) (vals : list value)
  : outcome value :=
  (_ <-- _check_nums 0 vals ;;; arith_loop fn init vals)%py.

Definition _numcomp (op : Z -> Z -> bool) (args : list value)
  : outcome value :=
  match args with
  | [x; y] =>
      (_ <-- _check_nums 0 [x; y] ;;;
       match as_int x, as_int y with
       | Some a, Some b => Ret (VBool (op a b))
       | _, _ => Raise TypeError
       end)%py
  | _ => Raise TypeError
  end.

(** [check_type(val, predicate, k, name)]. *)
Definition check_type (val : value) (predicate : value -> bool) (k : Z)
  (name : string) : outcome value :=
  if negb (predicate val) then
    Raise (SchemeError "argument {0} of {1} has wrong type ({2})"
             [VInt k; VStr name; VStr (type_name val)])
  else Ret val.

Definition py_native (name : string) (args : list value) : outcome value :=
  if String.eqb name "scheme_add" then _arith Z.add (VInt 0) args
  else if String.eqb name "scheme_mul" then _arith Z.mul (VInt 1) args
  else if String.eqb name "scheme_sub" then
    match args with
    | [] => Raise TypeError
    | [val0] =>
        match as_int val0 with
        | Some z => Ret (VInt (- z))
        | None => Raise TypeError
        end
    | val0 :: vals => _arith Z.sub val0 vals
    end
  else if String.eqb name "scheme_eq" then _numcomp Z.eqb args
  else if String.eqb name "scheme_lt" then _numcomp Z.ltb args
  else if String.eqb name "scheme_gt" then _numcomp Z.gtb args
  else if String.eqb name "scheme_le" then _numcomp Z.leb args
  else if String.eqb name "scheme_ge" then _numcomp Z.geb args
  else if String.eqb name "scheme_cons" then
    match args with
    | [x; y] => Ret (Pair x y)
    | _ => Raise TypeError
    end
  else if String.eqb name "scheme_car" then
    match args with
    | [x] => (_ <-- check_type x is_pair 0 "car" ;;; get_first x)%py
    | _ => Raise TypeError
    end
  else if String.eqb name "scheme_cdr" then
    match args with
    | [x] => (_ <-- check_type x is_pair 0 "cdr" ;;; get_second x)%py
    | _ => Raise TypeError
    end
  else if String.eqb name "scheme_list" then Ret (scheme_list args)
  else if String.eqb name "scheme_nullp" then
    match args with
    | [x] => Ret (VBool (scheme_nullp x))
    | _ => Raise TypeError
    end
  else if String.eqb name "scheme_pairp" then
    match args with
    | [x] => Ret (VBool (is_pair x))
    | _ => Raise TypeError
    end
  else Raise (HostError "primitive outside the embedded fragment").

(** ** The lexer ([scheme_tokens.py]) *)

Definition in_chars (c : ascii) (set : string) : bool :=
  existsb (Ascii.eqb c) (list_ascii_of_string set).

Definition ascii_lowercase : string := "abcdefghijklmnopqrstuvwxyz".
Definition digits : string := "0123456789".

Definition _SYMBOL_STARTS (c : ascii) : bool :=
  in_chars c "!$%&*/:<=>?@^_~" || in_chars c ascii_lowercase.
Definition _SYMBOL_INNERS (c : ascii) : bool :=
  _SYMBOL_STARTS c || in_chars c digits || in_chars c "+-.".
Definition _NUMERAL_STARTS (c : ascii) : bool :=
  in_chars c digits || in_chars c "+-.".
Definition _WHITESPACE (c : ascii) : bool :=
  Ascii.eqb c " " || Ascii.eqb c "009" || Ascii.eqb c "010"
  || Ascii.eqb c "013".
Definition _SINGLE_CHAR_TOKENS (c : ascii) : bool := in_chars c "()'".
Definition _TOKEN_END (c : ascii) : bool :=
  _WHITESPACE c || _SINGLE_CHAR_TOKENS c.

(** [x in DELIMITERS]. *)
Definition DELIMITERS (x : value) : bool :=
  existsb (py_eq x) [VStr "("; VStr ")"; VStr "'"; VStr "."].

Fixpoint forallb_str (p : ascii -> bool) (s : string) : bool :=
  match s with
  | EmptyString => true
  | String c r => p c && forallb_str p r
  end.

Definition valid_symbol (s : string) : bool :=
  match s with
  | EmptyString => false
  | String c r => _SYMBOL_STARTS c && forallb_str _SYMBOL_INNERS r
  end.

(** The longest prefix without a character of [_TOKEN_END], and what
    follows it. *)
Fixpoint span_token (line : string) : string * string :=
  match line with
  | EmptyString => (EmptyString, EmptyString)
  | String c r =>
      if _TOKEN_END c then (EmptyString, line)
      else let (t, rest) := span_token r in (String c t, rest)
  end.

(** [_next_candidate_token(line, k)], on the part of the line from
    position [k] on: the candidate and the part of the line after it. *)
Fixpoint _next_candidate_token (line : string) : option string * string :=
  match line with
  | EmptyString => (None, EmptyString)
  | String c r =>
      if Ascii.eqb c ";" then (None, EmptyString)
      else if _WHITESPACE c then _next_candidate_token r
      else if _SINGLE_CHAR_TOKENS c then (Some (String c EmptyString), r)
      else if Ascii.eqb c "#" then
        match r with
        | EmptyString => (Some (String c EmptyString), EmptyString)
        | String c2 r2 => (Some (String c (String c2 EmptyString)), r2)
        end
      else
        let (t, rest) := span_token line in (Some t, rest)
  end.

Definition lower_char (c : ascii) : ascii :=
  let n := nat_of_ascii c in
  if (65 <=? n)%nat && (n <=? 90)%nat then ascii_of_nat (n + 32) else c.

Fixpoint lower (s : string) : string :=
  match s with
  | EmptyString => EmptyString
  | String c r => String (lower_char c) (lower r)
  end.

Fixpoint digits_val (acc : Z) (s : string) : option Z :=
  match s with
  | EmptyString => Some acc
  | String c r =>
      let n := nat_of_ascii c in
      if (48 <=? n)%nat && (n <=? 57)%nat then
        digits_val (10 * acc + Z.of_nat (n - 48)) r
      else None
  end.

(** [int(text)] on an optional sign followed by decimal digits. *)
Definition py_int (text : string) : option Z :=
  match text with
  | EmptyString => None
  | String c r =>
      if Ascii.eqb c "+" then
        match r with EmptyString => None | _ => digits_val 0 r end
      else if Ascii.eqb c "-" then
        match r with
        | EmptyString => None
        | _ => option_map Z.opp (digits_val 0 r)
        end
      else digits_val 0 text
  end.

(** The classification of one candidate in [tokenize_line]: the token to
    append, if any ([None] after the warning for an invalid token).  For a
    candidate that starts like a numeral and is not a signed sequence of
    decimal digits, Python goes on to [float(text)] (and to the invalid
    numeral error); that is outside the embedded fragment and marked by a
    [HostError]. *)
Definition classify (text : string) : outcome (option value) :=
  if DELIMITERS (VStr text) then Ret (Some (VStr text))
  else if String.eqb text "+" || String.eqb text "-" then
    Ret (Some (VStr text))
  else if String.eqb text "#t" || String.eqb (lower text) "true" then
    Ret (Some (VBool true))
  else if String.eqb text "#f" || String.eqb (lower text) "false" then
    Ret (Some (VBool false))
  else if String.eqb text "nil" then Ret (Some NULL)
  else
    match text with
    | EmptyString => Raise IndexError
    | String c _ =>
        if _NUMERAL_STARTS c then
          match py_int text with
          | Some z => Ret (Some (VInt z))
          | None => Raise (HostError "numeral outside the embedded fragment")
          end
        else if _SYMBOL_STARTS c && valid_symbol text then
          Ret (Some (VStr text))
        else Ret None
    end.

(** The loop of [tokenize_line]; every candidate is non-empty, so [n]
    iterations suffice for a line of [n] characters. *)
Fixpoint tokenize_loop (n : nat) (line : string) (result : list value)
  : outcome (list value) :=
  match _next_candidate_token line with
  | (None, _) => Ret result
  | (Some text, rest) =>
      match n with
      | O => Raise RecursionError
      | S n' =>
          (tok <-- classify text ;;;
           match tok with
           | Some t => tokenize_loop n' rest (result ++ [t])
           | None => tokenize_loop n' rest result
           end)%py
      end
  end.

Definition tokenize_line (line : string) : outcome (list value) :=
  tokenize_loop (String.length line) line [].

(** [tokenize_lines]: the tokens of the lines, one list after the other. *)
Fixpoint tokenize_lines (input : list string) : outcome (list value) :=
  match input with
  | [] => Ret []
  | line :: r =>
      (toks <-- tokenize_line line ;;;
       rest <-- tokenize_lines r ;;;
       Ret (toks ++ rest))%py
  end.

(** ** The reader *)

(** Modelled from the spec: the [Buffer] class of the module [buffer],
    which is not among the sources.  It is a pull source of tokens with
    [current()], the next token or [None] at the end of the input, and
    [pop()], which consumes the next token. *)
Definition Buffer : Type := list value.

Definition current (input_port : Buffer) : option value :=
  match input_port with
  | [] => None
  | t :: _ => Some t
  end.

Definition pop (input_port : Buffer) : Buffer :=
  match input_port with
  | [] => []
  | _ :: r => r
  end.

(** [scheme_read] and its local function [read_tail], with [d]
    activations left on the Python stack. *)
Fixpoint scheme_read (d : nat) (input_port : Buffer) : outcome value * Buffer :=
  match d with
  | O => (Raise RecursionError, input_port)
  | S d' =>
      match current input_port with
      | None => (Ret EOF, input_port)
      | Some val =>
          let input_port := pop input_port in
          if scheme_atomp val && negb (DELIMITERS val) then
            (Ret val, input_port)
          else if py_eq val (VStr "'") then
            match scheme_read d' input_port with
            | (Ret e, p) => (Ret (Pair (VStr "quote") (Pair e NULL)), p)
            | r => r
            end
          else if py_eq val (VStr "(") then read_tail d' input_port
          else (Raise (SchemeError "unexpected token: {0}" [val]), input_port)
      end
  end
with read_tail (d : nat) (input_port : Buffer) : outcome value * Buffer :=
  match d with
  | O => (Raise RecursionError, input_port)
  | S d' =>
      match current input_port with
      | None => (Raise (SchemeError "unexpected end of file" []), input_port)
      | Some tok =>
          if py_eq tok (VStr ")") then (Ret NULL, pop input_port)
          else if py_eq tok (VStr ".") then
            match read_tail d' (pop input_port) with
            | (Ret a, p) =>
                match py_len a with
                | Ret n =>
                    if negb (Nat.eqb n 1) then
                      (Raise (SchemeError "too many elements in pair" []), p)
                    else (get_first a, p)
                | Raise e => (Raise e, p)
                end
            | r => r
            end
          else
            match scheme_read d' input_port with
            | (Ret x, p) =>
                match read_tail d' p with
                | (Ret y, p') => (Ret (Pair x y), p')
                | r => r
                end
            | r => r
            end
      end
  end.

(** [read_line(line)], with the recursion limit [d]. *)
Definition read_line (d : nat) (line : string) : outcome value :=
  (toks <-- tokenize_line line ;;; fst (scheme_read d toks))%py.

(** ** The read-eval-print loop *)

Section Repl.

Variable native : string -> list value -> outcome value.

(** [read_eval_print]: what the loop prints, form after form: a value,
    or the [SchemeError] it caught.  Any other exception leaves the
    loop.  Every turn consumes a token, so [n] turns suffice for [n]
    tokens. *)
Fixpoint read_eval_print (n d : nat) (input_port : Buffer) (env : nat)
  (h : heap) : list (outcome value) * heap :=
  match n with
  | O => ([], h)
  | S n' =>
      match scheme_read d input_port with
      | (Ret EOF, _) => ([], h)
      | (Ret expr, p) =>
          match scheme_eval native d expr env h with
          | (Ret val, h') =>
              let (out, h'') := read_eval_print n' d p env h' in
              (Ret val :: out, h'')
          | (Raise (SchemeError msg args), h') =>
              let (out, h'') := read_eval_print n' d p env h' in
              (Raise (SchemeError msg args) :: out, h'')
          | (Raise e, h') => ([Raise e], h')
          end
      | (Raise (SchemeError msg args), p) =>
          let (out, h') := read_eval_print n' d p env h in
          (Raise (SchemeError msg args) :: out, h')
      | (Raise e, _) => ([Raise e], h)
      end
  end.

(** [scheme_repl(source, ...)] in a fresh global frame, with the
    recursion limit [d]. *)
Definition scheme_repl (d : nat) (source : list string)
  : outcome (list (outcome value)) :=
  (toks <-- tokenize_lines source ;;;
   Ret (fst (read_eval_print (S (List.length toks)) d toks global_env
               initial_heap)))%py.

End Repl.

(** ** Programs and data of the statements *)

(** Python's default recursion limit. *)
Definition recursion_limit : nat := 1000.

(** The formals [(a b . c)] and [(a b)], as the reader builds them. *)
Definition formals_a_b_dot_c : value :=
  Pair (VStr "a") (Pair (VStr "b") (VStr "c")).
Definition formals_a_b : value := scheme_list [VStr "a"; VStr "b"].

Definition ints (l : list Z) : value := scheme_list (map VInt l).

(** [(begin e1 ... en)], [(cond c1 ... cn)] and [(if test conseq alt)]. *)
Definition begin_form (exprs : list value) : value :=
  Pair (VStr "begin") (scheme_list exprs).
Definition cond_form (clauses : list value) : value :=
  Pair (VStr "cond") (scheme_list clauses).
Definition if_form (test conseq alt : value) : value :=
  Pair (VStr "if") (scheme_list [test; conseq; alt]).

(** The value a frame binds a symbol to (in that frame, not in its
    parents). *)
Definition bound_in (h : heap) (r : nat) (sym : string) : option value :=
  match nth_error h r with
  | Some fr => dict_get (inner fr) (VStr sym)
  | None => None
  end.

(** The clauses of a [cond] that are passed over: each is a list
    [(test expr ...)] whose test is not [else] and evaluates, in turn, to
    a value that is false for Python.  The result is the store after the
    tests, or [None] when some clause is not passed over. *)
Fixpoint skip_clauses (ev : evalT) (env : nat) (clauses : list value)
  (h : heap) : option heap :=
  match clauses with
  | [] => Some h
  | Pair test body :: rest =>
      if scheme_listp body && negb (py_eq test (VStr "else")) then
        match ev test env h with
        | (Ret v, h1) =>
            match py_truthy v with
            | Ret false => skip_clauses ev env rest h1
            | _ => None
            end
        | _ => None
        end
      else None
  | _ => None
  end.

(** The store only grows: a frame keeps its parent and the keys it has,
    and no frame disappears. *)
Definition has_key (h : heap) (r : nat) (k : value) : bool :=
  match nth_error h r with
  | Some fr => dict_has (inner fr) k
  | None => false
  end.

Definition frame_le (f f' : Frame) : Prop :=
  parent f = parent f'
  /\ forall k, dict_has (inner f) k = true -> dict_has (inner f') k = true.

Definition heap_le (h h' : heap) : Prop :=
  forall r f, nth_error h r = Some f ->
    exists f', nth_error h' r = Some f' /\ frame_le f f'.

Definition grows {A} (c : M A) : Prop := forall h, heap_le h (snd (c h)).

(** The binding loop of [do_let_star_form] over the bindings [bs], the
    [i]-th binding first. *)
Definition let_star_loop (ev : evalT) (new_env : nat) (i : nat)
  (bs : list value) : M unit :=
  for_loop i bs None
    (fun _ binding => let_star_binding ev new_env binding ;; ret None)
    (ret tt).

(** What [do_let_star_form] does after its binding loop. *)
Definition let_star_finish (ev : evalT) (exprs : value) (env : nat)
  : M (value * nat) :=
  n <- lift (py_len exprs) ;;
  let last := n - 1 in
  eval_all_but_last ev exprs last env ;;
  e <- lift (py_getitem exprs last) ;;
  ret (e, env).

(** [(let* bindings body ...)] without its keyword. *)
Definition let_star_vals (bindings body : list value) : value :=
  scheme_list (scheme_list bindings :: body).

(** The counting loop
    [(define (loop n) (if (= n 0) 0 (loop (- n 1))))], whose recursive
    call is in tail position, and the call [(loop n)]. *)
Definition loop_source : string :=
  "(define (loop n) (if (= n 0) 0 (loop (- n 1))))".

Definition loop_formals : value := scheme_list [VStr "n"].

Definition loop_recur : value :=
  scheme_list [VStr "loop"; scheme_list [VStr "-"; VStr "n"; VInt 1]].

Definition loop_body : value :=
  if_form (scheme_list [VStr "="; VStr "n"; VInt 0]) (VInt 0) loop_recur.

Definition loop_closure : value :=
  LambdaProcedure loop_formals loop_body global_env.

Definition loop_call (n : Z) : value := scheme_list [VStr "loop"; VInt n].

(** The store after the definition of [loop] in the global frame. *)
Definition loop_heap : heap :=
  snd (define global_env (VStr "loop") loop_closure initial_heap).

(** A frame in which the three free names of the body of [loop] resolve
    to the closure and to the two primitives. *)
Definition loop_names (h : heap) (env : nat) : Prop :=
  getitem env "loop" h = (Ret loop_closure, h)
  /\ getitem env "=" h = (Ret (PrimitiveProcedure (Fnative "scheme_eq")), h)
  /\ getitem env "-" h = (Ret (PrimitiveProcedure (Fnative "scheme_sub")), h).

(** A frame from which the body of [loop] can run: moreover [n] is bound
    to [k]. *)
Definition loop_frame (h : heap) (env : nat) (k : Z) : Prop :=
  loop_names h env /\ getitem env "n" h = (Ret (VInt k), h).

(** The expressions of a list evaluated in turn, for effect. *)
Fixpoint eval_each (ev : evalT) (exprs : list value) (env : nat) : M unit :=
  match exprs with
  | [] => ret tt
  | e :: r => ev e env ;; eval_each ev r env
  end.

(** [c'] does what [c] does whenever [c] does not run out of stack. *)
Definition refines {A} (c c' : M A) : Prop :=
  forall h r h', c h = (r, h') -> r <> Raise RecursionError -> c' h = (r, h').

(** The operands [pre] evaluated in turn, each to a value that [go_on]
    accepts: the store afterwards, or [None] when some operand raises or
    yields a value that [go_on] refuses. *)
Fixpoint eval_while (ev : evalT) (env : nat) (go_on : value -> bool)
  (pre : list value) (h : heap) : option heap :=
  match pre with
  | [] => Some h
  | e :: r =>
      match ev e env h with
      | (Ret v, h1) => if go_on v then eval_while ev env go_on r h1 else None
      | _ => None
      end
  end.

(** [x == False] and [x != False], the tests of [do_and_form] and
    [do_or_form]. *)
Definition eq_False (v : value) : bool := py_eq v (VBool false).
Definition ne_False (v : value) : bool := negb (py_eq v (VBool false)).

Definition and_form (operands : list value) : value :=
  Pair (VStr "and") (scheme_list operands).
Definition or_form (operands : list value) : value :=
  Pair (VStr "or") (scheme_list operands).
Definition quote_form (e : value) : value :=
  scheme_list [VStr "quote"; e].

(** The list [(x1 ... xn . tail)]. *)
Definition improper_list (l : list value) (tail : value) : value :=
  fold_right Pair tail l.

(** [scheme_length], the primitive [length]. *)
Definition scheme_length (x : value) : outcome value :=
  if scheme_nullp x then Ret (VInt 0)
  else
    (_ <-- check_type x scheme_listp 0 "length" ;;;
     n <-- py_len x ;;;
     Ret (VInt (Z.of_nat n)))%py.

(** The inner loop of [scheme_append]: fresh pairs for the items of [v],
    as far as [v] goes on with pairs, ending in [result]. *)
Fixpoint append_copy (v result : value) : value :=
  match v with
  | Pair first second => Pair first (append_copy second result)
  | _ => result
  end.

(** The outer loop of [scheme_append], which goes through the arguments
    from the last but one down to the first: the result for the arguments
    from position [i] on. *)
Fixpoint append_from (i : Z) (vals : list value) : outcome value :=
  match vals with
  | [] => Ret NULL
  | [last] => Ret last
  | v :: rest =>
      (result <-- append_from (i + 1) rest ;;;
       if scheme_nullp v then Ret result
       else
         (_ <-- check_type v is_pair i "append" ;;;
          Ret (append_copy v result)))%py
  end.

(** [scheme_append], the primitive [append]. *)
Definition scheme_append (vals : list value) : outcome value :=
  append_from 0 vals.

(** The sum, the product and the iterated difference that [_arith]
    computes on integers. *)
Definition sum_of (zs : list Z) : Z := fold_left Z.add zs 0%Z.
Definition product_of (zs : list Z) : Z := fold_left Z.mul zs 1%Z.

(** The expressions [es] evaluated in [env] from left to right: the list
    of their values. *)
Fixpoint eval_args (ev : evalT) (env : nat) (es : list value)
  : M (list value) :=
  match es with
  | [] => ret []
  | e :: r => v <- ev e env ;; vs <- eval_args ev env r ;; ret (v :: vs)
  end.

(** The dictionary [d] after [d[k] = v] for each pair of [kvs] in turn. *)
Definition bind_all (d : dict) (kvs : list (value * value)) : dict :=
  fold_left (fun d kv => dict_set d (fst kv) (snd kv)) kvs d.

(** [(let ((name e) ...) body ...)]. *)
Definition let_form (bs : list (value * value)) (body : list value) : value :=
  Pair (VStr "let")
    (Pair (scheme_list (map (fun b => scheme_list [fst b; snd b]) bs))
       (scheme_list body)).

(** The names that [scheme_eval] treats as special forms when they come
    first in a combination. *)
Definition special_forms : list string :=
  ["and"; "or"; "if"; "cond"; "begin"; "case";
   "lambda"; "define"; "quote"; "let"; "let*"].

Definition is_special (first : value) : bool :=
  existsb (py_eq first) (map VStr special_forms).

(** The tokens of [str(e)]: [Pair.__str__] writes a pair as its items
    between parentheses, with a dot before a last component that is
    neither a pair nor the empty list; [tail_tokens] is what follows the
    first item. *)
Fixpoint tokens_of (e : value) : list value :=
  match e with
  | Pair first second => VStr "(" :: tokens_of first ++ tail_tokens second
  | _ => [e]
  end
with tail_tokens (second : value) : list value :=
  match second with
  | NULL => [VStr ")"]
  | Pair first second' => tokens_of first ++ tail_tokens second'
  | _ => [VStr "."; second; VStr ")"]
  end.

(** The data that can be written as tokens: booleans, integers, symbols
    that are no delimiters, the empty list, and the pairs of such data. *)
Fixpoint readable (e : value) : bool :=
  match e with
  | VBool _ | VInt _ | NULL => true
  | VStr _ => negb (DELIMITERS e)
  | Pair first second => readable first && readable second
  | _ => false
  end.

(** The forms [es] evaluated one after the other in the frame [env],
    each in the store the one before left: what is printed for each, a
    value or a [SchemeError], up to the first exception of another
    class. *)
Fixpoint session (native : string -> list value -> outcome value) (d : nat)
  (es : list value) (env : nat) (h : heap) : list (outcome value) * heap :=
  match es with
  | [] => ([], h)
  | e :: r =>
      match scheme_eval native d e env h with
      | (Ret val, h') =>
          let (out, h'') := session native d r env h' in
          (Ret val :: out, h'')
      | (Raise (SchemeError msg args), h') =>
          let (out, h'') := session native d r env h' in
          (Raise (SchemeError msg args) :: out, h'')
      | (Raise e, h') => ([Raise e], h')
      end
  end.

(** The tokens the lexer may yield: delimiters, booleans, integers, the
    empty list, the symbols [+] and [-], and the valid symbols. *)
Definition token_ok (t : value) : bool :=
  match t with
  | VBool _ | VInt _ | NULL => true
  | VStr s =>
      DELIMITERS t || String.eqb s "+" || String.eqb s "-" || valid_symbol s
  | _ => false
  end.

(** Python's [str] of an [int]: its decimal digits, after a [-] when it
    is negative. *)
Definition str_int (z : Z) : string :=
  DecimalString.NilEmpty.string_of_int (Z.to_int z).

(** [str(x)] for the objects that are written without recursion.  The
    text Python gives a [PrimitiveProcedure], which has no [__str__],
    holds the address of the object; the embedding has none. *)
Definition atom_str (x : value) : string :=
  match x with
  | PyNone => "None"
  | VBool true => "True"
  | VBool false => "False"
  | VInt z => str_int z
  | VStr s => s
  | NULL => "nil"
  | EOF => "<EOF>"
  | _ => "<PrimitiveProcedure object>"
  end.

(** [str(x)]: [Pair.__str__] and [LambdaProcedure.__str__]; [str_tail]
    is the loop of [Pair.__str__] with what follows it. *)
Fixpoint py_str (x : value) : string :=
  match x with
  | Pair first second =>
      String.append "(" (String.append (py_str first) (str_tail second))
  | LambdaProcedure formals body _ =>
      String.append "(lambda "
        (String.append (py_str formals)
           (String.append " " (String.append (py_str body) ")")))
  | _ => atom_str x
  end
with str_tail (second : value) : string :=
  match second with
  | Pair first second' =>
      String.append " " (String.append (py_str first) (str_tail second'))
  | NULL => ")"
  | LambdaProcedure formals body _ =>
      String.append " . "
        (String.append
           (String.append "(lambda "
              (String.append (py_str formals)
                 (String.append " " (String.append (py_str body) ")"))))
           ")")
  | _ => String.append " . " (String.append (atom_str second) ")")
  end.

(** The data whose written form the lexer and the reader take back:
    booleans, integers, the empty list, the symbols [+] and [-], the
    valid symbols other than [true], [false] and [nil], and the pairs of
    such data. *)
Fixpoint writable (e : value) : bool :=
  match e with
  | VBool _ | VInt _ | NULL => true
  | VStr s =>
      String.eqb s "+" || String.eqb s "-"
      || (valid_symbol s && negb (String.eqb s "true")
          && negb (String.eqb s "false") && negb (String.eqb s "nil"))
  | Pair first second => writable first && writable second
  | _ => false
  end.

(** A candidate token: a text without a character of [_TOKEN_END] that
    starts neither a comment nor a boolean literal. *)
Definition atom_text (t : string) : bool :=
  match t with
  | EmptyString => false
  | String c _ =>
      negb (Ascii.eqb c ";") && negb (Ascii.eqb c "#")
      && forallb_str (fun c => negb (_TOKEN_END c)) t
  end.

(** What may follow a candidate: the end of the line or a character of
    [_TOKEN_END]. *)
Definition delimited (r : string) : bool :=
  match r with
  | EmptyString => true
  | String c _ => _TOKEN_END c
  end.

(** A decimal digit. *)
Definition digit_char (c : ascii) : bool := in_chars c digits.

(** Every frame was made after its parent: the reference [parent] of the
    frame at index [i] is an index below [i]. *)
Definition heap_wf (h : heap) : Prop :=
  forall i fr p, nth_error h i = Some fr -> parent fr = Some p -> p < i.

(** [c], run in a well-formed store with at least [n] frames, leaves a
    well-formed store with no fewer frames, and a result that satisfies
    [Q] with respect to the number of frames. *)
Definition keeps {A} (n : nat) (c : M A) (Q : A -> nat -> Prop) : Prop :=
  forall h,
    heap_wf h -> n <= List.length h ->
    heap_wf (snd (c h)) /\ List.length h <= List.length (snd (c h))
    /\ forall a, fst (c h) = Ret a -> Q a (List.length (snd (c h))).

Definition any {A} (a : A) (b : nat) : Prop := True.
Definition below (env b : nat) : Prop := env < b.
Definition env_below {A} (r : A * nat) (b : nat) : Prop := snd r < b.

(** [(lambda (name ...) body)]. *)
Definition lambda_form (names : list value) (body : value) : value :=
  scheme_list [VStr "lambda"; scheme_list names; body].

(** [scheme_true(val)] of [scheme_primitives.py], "All values in Scheme
    are true except False": [val is not False]. *)
Definition scheme_true (val : value) : bool :=
  match val with
  | VBool false => false
  | _ => true
  end.

(** The chain of parents of the frame [self]: [self], its parent, the
    parent of its parent, and so on up to a frame without parent; [n]
    bounds its length. *)
Fixpoint ancestors (n : nat) (h : heap) (self : nat) : list nat :=
  match n with
  | O => []
  | S n' =>
      match nth_error h self with
      | None => []
      | Some fr =>
          self :: match parent fr with
                  | Some p => ancestors n' h p
                  | None => []
                  end
      end
  end.

(** The candidates of a line: the texts that the loop of
    [tokenize_line] goes through, with the fuel of [tokenize_loop]. *)
Fixpoint candidates (n : nat) (line : string) : list string :=
  match _next_candidate_token line with
  | (None, _) => []
  | (Some text, rest) =>
      match n with
      | O => []
      | S n' => text :: candidates n' rest
      end
  end.

(** A candidate that starts like a numeral is [+], [-], a dot, or a
    signed sequence of decimal digits, which [int(text)] accepts: the
    lexer does not go on to [float(text)]. *)
Definition numeral_ok (text : string) : bool :=
  match text with
  | EmptyString => true
  | String c _ =>
      if _NUMERAL_STARTS c then
        String.eqb text "+" || String.eqb text "-" || String.eqb text "."
        || match py_int text with Some _ => true | None => false end
      else true
  end.

(** * Properties *)

(** ** Call frames *)

Lemma read_formals_a_b_dot_c :
  read_line recursion_limit "(a b . c)" = Ret formals_a_b_dot_c.
Proof. reflexivity. Qed.

(** C3, on the code: with the formals [(a b . c)] and the arguments
    [(1 2 3 4)], [make_call_frame] binds [a] to 1 and the pair [(b . c)]
    itself to [(2 3 4)]; neither [b] nor [c] is bound.  The
    [except SchemeError] branch only splits off the first formal. *)
Theorem make_call_frame_two_formals_and_rest :
  forall self h,
    make_call_frame self (Scheme formals_a_b_dot_c) (Scheme (ints [1; 2; 3; 4]%Z)) h
    = (Ret (List.length h),
       h ++ [mkFrame [(VStr "a", VInt 1);
                      (Pair (VStr "b") (VStr "c"), ints [2; 3; 4]%Z)]
               (Some self)])
    /\ bound_in (h ++ [mkFrame [(VStr "a", VInt 1);
                               (Pair (VStr "b") (VStr "c"), ints [2; 3; 4]%Z)]
                         (Some self)]) (List.length h) "b" = None
    /\ bound_in (h ++ [mkFrame [(VStr "a", VInt 1);
                               (Pair (VStr "b") (VStr "c"), ints [2; 3; 4]%Z)]
                         (Some self)]) (List.length h) "c" = None.
Proof.
  intros self h. split; [reflexivity|].
  unfold bound_in.
  rewrite nth_error_app2 by lia.
  rewrite Nat.sub_diag. split; reflexivity.
Qed.

(** With one formal before the dot the frame is the documented one:
    [(s . rest)] binds [s] to the first argument and [rest] to the list of
    the others. *)
Lemma make_call_frame_one_formal_and_rest :
  forall s rest v vs,
    s <> rest ->
    call_frame_inner (Scheme (Pair (VStr s) (VStr rest))) (Scheme (Pair v vs))
    = Ret [(VStr s, v); (VStr rest, vs)].
Proof.
  intros s rest v vs Hne. unfold call_frame_inner. simpl.
  unfold py_eq. simpl.
  destruct (String.eqb s rest) eqn:E.
  - apply String.eqb_eq in E. contradiction.
  - reflexivity.
Qed.

(** C4, on the code: [make_call_frame] has no arity check.  With the
    formals [(a b)] and the single argument [(1)] it returns a frame that
    binds [a] only; with three arguments the third is dropped. *)
Theorem make_call_frame_no_arity_error :
  forall self h,
    make_call_frame self (Scheme formals_a_b) (Scheme (ints [1]%Z)) h
    = (Ret (List.length h), h ++ [mkFrame [(VStr "a", VInt 1)] (Some self)])
    /\ make_call_frame self (Scheme formals_a_b) (Scheme (ints [1; 2; 3]%Z)) h
       = (Ret (List.length h),
          h ++ [mkFrame [(VStr "a", VInt 1); (VStr "b", VInt 2)] (Some self)]).
Proof. intros self h. split; reflexivity. Qed.

(** Two formals before the dot and one argument: no error either. *)
Lemma make_call_frame_variadic_minimum_unchecked :
  forall self h,
    make_call_frame self (Scheme formals_a_b_dot_c) (Scheme (ints [1]%Z)) h
    = (Ret (List.length h),
       h ++ [mkFrame [(VStr "a", VInt 1); (Pair (VStr "b") (VStr "c"), NULL)]
               (Some self)]).
Proof. intros self h. reflexivity. Qed.

(** ** Closures *)

(** [scheme_apply] attaches the call frame of a [LambdaProcedure] to the
    frame of the caller; the frame stored in the procedure is not used. *)
Lemma scheme_apply_frame_parent :
  forall native d formals body cenv args env h d0,
    call_frame_inner (Scheme formals) (Scheme args) = Ret d0 ->
    snd (py_iter args) = None ->
    scheme_apply native (S d) (LambdaProcedure formals body cenv) args env h
    = scheme_eval native d body (List.length h)
        (h ++ [mkFrame d0 (Some env)]).
Proof.
  intros native d formals body cenv args env h d0 Hd Hit.
  simpl. unfold apply_step, bind, lift, make_call_frame, bind, lift, new_frame.
  destruct (py_iter args) as [items e]. simpl in Hit. subst e. simpl.
  rewrite Hd. reflexivity.
Qed.

(** C1, on the code: after [(define (f x) (lambda () x))] the call
    [((f 1))] does not evaluate to 1.  The inner closure is applied in a
    frame below the global frame, where [x] is unbound; when the caller
    binds [x], the closure sees the caller's value. *)
Theorem closure_body_sees_caller_frame :
  forall native d,
    scheme_repl native (12 + d)
      ["(define (f x) (lambda () x))"; "((f 1))"]
    = Ret [Ret PyNone;
           Raise (SchemeError "unknown identifier: {0}" [VStr "x"])]
    /\ scheme_repl native (12 + d)
         ["(define x 5)"; "(define (f x) (lambda () x))"; "((f 1))"]
       = Ret [Ret PyNone; Ret PyNone; Ret (VInt 5)].
Proof. intros native d. split; reflexivity. Qed.

(** ** [begin] *)

(** C5, on the code: [(begin 1)] does not evaluate to 1.  The loop of
    [do_begin_form] compares its counter with [len(vals) - 1] after the
    increment, so with one sub-expression it falls off its end and
    answers [None], which [scheme_eval] refuses. *)
Theorem begin_single_expression :
  forall native d env h,
    scheme_eval native (2 + d) (begin_form [VInt 1]) env h
    = (Raise (SchemeError "Cannot evaluate an undefined expression." []), h).
Proof. intros. reflexivity. Qed.

(** With two sub-expressions the first is not evaluated at all. *)
Lemma begin_two_skips_first :
  forall native d e1 e2 env h,
    scheme_eval native (S d) (begin_form [e1; e2]) env h
    = scheme_eval native d e2 env h.
Proof. intros. reflexivity. Qed.

(** With three, the first is evaluated and the second skipped. *)
Lemma begin_three_skips_second :
  forall native d e1 e2 e3 env h,
    scheme_eval native (S d) (begin_form [e1; e2; e3]) env h
    = (scheme_eval native d e1 env ;; scheme_eval native d e3 env) h.
Proof.
  intros. cbn. unfold do_begin_form, for_in, bind, lift, ret. cbn.
  unfold begin_statement, bind, lift, ret. cbn.
  destruct (scheme_eval native d e1 env h) as [[v|e] h']; reflexivity.
Qed.

(** A [begin] without sub-expressions is refused. *)
Lemma begin_empty :
  forall native d env h,
    scheme_eval native (S d) (begin_form []) env h
    = (Raise (SchemeError "too few operands in form" []), h).
Proof. intros. reflexivity. Qed.

(** ** [cond] *)

(** C6, on the code: [(cond (#t (quote a)))] does not evaluate to the
    symbol [a].  [do_cond_form] evaluates the body expression itself and
    [scheme_eval] evaluates what the handler returns once more, so the
    symbol is looked up. *)
Theorem cond_body_evaluated_twice :
  forall native d,
    scheme_eval native (3 + d)
      (cond_form [scheme_list [VBool true;
                               scheme_list [VStr "quote"; VStr "a"]]])
      global_env initial_heap
    = (Raise (SchemeError "unknown identifier: {0}" [VStr "a"]),
       initial_heap).
Proof. intros. reflexivity. Qed.

(** ** The reader *)

(** C8 as stated fails: reading ["( . 1)"] returns the integer 1. *)
Lemma read_dot_after_open_paren_returns :
  read_line recursion_limit "( . 1)" = Ret (VInt 1)
  /\ ~ (exists msg args,
          read_line recursion_limit "( . 1)" = Raise (SchemeError msg args)).
Proof.
  split; [reflexivity|].
  intros [msg [args H]]. discriminate H.
Qed.

(** The other two error cases of the reader. *)
Lemma read_unterminated_list :
  read_line recursion_limit "(1 2"
  = Raise (SchemeError "unexpected end of file" []).
Proof. reflexivity. Qed.

Lemma read_two_elements_after_dot :
  read_line recursion_limit "(1 . 2 3)"
  = Raise (SchemeError "too many elements in pair" []).
Proof. reflexivity. Qed.

Lemma py_eq_str_inv :
  forall v s, py_eq v (VStr s) = true -> v = VStr s.
Proof.
  intros v s H. unfold py_eq in H.
  destruct v; simpl in H; try discriminate H.
  apply String.eqb_eq in H. subst. reflexivity.
Qed.

Lemma scheme_read_S :
  forall d input_port,
    scheme_read (S d) input_port =
    match current input_port with
    | None => (Ret EOF, input_port)
    | Some val =>
        let input_port := pop input_port in
        if scheme_atomp val && negb (DELIMITERS val) then
          (Ret val, input_port)
        else if py_eq val (VStr "'") then
          match scheme_read d input_port with
          | (Ret e, p) => (Ret (Pair (VStr "quote") (Pair e NULL)), p)
          | r => r
          end
        else if py_eq val (VStr "(") then read_tail d input_port
        else (Raise (SchemeError "unexpected token: {0}" [val]), input_port)
    end.
Proof. reflexivity. Qed.

Lemma read_tail_S :
  forall d input_port,
    read_tail (S d) input_port =
    match current input_port with
    | None => (Raise (SchemeError "unexpected end of file" []), input_port)
    | Some tok =>
        if py_eq tok (VStr ")") then (Ret NULL, pop input_port)
        else if py_eq tok (VStr ".") then
          match read_tail d (pop input_port) with
          | (Ret a, p) =>
              match py_len a with
              | Ret n =>
                  if negb (Nat.eqb n 1) then
                    (Raise (SchemeError "too many elements in pair" []), p)
                  else (get_first a, p)
              | Raise e => (Raise e, p)
              end
          | r => r
          end
        else
          match scheme_read d input_port with
          | (Ret x, p) =>
              match read_tail d p with
              | (Ret y, p') => (Ret (Pair x y), p')
              | r => r
              end
          | r => r
          end
    end.
Proof. reflexivity. Qed.

(** C8, amended: a dot right after the open parenthesis is accepted.
    When an expression [e] and the close parenthesis follow the dot, the
    reader returns [e] itself; so ["( . 1)"] reads as 1. *)
Theorem read_dot_after_open_paren :
  forall d toks e rest,
    scheme_read d toks = (Ret e, VStr ")" :: rest) ->
    scheme_read (3 + d) (VStr "(" :: VStr "." :: toks) = (Ret e, rest).
Proof.
  intros d toks e rest H.
  destruct d as [|d']; [discriminate H|].
  destruct toks as [|t toks']; [discriminate H|].
  assert (E1 : py_eq t (VStr ")") = false).
  { destruct (py_eq t (VStr ")")) eqn:E; [|reflexivity].
    apply py_eq_str_inv in E. subst t. discriminate H. }
  assert (E2 : py_eq t (VStr ".") = false).
  { destruct (py_eq t (VStr ".")) eqn:E; [|reflexivity].
    apply py_eq_str_inv in E. subst t. discriminate H. }
  change (3 + S d') with (S (S (S (S d')))).
  rewrite scheme_read_S.
  cbn [current pop]. change (scheme_atomp (VStr "(") && negb (DELIMITERS (VStr "("))) with false.
  change (py_eq (VStr "(") (VStr "'")) with false.
  change (py_eq (VStr "(") (VStr "(")) with true.
  cbv iota.
  rewrite read_tail_S. cbn [current pop].
  change (py_eq (VStr ".") (VStr ")")) with false.
  change (py_eq (VStr ".") (VStr ".")) with true. cbv iota.
  rewrite read_tail_S. cbn [current pop]. rewrite E1, E2.
  rewrite H. rewrite read_tail_S. cbn [current pop].
  change (py_eq (VStr ")") (VStr ")")) with true. cbv iota.
  reflexivity.
Qed.

Lemma read_dot_after_open_paren_witness :
  scheme_read 1 [VInt 1; VStr ")"] = (Ret (VInt 1), [VStr ")"])
  /\ scheme_read (3 + 1) [VStr "("; VStr "."; VInt 1; VStr ")"]
     = (Ret (VInt 1), []).
Proof.
  split; [reflexivity|].
  apply (read_dot_after_open_paren 1 [VInt 1; VStr ")"] (VInt 1) []).
  reflexivity.
Defined.

(** ** Lists as Scheme values *)

Lemma pair_len_from_scheme_list :
  forall l n, pair_len_from n (scheme_list l) = Ret (n + List.length l).
Proof.
  induction l as [|x l IH]; intros n; simpl.
  - rewrite Nat.add_0_r. reflexivity.
  - rewrite IH. f_equal. lia.
Qed.

Lemma py_len_scheme_list :
  forall l, py_len (scheme_list l) = Ret (List.length l).
Proof.
  destruct l as [|x l]; simpl; [reflexivity|].
  rewrite pair_len_from_scheme_list. reflexivity.
Qed.

Lemma scheme_listp_scheme_list :
  forall l, scheme_listp (scheme_list l) = true.
Proof. induction l; simpl; auto. Qed.

Lemma pair_iter_scheme_list :
  forall l, pair_iter (scheme_list l) = (l, None).
Proof.
  induction l as [|x l IH]; simpl; [reflexivity|].
  rewrite IH. reflexivity.
Qed.

Lemma py_iter_scheme_list :
  forall l, py_iter (scheme_list l) = (l, None).
Proof.
  destruct l as [|x l]; [reflexivity|].
  change (py_iter (scheme_list (x :: l))) with (pair_iter (scheme_list (x :: l))).
  apply pair_iter_scheme_list.
Qed.

(** A proper list has a length. *)
Lemma pair_len_from_listp :
  forall v n, scheme_listp v = true ->
    exists k, pair_len_from n v = Ret (n + k).
Proof.
  induction v; intros n H; simpl in H; try discriminate H.
  - exists 0. simpl. rewrite Nat.add_0_r. reflexivity.
  - destruct (IHv2 (S n) H) as [k Hk]. exists (S k). simpl.
    rewrite Hk. f_equal. lia.
Qed.

(** ** [if] *)

Lemma scheme_eval_if :
  forall native d rest env h,
    scheme_listp rest = true ->
    scheme_eval native (S d) (Pair (VStr "if") rest) env h
    = (e <- do_if_form (scheme_eval native d) rest env ;;
       scheme_eval native d e env) h.
Proof.
  intros native d rest env h Hl. simpl. unfold eval_step. simpl.
  rewrite Hl. reflexivity.
Qed.

(** [do_if_form] selects the branch by the truth value Python gives to the
    value of the test. *)
Lemma do_if_form_truthiness :
  forall (ev : evalT) test conseq alt env h v h' b,
    ev test env h = (Ret v, h') ->
    py_truthy v = Ret b ->
    do_if_form ev (scheme_list [test; conseq; alt]) env h
    = (Ret (if b then conseq else alt), h').
Proof.
  intros ev test conseq alt env h v h' b Hev Hb.
  unfold do_if_form, bind, lift, ret. simpl.
  rewrite Hev, Hb. destruct b; reflexivity.
Qed.

(** C10: when the test of an [if] evaluates to the integer 0 or to the
    empty list, [do_if_form] hands back the alternate, and the value of
    the form is the value of the alternate. *)
Theorem if_zero_and_nil_select_alternate :
  forall native d test conseq alt env h v h',
    scheme_eval native d test env h = (Ret v, h') ->
    v = VInt 0 \/ v = NULL ->
    do_if_form (scheme_eval native d) (scheme_list [test; conseq; alt]) env h
    = (Ret alt, h')
    /\ scheme_eval native (S d) (if_form test conseq alt) env h
       = scheme_eval native d alt env h'.
Proof.
  intros native d test conseq alt env h v h' Hev Hv.
  assert (Hb : py_truthy v = Ret false)
    by (destruct Hv; subst v; reflexivity).
  pose proof (do_if_form_truthiness (scheme_eval native d) test conseq alt
                env h v h' false Hev Hb) as Hdo.
  split; [exact Hdo|].
  unfold if_form. rewrite scheme_eval_if by reflexivity.
  unfold bind. rewrite Hdo. reflexivity.
Qed.

Lemma if_zero_and_nil_select_alternate_witness :
  (scheme_eval py_native 1 (VInt 0) global_env initial_heap
   = (Ret (VInt 0), initial_heap)
   /\ (VInt 0 = VInt 0 \/ VInt 0 = NULL))
  /\ scheme_eval py_native 2 (if_form (VInt 0) (VInt 1) (VInt 2))
       global_env initial_heap
     = scheme_eval py_native 1 (VInt 2) global_env initial_heap.
Proof.
  split; [split; [reflexivity | left; reflexivity]|].
  apply (if_zero_and_nil_select_alternate py_native 1 (VInt 0) (VInt 1)
           (VInt 2) global_env initial_heap (VInt 0) initial_heap).
  - reflexivity.
  - left. reflexivity.
Defined.

(** The two cases of the claim, read from source text: the alternate is
    selected, although neither value is the boolean false. *)
Lemma if_zero_and_nil_examples :
  scheme_repl py_native recursion_limit
    ["(if 0 (quote yes) (quote no))"; "(if nil (quote yes) (quote no))";
     "(if (quote ()) (quote yes) (quote no))"; "(if #f (quote yes) (quote no))";
     "(if 7 (quote yes) (quote no))"]
  = Ret [Ret (VStr "no"); Ret (VStr "no"); Ret (VStr "no"); Ret (VStr "no");
         Ret (VStr "yes")].
Proof. vm_compute. reflexivity. Qed.

(** ** [cond], clause by clause *)

Lemma scheme_eval_cond :
  forall native d rest env h,
    scheme_listp rest = true ->
    scheme_eval native (S d) (Pair (VStr "cond") rest) env h
    = (e <- do_cond_form (scheme_eval native d) rest env ;;
       scheme_eval native d e env) h.
Proof.
  intros native d rest env h Hl. simpl. unfold eval_step. simpl.
  rewrite Hl. reflexivity.
Qed.

Lemma check_form_clause :
  forall test body,
    scheme_listp body = true ->
    check_form (Pair test body) 1 None = Ret tt.
Proof.
  intros test body Hl. unfold check_form. simpl. rewrite Hl. simpl.
  destruct (pair_len_from_listp body 1 Hl) as [k Hk]. rewrite Hk. reflexivity.
Qed.

(** A clause that is passed over leaves the loop running. *)
Lemma cond_clause_skipped :
  forall (ev : evalT) n env i test body h v h1,
    scheme_listp body = true ->
    py_eq test (VStr "else") = false ->
    ev test env h = (Ret v, h1) ->
    py_truthy v = Ret false ->
    cond_clause ev n env i (Pair test body) h = (Ret None, h1).
Proof.
  intros ev n env i test body h v h1 Hl Hne Hev Hf.
  unfold cond_clause, bind, lift, ret.
  rewrite (check_form_clause test body Hl). simpl.
  rewrite Hne, Hev, Hf. reflexivity.
Qed.

(** A clause without body whose test is true for Python ends the loop
    with [True]. *)
Lemma cond_clause_bodiless :
  forall (ev : evalT) n env i test h v h1,
    py_eq test (VStr "else") = false ->
    ev test env h = (Ret v, h1) ->
    py_truthy v = Ret true ->
    cond_clause ev n env i (Pair test NULL) h = (Ret (Some (VBool true)), h1).
Proof.
  intros ev n env i test h v h1 Hne Hev Ht.
  unfold cond_clause, bind, lift, ret. simpl.
  rewrite Hne, Hev, Ht. reflexivity.
Qed.

Lemma cond_loop_skips :
  forall (ev : evalT) n env pre h h1,
    skip_clauses ev env pre h = Some h1 ->
    forall i rest e orelse,
      for_loop i (pre ++ rest) e (cond_clause ev n env) orelse h
      = for_loop (i + List.length pre) rest e (cond_clause ev n env) orelse h1.
Proof.
  intros ev n env pre. induction pre as [|c pre IH]; intros h h1 Hs i rest e orelse.
  - simpl in Hs. injection Hs as <-. simpl. rewrite Nat.add_0_r. reflexivity.
  - simpl in Hs. destruct c; try discriminate Hs.
    destruct (scheme_listp c2) eqn:Hl; simpl in Hs; [|discriminate Hs].
    destruct (py_eq c1 (VStr "else")) eqn:Hne; simpl in Hs; [discriminate Hs|].
    destruct (ev c1 env h) as [[v|x] h'] eqn:Hev; [|discriminate Hs].
    destruct (py_truthy v) as [[|]|] eqn:Hf; try discriminate Hs.
    simpl. unfold bind at 1.
    rewrite (cond_clause_skipped ev n env i c1 c2 h v h' Hl Hne Hev Hf).
    rewrite (IH h' h1 Hs (S i) rest e orelse).
    f_equal. lia.
Qed.

(** The part of the statement on bodiless clauses that holds: in a
    [cond] whose earlier clauses are passed over, a clause without body
    whose test is not [else] and evaluates to a value that is true for
    Python makes the whole form evaluate to [True], whatever clauses
    follow. *)
Lemma cond_bodiless_clause_yields_true :
  forall native d env pre test post h h1 h2 v,
    skip_clauses (scheme_eval native d) env pre h = Some h1 ->
    py_eq test (VStr "else") = false ->
    scheme_eval native d test env h1 = (Ret v, h2) ->
    py_truthy v = Ret true ->
    scheme_eval native (S d) (cond_form (pre ++ Pair test NULL :: post)) env h
    = (Ret (VBool true), h2).
Proof.
  intros native d env pre test post h h1 h2 v Hs Hne Hev Ht.
  unfold cond_form.
  rewrite scheme_eval_cond by apply scheme_listp_scheme_list.
  unfold bind at 1. unfold do_cond_form, bind at 1, lift.
  rewrite py_len_scheme_list.
  unfold for_in. rewrite py_iter_scheme_list. simpl fst. simpl snd.
  rewrite (cond_loop_skips _ _ _ _ _ _ Hs).
  simpl for_loop. unfold bind at 1.
  rewrite (cond_clause_bodiless _ _ _ _ _ _ _ _ Hne Hev Ht).
  unfold ret at 1.
  destruct d as [|d']; [discriminate Hev|]. reflexivity.
Qed.

(** [(cond (#f 1) (#t) (else 2))]. *)
Lemma cond_bodiless_clause_yields_true_witness :
  (skip_clauses (scheme_eval py_native 1) global_env
     [scheme_list [VBool false; VInt 1]] initial_heap = Some initial_heap
   /\ py_eq (VBool true) (VStr "else") = false
   /\ scheme_eval py_native 1 (VBool true) global_env initial_heap
      = (Ret (VBool true), initial_heap)
   /\ py_truthy (VBool true) = Ret true)
  /\ scheme_eval py_native 2
       (cond_form ([scheme_list [VBool false; VInt 1]]
                   ++ Pair (VBool true) NULL
                   :: [scheme_list [VStr "else"; VInt 2]]))
       global_env initial_heap
     = (Ret (VBool true), initial_heap).
Proof.
  split; [repeat split; reflexivity|].
  apply (cond_bodiless_clause_yields_true py_native 1 global_env
           [scheme_list [VBool false; VInt 1]] (VBool true)
           [scheme_list [VStr "else"; VInt 2]]
           initial_heap initial_heap initial_heap (VBool true));
    reflexivity.
Defined.

Lemma cond_bodiless_example :
  scheme_repl py_native recursion_limit ["(cond (#f 1) (#t) (else 2))"]
  = Ret [Ret (VBool true)].
Proof. vm_compute. reflexivity. Qed.

(** A clause without body whose test is false for Python leaves the loop
    running. *)
Lemma cond_clause_bodiless_skipped :
  forall (ev : evalT) n env i test h v h1,
    py_eq test (VStr "else") = false ->
    ev test env h = (Ret v, h1) ->
    py_truthy v = Ret false ->
    cond_clause ev n env i (Pair test NULL) h = (Ret None, h1).
Proof.
  intros ev n env i test h v h1 Hne Hev Hf.
  apply (cond_clause_skipped ev n env i test NULL h v h1);
    (reflexivity || assumption).
Qed.

(** C7, on the code: every value but [False] is true for Scheme
    ([scheme_true]), but [do_cond_form] tests [if test:], the truth value
    Python gives the value.  A clause without body whose test evaluates
    to a value that is true for Scheme and false for Python, as 0 and
    the empty list are, is passed over: alone in the form it leaves the
    loop without a result, and [scheme_eval] refuses the [None] that
    [do_cond_form] returns; followed by an [else] clause, the form has
    the value of that clause and not [True]. *)
Theorem cond_bodiless_clause_passed_over :
  forall native d env test h h1 v,
    py_eq test (VStr "else") = false ->
    scheme_eval native d test env h = (Ret v, h1) ->
    scheme_true v = true ->
    py_truthy v = Ret false ->
    scheme_eval native (S d) (cond_form [Pair test NULL]) env h
    = (Raise (SchemeError "Cannot evaluate an undefined expression." []), h1)
    /\ forall e,
        scheme_eval native (S d)
          (cond_form [Pair test NULL; scheme_list [VStr "else"; e]]) env h
        = (w <- scheme_eval native d e env ;; scheme_eval native d w env) h1.
Proof.
  intros native d env test h h1 v Hne Hev _ Hf.
  destruct d as [|d']; [discriminate Hev|].
  split.
  - unfold cond_form.
    rewrite scheme_eval_cond by reflexivity.
    unfold bind at 1. unfold do_cond_form, bind at 1, lift.
    cbn [scheme_list py_len pair_len_from].
    unfold for_in. cbn [py_iter pair_iter fst snd].
    cbn [for_loop]. unfold bind at 1.
    rewrite (cond_clause_bodiless_skipped _ _ _ _ _ _ _ _ Hne Hev Hf).
    reflexivity.
  - intros e. unfold cond_form.
    rewrite scheme_eval_cond by reflexivity.
    unfold bind at 1. unfold do_cond_form, bind at 1, lift.
    cbn [scheme_list py_len pair_len_from].
    unfold for_in. cbn [py_iter pair_iter fst snd].
    cbn [for_loop]. unfold bind at 1.
    rewrite (cond_clause_bodiless_skipped _ _ _ _ _ _ _ _ Hne Hev Hf).
    unfold ret at 1. unfold bind at 1.
    unfold cond_clause, bind, lift, ret.
    cbn -[scheme_eval].
    destruct (scheme_eval native (S d') e env h1) as [[w|err] h2];
      [|reflexivity].
    destruct (scheme_eval native (S d') w env h2) as [[w'|err] h3];
      reflexivity.
Qed.

(** [(cond (0))] and [(cond (0) (else 2))]. *)
Lemma cond_bodiless_clause_passed_over_witness :
  scheme_eval py_native 2 (cond_form [Pair (VInt 0) NULL]) global_env
    initial_heap
  = (Raise (SchemeError "Cannot evaluate an undefined expression." []),
     initial_heap)
  /\ scheme_eval py_native 2
       (cond_form [Pair (VInt 0) NULL; scheme_list [VStr "else"; VInt 2]])
       global_env initial_heap
     = (w <- scheme_eval py_native 1 (VInt 2) global_env ;;
        scheme_eval py_native 1 w global_env) initial_heap.
Proof.
  destruct (cond_bodiless_clause_passed_over py_native 1 global_env (VInt 0)
              initial_heap initial_heap (VInt 0) eq_refl eq_refl eq_refl
              eq_refl) as [H1 H2].
  split; [exact H1 | exact (H2 (VInt 2))].
Defined.

(** A single body expression is evaluated by the handler, and its value
    is evaluated again by [scheme_eval]. *)
Lemma cond_single_body_reevaluated :
  forall native d env test body h h1 h2 v w,
    py_eq test (VStr "else") = false ->
    scheme_eval native d test env h = (Ret v, h1) ->
    py_truthy v = Ret true ->
    scheme_eval native d body env h1 = (Ret w, h2) ->
    scheme_eval native (S d) (cond_form [scheme_list [test; body]]) env h
    = scheme_eval native d w env h2.
Proof.
  intros native d env test body h h1 h2 v w Hne Hev Ht Hb.
  unfold cond_form.
  rewrite scheme_eval_cond by reflexivity.
  unfold bind at 1. unfold do_cond_form, for_in, bind, lift, ret. simpl.
  unfold cond_clause, bind, lift, ret. simpl.
  rewrite Hne, Hev, Ht. simpl. rewrite Hb. reflexivity.
Qed.

(** ** The store only grows *)

Lemma frame_le_refl : forall f, frame_le f f.
Proof. intros f. split; auto. Qed.

Lemma heap_le_refl : forall h, heap_le h h.
Proof. intros h r f H. exists f. split; [assumption | apply frame_le_refl]. Qed.

Lemma heap_le_trans :
  forall h1 h2 h3, heap_le h1 h2 -> heap_le h2 h3 -> heap_le h1 h3.
Proof.
  intros h1 h2 h3 H12 H23 r f Hf.
  destruct (H12 r f Hf) as [f2 [Hf2 [Hp2 Hk2]]].
  destruct (H23 r f2 Hf2) as [f3 [Hf3 [Hp3 Hk3]]].
  exists f3. split; [assumption|]. split; [congruence | auto].
Qed.

Lemma heap_le_has_key :
  forall h h' r k, heap_le h h' -> has_key h r k = true -> has_key h' r k = true.
Proof.
  intros h h' r k Hle Hk. unfold has_key in *.
  destruct (nth_error h r) as [f|] eqn:Hf; [|discriminate Hk].
  destruct (Hle r f Hf) as [f' [Hf' [_ Hkeys]]]. rewrite Hf'. auto.
Qed.

Lemma dict_has_dict_set :
  forall d k v k', dict_has d k' = true -> dict_has (dict_set d k v) k' = true.
Proof.
  induction d as [|[k0 v0] d IH]; intros k v k' H; simpl in *.
  - discriminate H.
  - destruct (py_eq k0 k); simpl.
    + exact H.
    + apply orb_true_iff in H. apply orb_true_iff.
      destruct H as [H|H]; [left; assumption | right; apply IH; assumption].
Qed.

Lemma dict_has_dict_set_same :
  forall d k v, py_eq k k = true -> dict_has (dict_set d k v) k = true.
Proof.
  induction d as [|[k0 v0] d IH]; intros k v Hk; simpl.
  - rewrite Hk. reflexivity.
  - destruct (py_eq k0 k) eqn:E; simpl.
    + rewrite E. reflexivity.
    + rewrite E. simpl. apply IH. assumption.
Qed.

Lemma nth_error_set_nth_eq :
  forall A (l : list A) i x y,
    nth_error l i = Some y -> nth_error (set_nth l i x) i = Some x.
Proof.
  induction l as [|a l IH]; intros i x y H; destruct i; simpl in *;
    try discriminate H; [reflexivity | eapply IH; eassumption].
Qed.

Lemma nth_error_set_nth_neq :
  forall A (l : list A) i j x,
    i <> j -> nth_error (set_nth l i x) j = nth_error l j.
Proof.
  induction l as [|a l IH]; intros i j x H; destruct i, j; simpl;
    try reflexivity; [contradiction | apply IH; congruence].
Qed.

Lemma grows_ret : forall A (a : A), grows (ret a).
Proof. intros A a h. apply heap_le_refl. Qed.

Lemma grows_raise : forall A e, grows (@raise A e).
Proof. intros A e h. apply heap_le_refl. Qed.

Lemma grows_lift : forall A (o : outcome A), grows (lift o).
Proof. intros A o h. apply heap_le_refl. Qed.

Lemma grows_bind :
  forall A B (c : M A) (k : A -> M B),
    grows c -> (forall a, grows (k a)) -> grows (bind c k).
Proof.
  intros A B c k Hc Hk h. unfold bind.
  specialize (Hc h). destruct (c h) as [[a|e] h1]; simpl in *.
  - eapply heap_le_trans; [exact Hc | apply Hk].
  - exact Hc.
Qed.

Lemma grows_define : forall self sym val, grows (define self sym val).
Proof.
  intros self sym val h. unfold define.
  destruct (nth_error h self) as [fr|] eqn:Hfr; simpl; [|apply heap_le_refl].
  intros r f Hf. destruct (Nat.eq_dec self r) as [->|Hne].
  - rewrite Hfr in Hf. injection Hf as <-.
    eexists. split; [eapply nth_error_set_nth_eq; eassumption|].
    split; [reflexivity|]. simpl. intros k. apply dict_has_dict_set.
  - exists f. rewrite nth_error_set_nth_neq by assumption.
    split; [assumption | apply frame_le_refl].
Qed.

Lemma grows_new_frame : forall fr, grows (new_frame fr).
Proof.
  intros fr h r f Hf. simpl. exists f. split; [|apply frame_le_refl].
  rewrite nth_error_app1; [assumption|].
  apply nth_error_Some. congruence.
Qed.

Lemma grows_same_heap :
  forall A (c : M A), (forall h, snd (c h) = h) -> grows c.
Proof. intros A c H h. rewrite H. apply heap_le_refl. Qed.

Lemma grows_find : forall self sym, grows (find self sym).
Proof. intros. apply grows_same_heap. reflexivity. Qed.

Lemma grows_getitem : forall self sym, grows (getitem self sym).
Proof.
  intros self sym. unfold getitem. apply grows_bind; [apply grows_find|].
  intros fr. apply grows_same_heap. intros h.
  destruct (nth_error h fr); [|reflexivity].
  destruct (dict_get (inner f) (VStr sym)); reflexivity.
Qed.

Lemma grows_make_call_frame :
  forall self formals vals, grows (make_call_frame self formals vals).
Proof.
  intros. unfold make_call_frame.
  apply grows_bind; [apply grows_lift | intros; apply grows_new_frame].
Qed.

Lemma grows_except_TypeError :
  forall A (c : M A), grows c -> grows (except_TypeError c).
Proof.
  intros A c Hc h. unfold except_TypeError. specialize (Hc h).
  destruct (c h) as [[a|e] h1]; [exact Hc|].
  destruct e; exact Hc.
Qed.

Lemma grows_for_loop :
  forall A (body : nat -> value -> M (option A)) (orelse : M A) items e i,
    (forall i x, grows (body i x)) -> grows orelse ->
    grows (for_loop i items e body orelse).
Proof.
  intros A body orelse items e. induction items as [|x r IH]; intros i Hb Ho.
  - simpl. destruct e; [apply grows_raise | assumption].
  - simpl. apply grows_bind; [apply Hb|].
    intros [a|]; [apply grows_ret | apply IH; assumption].
Qed.

Lemma grows_for_range :
  forall (body : nat -> M unit) n lo,
    (forall i, grows (body i)) -> grows (for_range lo n body).
Proof.
  intros body n. induction n as [|n IH]; intros lo Hb; simpl.
  - apply grows_ret.
  - apply grows_bind; [apply Hb | intros; apply IH; assumption].
Qed.

Lemma grows_pair_map :
  forall (fn : value -> M value) self,
    (forall x, grows (fn x)) -> grows (pair_map fn self).
Proof.
  intros fn self Hfn. induction self; simpl;
    try apply grows_raise; try apply grows_ret.
  apply grows_bind; [apply Hfn|]. intros mapped.
  destruct self2; try apply grows_raise.
  - apply grows_bind; [assumption | intros; apply grows_ret].
  - apply grows_bind; [assumption | intros; apply grows_ret].
Qed.

(** One step of a proof that a computation built from the monad's
    operations grows the store. *)
Ltac grows_step :=
  match goal with
  | |- grows (bind _ _) => apply grows_bind; [|intros]
  | |- grows (ret _) => apply grows_ret
  | |- grows (raise _) => apply grows_raise
  | |- grows (lift _) => apply grows_lift
  | |- grows (define _ _ _) => apply grows_define
  | |- grows (getitem _ _) => apply grows_getitem
  | |- grows (make_call_frame _ _ _) => apply grows_make_call_frame
  | |- grows (except_TypeError _) => apply grows_except_TypeError
  | |- grows (for_in _ _ _) => unfold for_in
  | |- grows (for_loop _ _ _ _ _) => apply grows_for_loop; intros
  | |- grows (for_range _ _ _) => apply grows_for_range; intros
  | |- grows (pair_map _ _) => apply grows_pair_map; intros
  | |- grows (if ?b then _ else _) => destruct b
  | |- grows (let (_, _) := ?p in _) => destruct p
  | |- grows (match ?x with _ => _ end) => destruct x
  | H : forall e env, grows (?ev e env) |- grows (?ev _ _) => apply H
  | H : forall p a env, grows (?ap p a env) |- grows (?ap _ _ _) => apply H
  end.

Section Grows.

Variable native : string -> list value -> outcome value.
Variable ev : evalT.
Variable ap : applyT.
Hypothesis ev_grows : forall e env, grows (ev e env).
Hypothesis ap_grows : forall p a env, grows (ap p a env).

Lemma grows_let_bindings :
  forall env items e names vals, grows (let_bindings ev env items e names vals).
Proof.
  intros env items e. induction items as [|item r IH]; intros names vals; simpl.
  - destruct e; [apply grows_raise | apply grows_ret].
  - repeat grows_step; try apply IH.
Qed.

Lemma grows_do_define_form : forall vals env, grows (do_define_form ev vals env).
Proof. intros. unfold do_define_form. repeat grows_step. Qed.

Lemma grows_do_let_form : forall vals env, grows (do_let_form ev vals env).
Proof.
  intros. unfold do_let_form, eval_all_but_last.
  repeat (grows_step || apply grows_let_bindings).
Qed.

Lemma grows_do_let_star_form :
  forall vals env, grows (do_let_star_form ev vals env).
Proof.
  intros. unfold do_let_star_form, eval_all_but_last, let_star_binding.
  repeat grows_step.
Qed.

Lemma grows_logic_form :
  forall first handler rest env,
    logic_form ev first = Some handler -> grows (handler rest env).
Proof.
  intros first handler rest env H. unfold logic_form in H.
  destruct first; try discriminate H. simpl in H.
  repeat match type of H with
         | (if ?b then _ else _) = _ => destruct b
         end;
    try discriminate H; injection H as <-.
  - unfold do_and_form. repeat grows_step.
  - unfold do_or_form. repeat grows_step.
  - unfold do_if_form. repeat grows_step.
  - unfold do_cond_form, cond_clause. repeat grows_step.
  - unfold do_begin_form, begin_statement. repeat grows_step.
  - unfold do_case_form. repeat grows_step.
Qed.

Lemma grows_eval_combination :
  forall expr env,
    grows
      (if scheme_atomp expr then ret expr
       else if negb (scheme_listp expr) then
         raise (SchemeError "malformed list: {0}" [expr])
       else
         first <- lift (get_first expr) ;;
         rest <- lift (get_second expr) ;;
         match logic_form ev first with
         | Some handler => e <- handler rest env ;; ev e env
         | None =>
             if py_eq first (VStr "lambda") then
               lift (do_lambda_form rest env)
             else if py_eq first (VStr "define") then
               do_define_form ev rest env ;; ret PyNone
             else if py_eq first (VStr "quote") then
               lift (do_quote_form rest)
             else if py_eq first (VStr "let") then
               '(e, env') <- do_let_form ev rest env ;; ev e env'
             else if py_eq first (VStr "let*") then
               '(e, env') <- do_let_star_form ev rest env ;; ev e env'
             else
               procedure <- ev first env ;;
               args <- pair_map (fun operand => ev operand env) rest ;;
               ap procedure args env
         end).
Proof.
  intros expr env.
  destruct (scheme_atomp expr); [apply grows_ret|].
  destruct (negb (scheme_listp expr)); [apply grows_raise|].
  apply grows_bind; [apply grows_lift|]. intros first.
  apply grows_bind; [apply grows_lift|]. intros rest.
  destruct (logic_form ev first) as [handler|] eqn:Hl.
  - apply grows_bind; [eapply grows_logic_form; eassumption|].
    intros. apply ev_grows.
  - repeat (grows_step || apply grows_do_define_form
            || apply grows_do_let_form || apply grows_do_let_star_form).
Qed.

Lemma grows_eval_step :
  forall expr env, grows (eval_step ev ap expr env).
Proof.
  intros expr env. unfold eval_step.
  destruct expr; try apply grows_eval_combination.
  - apply grows_raise.
  - apply grows_getitem.
Qed.

Lemma grows_apply_step :
  forall procedure args env, grows (apply_step native ev ap procedure args env).
Proof.
  intros procedure args env. unfold apply_step.
  destruct procedure; try apply grows_raise.
  - repeat grows_step.
  - apply grows_bind; [apply grows_lift|]. intros arg_list.
    unfold apply_primitive, call_fn, scheme_load. repeat grows_step.
Qed.

End Grows.

Lemma scheme_eval_apply_grow :
  forall native d,
    (forall e env, grows (scheme_eval native d e env))
    /\ (forall p a env, grows (scheme_apply native d p a env)).
Proof.
  intros native d. induction d as [|d [IHe IHa]].
  - split; intros; apply grows_raise.
  - split; intros.
    + apply (grows_eval_step (scheme_eval native d) (scheme_apply native d)
               IHe IHa).
    + apply (grows_apply_step native (scheme_eval native d)
               (scheme_apply native d) IHe IHa).
Qed.

(** Evaluation never removes a frame or a binding. *)
Lemma scheme_eval_grows :
  forall native d e env, grows (scheme_eval native d e env).
Proof. intros native d. apply (scheme_eval_apply_grow native d). Qed.

(** ** [let*] *)

Lemma dict_has_dict_get :
  forall d k, dict_has d k = true -> exists v, dict_get d k = Some v.
Proof.
  induction d as [|[k0 v0] d IH]; intros k H; simpl in *.
  - discriminate H.
  - destruct (py_eq k0 k); [eexists; reflexivity|].
    simpl in H. apply IH. assumption.
Qed.

(** A symbol with a key in the frame itself is found there. *)
Lemma getitem_has_key :
  forall h self sym,
    has_key h self (VStr sym) = true ->
    exists v, getitem self sym h = (Ret v, h).
Proof.
  intros h self sym H. unfold has_key in H.
  destruct (nth_error h self) as [fr|] eqn:Hfr; [|discriminate H].
  destruct (dict_has_dict_get _ _ H) as [v Hv]. exists v.
  unfold getitem, bind, find.
  destruct h as [|f0 h0]; [destruct self; discriminate Hfr|].
  simpl List.length. cbn [find_in]. rewrite Hfr, H, Hfr, Hv. reflexivity.
Qed.

Lemma let_star_loop_grows :
  forall (ev : evalT) new_env i bs,
    (forall e env, grows (ev e env)) -> grows (let_star_loop ev new_env i bs).
Proof.
  intros ev new_env i bs Hev. unfold let_star_loop, let_star_binding.
  repeat grows_step.
Qed.

Lemma let_star_loop_cons :
  forall (ev : evalT) new_env i b bs h,
    let_star_loop ev new_env i (b :: bs) h
    = (let_star_binding ev new_env b ;; let_star_loop ev new_env (S i) bs) h.
Proof.
  intros. unfold let_star_loop. simpl. unfold bind, ret.
  destruct (let_star_binding ev new_env b h) as [[[]|e] h']; reflexivity.
Qed.

Lemma let_star_loop_app :
  forall (ev : evalT) new_env pre i rest h h1,
    let_star_loop ev new_env i pre h = (Ret tt, h1) ->
    let_star_loop ev new_env i (pre ++ rest) h
    = let_star_loop ev new_env (i + List.length pre) rest h1.
Proof.
  intros ev new_env pre. induction pre as [|b pre IH]; intros i rest h h1 H.
  - unfold let_star_loop in H. simpl in H. unfold ret in H.
    injection H as <-. simpl. rewrite Nat.add_0_r. reflexivity.
  - simpl app. rewrite let_star_loop_cons in *. unfold bind in *.
    destruct (let_star_binding ev new_env b h) as [[[]|e] h'];
      [|discriminate H].
    rewrite (IH (S i) rest h' h1 H). simpl. f_equal. lia.
Qed.

(** The step of the loop for a binding [(name e ...)]. *)
Lemma let_star_binding_pair :
  forall (ev : evalT) new_env name e tail h,
    let_star_binding ev new_env (Pair name (Pair e tail)) h
    = (v <- ev e new_env ;; define new_env name v) h.
Proof. intros. reflexivity. Qed.

(** After the loop every name it went through has a key in the new
    frame. *)
Lemma let_star_loop_names_bound :
  forall (ev : evalT) new_env,
    (forall e env, grows (ev e env)) ->
    forall pre i h h1,
      let_star_loop ev new_env i pre h = (Ret tt, h1) ->
      forall b x, In b pre -> py_getitem b 0 = Ret (VStr x) ->
        has_key h1 new_env (VStr x) = true.
Proof.
  intros ev new_env Hev pre. induction pre as [|c pre IH];
    intros i h h1 H b x Hin Hname.
  - contradiction.
  - rewrite let_star_loop_cons in H. unfold bind in H.
    destruct (let_star_binding ev new_env c h) as [[[]|err] h'] eqn:Hc;
      [|discriminate H].
    destruct Hin as [<-|Hin]; [|eapply IH; eassumption].
    eapply heap_le_has_key.
    + pose proof (let_star_loop_grows ev new_env (S i) pre Hev h') as G.
      rewrite H in G. exact G.
    + unfold let_star_binding, bind, lift in Hc. rewrite Hname in Hc.
      destruct (py_getitem c 1) as [e|err]; [|discriminate Hc].
      destruct (ev e new_env h) as [[v|err] h2]; [|discriminate Hc].
      unfold define in Hc.
      destruct (nth_error h2 new_env) as [fr|] eqn:Hfr; [|discriminate Hc].
      injection Hc as <-. unfold has_key.
      rewrite (nth_error_set_nth_eq _ _ _ _ _ Hfr). simpl.
      apply dict_has_dict_set_same. unfold py_eq. simpl.
      apply String.eqb_refl.
Qed.

Lemma do_let_star_form_unfold :
  forall (ev : evalT) bs body env h,
    body <> [] ->
    do_let_star_form ev (let_star_vals bs body) env h
    = (let_star_loop ev (List.length h) 0 bs ;;
       let_star_finish ev (scheme_list body) env)
        (h ++ [mkFrame [] (Some env)]).
Proof.
  intros ev bs body env h Hb.
  unfold do_let_star_form, let_star_vals.
  unfold bind at 1. unfold lift at 1. unfold check_form.
  rewrite scheme_listp_scheme_list, py_len_scheme_list.
  destruct body as [|e0 body]; [contradiction|].
  simpl. unfold bind at 1. simpl.
  rewrite scheme_listp_scheme_list. simpl.
  unfold bind at 1. unfold make_call_frame, bind at 1. simpl.
  unfold for_in. rewrite py_iter_scheme_list. reflexivity.
Qed.

(** C9: in [do_let_star_form], once the bindings [pre] have been gone
    through, the value expression [e] of the next binding [(name e)] is
    evaluated in the new frame [new_env], a child of [env], with the store
    the earlier bindings left; in that store every earlier name is bound
    in [new_env]. *)
Theorem let_star_sequential_scoping :
  forall native d env pre name e tail post body h h1,
    body <> [] ->
    let new_env := List.length h in
    let ev := scheme_eval native d in
    let_star_loop ev new_env 0 pre (h ++ [mkFrame [] (Some env)])
    = (Ret tt, h1) ->
    do_let_star_form ev
      (let_star_vals (pre ++ Pair name (Pair e tail) :: post) body) env h
    = (v <- ev e new_env ;;
       define new_env name v ;;
       let_star_loop ev new_env (S (List.length pre)) post ;;
       let_star_finish ev (scheme_list body) env) h1
    /\ (exists fr, nth_error h1 new_env = Some fr /\ parent fr = Some env)
    /\ forall b x, In b pre -> py_getitem b 0 = Ret (VStr x) ->
         exists w, getitem new_env x h1 = (Ret w, h1).
Proof.
  intros native d env pre name e tail post body h h1 Hb new_env ev Hpre.
  assert (Hev : forall e env, grows (ev e env))
    by (intros; apply scheme_eval_grows).
  split; [|split].
  - rewrite do_let_star_form_unfold by assumption.
    unfold bind at 1.
    rewrite (let_star_loop_app ev new_env pre 0 _ _ h1 Hpre).
    rewrite let_star_loop_cons.
    unfold bind. rewrite let_star_binding_pair. unfold bind. simpl.
    destruct (ev e new_env h1) as [[v|err] h2]; [|reflexivity].
    destruct (define new_env name v h2) as [[[]|err] h3]; reflexivity.
  - pose proof (let_star_loop_grows ev new_env 0 pre Hev
                  (h ++ [mkFrame [] (Some env)])) as G.
    rewrite Hpre in G. simpl in G.
    destruct (G new_env (mkFrame [] (Some env))) as [f' [Hf' [Hp _]]].
    + unfold new_env. rewrite nth_error_app2 by lia.
      rewrite Nat.sub_diag. reflexivity.
    + exists f'. split; [assumption | symmetry; exact Hp].
  - intros b x Hin Hname. apply getitem_has_key.
    eapply let_star_loop_names_bound; eassumption.
Qed.

(** [(let* ((x 1) (y (+ x 1))) y)] in the global frame. *)
Lemma let_star_sequential_scoping_witness :
  let_star_loop (scheme_eval py_native 3) (List.length initial_heap) 0
    [scheme_list [VStr "x"; VInt 1]]
    (initial_heap ++ [mkFrame [] (Some global_env)])
  = (Ret tt,
     initial_heap ++ [mkFrame [(VStr "x", VInt 1)] (Some global_env)])
  /\ exists w,
       getitem (List.length initial_heap) "x"
         (initial_heap ++ [mkFrame [(VStr "x", VInt 1)] (Some global_env)])
       = (Ret w,
          initial_heap ++ [mkFrame [(VStr "x", VInt 1)] (Some global_env)]).
Proof.
  split; [vm_compute; reflexivity|].
  destruct (let_star_sequential_scoping py_native 3 global_env
              [scheme_list [VStr "x"; VInt 1]] (VStr "y")
              (scheme_list [VStr "+"; VStr "x"; VInt 1]) NULL []
              [VStr "y"] initial_heap
              (initial_heap
               ++ [mkFrame [(VStr "x", VInt 1)] (Some global_env)]))
    as [_ [_ H]].
  - discriminate.
  - vm_compute. reflexivity.
  - apply (H (scheme_list [VStr "x"; VInt 1]) "x");
      [left; reflexivity | reflexivity].
Defined.

(** The example of the claim: [x] is unbound in the outer frame, the
    value expression [(+ x 1)] of [y] sees [x = 1], and [y] is bound
    to 2. *)
Lemma let_star_example :
  bound_in initial_heap global_env "x" = None
  /\ do_let_star_form (scheme_eval py_native 3)
       (let_star_vals [scheme_list [VStr "x"; VInt 1];
                       scheme_list [VStr "y";
                                    scheme_list [VStr "+"; VStr "x"; VInt 1]]]
          [VStr "y"])
       global_env initial_heap
     = (Ret (VStr "y", global_env),
        initial_heap
        ++ [mkFrame [(VStr "x", VInt 1); (VStr "y", VInt 2)]
              (Some global_env)]).
Proof. split; vm_compute; reflexivity. Qed.

(** [let], for comparison: the value expressions are evaluated in the
    outer frame, where [x] is unbound. *)
Lemma let_example :
  scheme_repl py_native recursion_limit ["(let ((x 1) (y (+ x 1))) y)"]
  = Ret [Raise (SchemeError "unknown identifier: {0}" [VStr "x"])].
Proof. vm_compute. reflexivity. Qed.

(** ** Tail calls and the recursion depth *)

Lemma loop_define_heap :
  forall native d,
    read_line recursion_limit loop_source
    = Ret (scheme_list [VStr "define"; scheme_list [VStr "loop"; VStr "n"];
                        loop_body])
    /\ scheme_eval native (1 + d)
         (scheme_list [VStr "define"; scheme_list [VStr "loop"; VStr "n"];
                       loop_body])
         global_env initial_heap
       = (Ret PyNone, loop_heap).
Proof. intros. split; vm_compute; reflexivity. Qed.

Lemma find_in_app :
  forall n h t self sym r,
    find_in n h self sym = Ret r -> find_in n (h ++ t) self sym = Ret r.
Proof.
  induction n as [|n IH]; intros h t self sym r H; simpl in *.
  - discriminate H.
  - destruct (nth_error h self) as [fr|] eqn:Hfr; [|discriminate H].
    rewrite nth_error_app1 by (apply nth_error_Some; congruence).
    rewrite Hfr.
    destruct (dict_has (inner fr) (VStr sym)); [assumption|].
    destruct (parent fr); [apply IH; assumption | discriminate H].
Qed.

Lemma find_in_more :
  forall n h self sym r,
    find_in n h self sym = Ret r -> find_in (S n) h self sym = Ret r.
Proof.
  induction n as [|n IH]; intros h self sym r H.
  - discriminate H.
  - simpl in H. cbn [find_in].
    destruct (nth_error h self) as [fr|]; [|discriminate H].
    destruct (dict_has (inner fr) (VStr sym)); [assumption|].
    destruct (parent fr); [|discriminate H].
    apply IH in H. exact H.
Qed.

Lemma find_in_valid :
  forall n h self sym r,
    find_in n h self sym = Ret r -> r < List.length h.
Proof.
  induction n as [|n IH]; intros h self sym r H; simpl in H.
  - discriminate H.
  - destruct (nth_error h self) as [fr|] eqn:Hfr; [|discriminate H].
    destruct (dict_has (inner fr) (VStr sym)).
    + injection H as <-. apply nth_error_Some. congruence.
    + destruct (parent fr); [eapply IH; eassumption | discriminate H].
Qed.

(** A symbol that the new frame does not define is looked up in its
    parent. *)
Lemma getitem_push_other :
  forall h env sym v d0,
    getitem env sym h = (Ret v, h) ->
    dict_has d0 (VStr sym) = false ->
    getitem (List.length h) sym (h ++ [mkFrame d0 (Some env)])
    = (Ret v, h ++ [mkFrame d0 (Some env)]).
Proof.
  intros h env sym v d0 H Hd.
  unfold getitem, bind, find in *.
  destruct (find_in (List.length h) h env sym) as [r|e] eqn:Hf;
    [|discriminate H].
  rewrite length_app. simpl List.length. rewrite Nat.add_1_r.
  cbn [find_in]. rewrite nth_error_app2 by lia. rewrite Nat.sub_diag.
  simpl. rewrite Hd.
  rewrite (find_in_app _ _ _ _ _ _ Hf).
  pose proof (find_in_valid _ _ _ _ _ Hf) as Hr.
  rewrite nth_error_app1 by assumption.
  destruct (nth_error h r) as [f|]; [|discriminate H].
  destruct (dict_get (inner f) (VStr sym)); [|discriminate H].
  injection H as <-. reflexivity.
Qed.

Lemma getitem_push_same :
  forall h p sym v,
    getitem (List.length h) sym (h ++ [mkFrame [(VStr sym, v)] p])
    = (Ret v, h ++ [mkFrame [(VStr sym, v)] p]).
Proof.
  intros h p sym v. unfold getitem, bind, find.
  rewrite length_app. simpl List.length. rewrite Nat.add_1_r.
  cbn [find_in]. rewrite nth_error_app2 by lia. rewrite Nat.sub_diag.
  simpl. unfold py_eq. simpl. rewrite String.eqb_refl. simpl.
  rewrite nth_error_app2 by lia. rewrite Nat.sub_diag. simpl.
  unfold py_eq. simpl. rewrite String.eqb_refl. reflexivity.
Qed.

Lemma loop_frame_push :
  forall h env k,
    loop_names h env ->
    loop_frame (h ++ [mkFrame [(VStr "n", VInt k)] (Some env)])
      (List.length h) k.
Proof.
  intros h env k [Hl [He Hs]].
  repeat split.
  - apply getitem_push_other; [assumption | reflexivity].
  - apply getitem_push_other; [assumption | reflexivity].
  - apply getitem_push_other; [assumption | reflexivity].
  - apply getitem_push_same.
Qed.

Lemma loop_names_global : loop_names loop_heap global_env.
Proof. repeat split; vm_compute; reflexivity. Qed.

Section Loop.

Variable native : string -> list value -> outcome value.
Hypothesis native_sub :
  forall a, native "scheme_sub" [VInt a; VInt 1] = Ret (VInt (a - 1)).
Hypothesis native_eq :
  forall a, native "scheme_eq" [VInt a; VInt 0] = Ret (VBool (a =? 0)%Z).

Lemma loop_test_value :
  forall d env h k,
    loop_frame h env k ->
    scheme_eval native (2 + d) (scheme_list [VStr "="; VStr "n"; VInt 0]) env h
    = (Ret (VBool (k =? 0)%Z), h).
Proof.
  intros d env h k [[Hl [He Hs]] Hn].
  cbn -[getitem]. unfold bind, lift, ret. cbn -[getitem].
  rewrite He. cbn -[getitem]. rewrite Hn. cbn -[getitem].
  unfold apply_primitive, except_TypeError, call_fn, lift.
  rewrite native_eq. reflexivity.
Qed.

Lemma loop_decrement_value :
  forall d env h k,
    loop_frame h env k ->
    scheme_eval native (2 + d) (scheme_list [VStr "-"; VStr "n"; VInt 1]) env h
    = (Ret (VInt (k - 1)), h).
Proof.
  intros d env h k [[Hl [He Hs]] Hn].
  cbn -[getitem]. unfold bind, lift, ret. cbn -[getitem].
  rewrite Hs. cbn -[getitem]. rewrite Hn. cbn -[getitem].
  unfold apply_primitive, except_TypeError, call_fn, lift.
  rewrite native_sub. reflexivity.
Qed.

(** With fewer than two activations left, a call of a primitive cannot
    even look its operator up. *)
Lemma loop_test_shallow :
  forall d env h,
    d < 2 ->
    fst (scheme_eval native d (scheme_list [VStr "="; VStr "n"; VInt 0]) env h)
    = Raise RecursionError.
Proof.
  intros d env h Hd.
  destruct d as [|[|d]]; [reflexivity | reflexivity | lia].
Qed.

Lemma loop_decrement_shallow :
  forall d env h,
    d < 2 ->
    fst (scheme_eval native d (scheme_list [VStr "-"; VStr "n"; VInt 1]) env h)
    = Raise RecursionError.
Proof.
  intros d env h Hd.
  destruct d as [|[|d]]; [reflexivity | reflexivity | lia].
Qed.

(** The body of [loop] with [d] activations left, [n] being bound to the
    natural number [k]: three activations are used per iteration. *)
Lemma loop_body_depth :
  forall k d env h,
    loop_frame h env (Z.of_nat k) ->
    fst (scheme_eval native d loop_body env h)
    = if Nat.ltb d (3 * k + 3) then Raise RecursionError else Ret (VInt 0).
Proof.
  induction k as [|k IH]; intros d env h Hf.
  - destruct d as [|[|[|d]]]; try reflexivity.
    unfold loop_body, if_form. rewrite scheme_eval_if by reflexivity.
    unfold bind.
    rewrite (do_if_form_truthiness _ _ _ _ _ _ _ _ true
               (loop_test_value d env h _ Hf) eq_refl).
    reflexivity.
  - destruct d as [|[|[|d]]];
      try (destruct (Nat.ltb_spec 0 (3 * S k + 3)); [reflexivity | lia]);
      try (destruct (Nat.ltb_spec 1 (3 * S k + 3)); [reflexivity | lia]);
      try (destruct (Nat.ltb_spec 2 (3 * S k + 3)); [reflexivity | lia]).
    unfold loop_body, if_form. rewrite scheme_eval_if by reflexivity.
    unfold bind.
    assert (Hz : (Z.of_nat (S k) =? 0)%Z = false) by (apply Z.eqb_neq; lia).
    pose proof (loop_test_value d env h _ Hf) as Ht. rewrite Hz in Ht.
    rewrite (do_if_form_truthiness _ _ _ _ _ _ _ _ false Ht eq_refl).
    pose proof Hf as [[Hl [He Hs]] Hn].
    destruct d as [|d].
    + (* the operand of the recursive call cannot be evaluated *)
      destruct (Nat.ltb_spec 3 (3 * S k + 3)) as [_|?]; [|lia].
      cbn -[getitem]. unfold bind, lift, ret. rewrite Hl. reflexivity.
    + pose proof (loop_decrement_value d env h _ Hf) as Hd.
      replace (Nat.ltb (S (S (S (S d)))) (3 * S k + 3))
        with (Nat.ltb (S d) (3 * k + 3))
        by (destruct (Nat.ltb_spec (S d) (3 * k + 3));
            destruct (Nat.ltb_spec (S (S (S (S d)))) (3 * S k + 3));
            try reflexivity; lia).
      rewrite <- (IH (S d) (List.length h) _
                    (loop_frame_push h env (Z.of_nat k) (proj1 Hf))).
      change (scheme_eval native (S (S (S d))) loop_recur env h)
        with (eval_step (scheme_eval native (S (S d)))
                (scheme_apply native (S (S d))) loop_recur env h).
      unfold loop_recur, eval_step. cbn -[getitem scheme_eval scheme_apply].
      unfold bind, lift, ret. cbn -[getitem scheme_eval scheme_apply].
      change (scheme_eval native (S (S d)) (VStr "loop") env h)
        with (getitem env "loop" h).
      rewrite Hl.
      change (2 + d) with (S (S d)) in Hd. unfold scheme_list in Hd.
      rewrite Hd.
      rewrite (scheme_apply_frame_parent native (S d) loop_formals loop_body
                 global_env _ env h [(VStr "n", VInt (Z.of_nat (S k) - 1))])
        by reflexivity.
      replace (Z.of_nat (S k) - 1)%Z with (Z.of_nat k) by lia.
      reflexivity.
Qed.

(** The call [(loop n)] with [d] nested activations of [scheme_eval] and
    [scheme_apply] left.  The count leaves out the other Python frames of
    an evaluation (the handlers, and [Frame.find], which calls itself
    once per ancestor of the frame of the lookup), so [d] is a lower
    bound of the Python stack that is needed, not the stack itself. *)
Lemma loop_call_depth :
  forall (n d : nat),
    fst (scheme_eval native d (loop_call (Z.of_nat n)) global_env loop_heap)
    = if Nat.ltb d (3 * n + 5) then Raise RecursionError else Ret (VInt 0).
Proof.
  intros n d.
  destruct d as [|[|d]];
    try (destruct (Nat.ltb_spec 0 (3 * n + 5)); [reflexivity | lia]);
    try (destruct (Nat.ltb_spec 1 (3 * n + 5)); [reflexivity | lia]).
  replace (Nat.ltb (S (S d)) (3 * n + 5)) with (Nat.ltb d (3 * n + 3))
    by (destruct (Nat.ltb_spec d (3 * n + 3));
        destruct (Nat.ltb_spec (S (S d)) (3 * n + 5));
        try reflexivity; lia).
  rewrite <- (loop_body_depth n d (List.length loop_heap) _
                (loop_frame_push loop_heap global_env (Z.of_nat n)
                   loop_names_global)).
  destruct loop_names_global as [Hl _].
  change (scheme_eval native (S (S d)) (loop_call (Z.of_nat n)) global_env
            loop_heap)
    with (eval_step (scheme_eval native (S d)) (scheme_apply native (S d))
            (loop_call (Z.of_nat n)) global_env loop_heap).
  unfold loop_call, eval_step.
  cbn -[getitem scheme_eval scheme_apply loop_heap].
  unfold bind, lift, ret. cbn -[getitem scheme_eval scheme_apply loop_heap].
  change (scheme_eval native (S d) (VStr "loop") global_env loop_heap)
    with (getitem global_env "loop" loop_heap).
  rewrite Hl.
  change (scheme_eval native (S d) (VInt (Z.of_nat n)) global_env loop_heap)
    with (Ret (VInt (Z.of_nat n)), loop_heap).
  cbv iota.
  rewrite (scheme_apply_frame_parent native d loop_formals loop_body
             global_env _ global_env loop_heap
             [(VStr "n", VInt (Z.of_nat n))])
    by reflexivity.
  reflexivity.
Qed.

(** C2, amended: [scheme_eval] has no loop; it calls itself for the
    expression a handler hands back, and [scheme_apply] calls it for the
    body of a closure.  For the self-recursive counting loop, whose
    recursive call is in tail position, every iteration nests three more
    activations of [scheme_eval] and [scheme_apply], so the depth that is
    needed grows with the number of iterations: [(loop n)] ends in
    [RecursionError] whenever fewer than [3 n + 5] nested activations of
    the two functions are available, and it evaluates to 0 once the
    depth is large enough.  Python needs more frames than these
    activations, so the first part holds all the more of its recursion
    limit.  The two primitives are any functions that subtract 1 and
    compare with 0 as [scheme_sub] and [scheme_eq] do on ints. *)
Theorem tail_call_consumes_depth :
  forall n : nat,
    (forall d,
        d < 3 * n + 5 ->
        fst (scheme_eval native d (loop_call (Z.of_nat n)) global_env
               loop_heap)
        = Raise RecursionError)
    /\ exists d0,
        forall d,
          d0 <= d ->
          fst (scheme_eval native d (loop_call (Z.of_nat n)) global_env
                 loop_heap)
          = Ret (VInt 0).
Proof.
  intros n. split.
  - intros d Hd. rewrite loop_call_depth.
    destruct (Nat.ltb_spec d (3 * n + 5)); [reflexivity | lia].
  - exists (3 * n + 5). intros d Hd. rewrite loop_call_depth.
    destruct (Nat.ltb_spec d (3 * n + 5)); [lia | reflexivity].
Qed.

End Loop.

(** C2 as stated fails: with Python's recursion limit the loop completes
    for 100 iterations and ends in a stack-depth failure for 1000. *)
Lemma tail_loop_exceeds_recursion_limit :
  scheme_repl py_native recursion_limit
    [loop_source; "(loop 100)"; "(loop 1000)"]
  = Ret [Ret PyNone; Ret (VInt 0); Raise RecursionError].
Proof. vm_compute. reflexivity. Qed.

Lemma tail_call_consumes_depth_witness :
  ((forall a, py_native "scheme_sub" [VInt a; VInt 1] = Ret (VInt (a - 1)))
   /\ (forall a, py_native "scheme_eq" [VInt a; VInt 0]
                 = Ret (VBool (a =? 0)%Z)))
  /\ fst (scheme_eval py_native 10 (loop_call 2) global_env loop_heap)
     = Raise RecursionError
  /\ exists d0,
       forall d,
         d0 <= d ->
         fst (scheme_eval py_native d (loop_call 2) global_env loop_heap)
         = Ret (VInt 0).
Proof.
  split; [split; intros a; reflexivity|].
  destruct (tail_call_consumes_depth py_native
              (fun a => eq_refl) (fun a => eq_refl) 2) as [H1 H2].
  split; [apply (H1 10); simpl; lia | exact H2].
Defined.

(** ** More on call frames and [begin] *)

Lemma dict_set_fresh :
  forall d k v, dict_has d k = false -> dict_set d k v = d ++ [(k, v)].
Proof.
  induction d as [|[k0 v0] d IH]; intros k v H; simpl in *.
  - reflexivity.
  - apply orb_false_iff in H. destruct H as [H1 H2]. rewrite H1.
    rewrite IH by assumption. reflexivity.
Qed.

Lemma dict_has_app :
  forall d d' k, dict_has (d ++ d') k = dict_has d k || dict_has d' k.
Proof. intros. unfold dict_has. apply existsb_app. Qed.

Lemma zip_bind_fresh :
  forall names vals d,
    NoDup names ->
    (forall n, In n names -> dict_has d (VStr n) = false) ->
    List.length names = List.length vals ->
    zip_bind d (map VStr names) None vals None
    = Ret (d ++ combine (map VStr names) vals).
Proof.
  induction names as [|n names IH]; intros vals d Hnd Hfresh Hlen.
  - destruct vals; [|discriminate Hlen]. simpl. rewrite app_nil_r. reflexivity.
  - destruct vals as [|v vals]; [discriminate Hlen|]. simpl.
    rewrite dict_set_fresh by (apply Hfresh; left; reflexivity).
    inversion Hnd as [|? ? Hn Hnd']; subst.
    rewrite IH.
    + rewrite <- app_assoc. reflexivity.
    + assumption.
    + intros m Hm. rewrite dict_has_app, Hfresh by (right; assumption).
      simpl. unfold py_eq. simpl. rewrite orb_false_r.
      apply String.eqb_neq. intros ->. contradiction.
    + simpl in Hlen. lia.
Qed.

Lemma not_iterable_none : forall l, not_iterable (l, None) = false.
Proof. destruct l; reflexivity. Qed.

(** The part of C4 that holds: with as many values as formals, all of
    them distinct symbols, the frame binds each formal to the value at
    its position. *)
Lemma make_call_frame_matching_lengths :
  forall names vals,
    NoDup names ->
    List.length names = List.length vals ->
    call_frame_inner (Scheme (scheme_list (map VStr names)))
      (Scheme (scheme_list vals))
    = Ret (combine (map VStr names) vals).
Proof.
  intros names vals Hnd Hlen. unfold call_frame_inner, seq_len, seq_iter.
  rewrite py_len_scheme_list, !py_iter_scheme_list.
  rewrite !not_iterable_none. apply zip_bind_fresh; auto.
Qed.

(** A shorter list of values leaves the last formals unbound, without
    error. *)
Lemma zip_bind_truncates :
  forall keys vals d extra,
    List.length keys = List.length vals ->
    zip_bind d (keys ++ extra) None vals None = zip_bind d keys None vals None.
Proof.
  induction keys as [|k keys IH]; intros vals d extra Hlen.
  - destruct vals; [|discriminate Hlen]. destruct extra; reflexivity.
  - destruct vals as [|v vals]; [discriminate Hlen|]. simpl.
    apply IH. simpl in Hlen. lia.
Qed.

Lemma pair_getitem_scheme_list :
  forall l x k,
    pair_getitem x (scheme_list l) k
    = match nth_error (x :: l) k with
      | Some v => Ret v
      | None => Raise (SchemeError "list index out of bounds" [])
      end.
Proof.
  induction l as [|y l IH]; intros x k; destruct k as [|k]; simpl;
    try reflexivity.
  - destruct k; reflexivity.
  - apply IH.
Qed.

Lemma py_getitem_scheme_list :
  forall l k v,
    nth_error l k = Some v -> py_getitem (scheme_list l) k = Ret v.
Proof.
  intros l k v H. destruct l as [|x l].
  - destruct k; discriminate H.
  - simpl. rewrite pair_getitem_scheme_list. rewrite H. reflexivity.
Qed.

Lemma begin_statement_evaluates :
  forall (ev : evalT) vals env idx e n h,
    py_len vals = Ret n ->
    S idx <> n - 1 ->
    begin_statement ev vals env idx e h = (ev e env ;; ret None) h.
Proof.
  intros ev vals env idx e n h Hlen Hne.
  unfold begin_statement. unfold bind at 1, lift at 1. rewrite Hlen.
  apply Nat.eqb_neq in Hne. rewrite Hne. reflexivity.
Qed.

Lemma begin_statement_returns :
  forall (ev : evalT) vals env idx e n last h,
    py_len vals = Ret n ->
    S idx = n - 1 ->
    py_getitem vals (S idx) = Ret last ->
    begin_statement ev vals env idx e h = (Ret (Some last), h).
Proof.
  intros ev vals env idx e n last h Hlen He Hget.
  unfold begin_statement. unfold bind at 1, lift at 1. rewrite Hlen.
  apply Nat.eqb_eq in He. rewrite He.
  unfold bind, lift, ret. rewrite Hget. reflexivity.
Qed.

(** The loop of [do_begin_form] on the statements from position [idx]
    on: those before the last but one are evaluated, the last but one is
    not, and the last is handed back. *)
Lemma begin_loop_general :
  forall (ev : evalT) env vals skipped last rest idx h,
    py_len vals = Ret (idx + List.length rest + 2) ->
    py_getitem vals (idx + List.length rest + 1) = Ret last ->
    for_loop idx (rest ++ [skipped; last]) None (begin_statement ev vals env)
      (ret PyNone) h
    = (eval_each ev rest env ;; ret last) h.
Proof.
  intros ev env vals skipped last rest.
  induction rest as [|e rest IH]; intros idx h Hlen Hget.
  - simpl List.length in *. rewrite Nat.add_0_r in *.
    simpl. unfold bind at 1.
    rewrite (begin_statement_returns ev vals env idx skipped _ last h Hlen).
    + reflexivity.
    + lia.
    + rewrite <- Hget. f_equal. lia.
  - simpl List.length in *.
    simpl app. cbn [for_loop eval_each]. unfold bind at 1.
    rewrite (begin_statement_evaluates ev vals env idx e _ h Hlen) by lia.
    unfold bind.
    destruct (ev e env h) as [[v|err] h']; [|reflexivity].
    unfold ret at 1.
    rewrite IH.
    + reflexivity.
    + rewrite Hlen. f_equal. lia.
    + rewrite <- Hget. f_equal. lia.
Qed.

(** [do_begin_form] on [n >= 2] sub-expressions: it evaluates the first
    [n - 2], skips the one before the last and hands back the last. *)
Lemma do_begin_form_general :
  forall (ev : evalT) env pre skipped last h,
    do_begin_form ev (scheme_list (pre ++ [skipped; last])) env h
    = (eval_each ev pre env ;; ret last) h.
Proof.
  intros ev env pre skipped last h.
  unfold do_begin_form. unfold bind at 1, lift at 1, check_form.
  rewrite scheme_listp_scheme_list, py_len_scheme_list.
  rewrite length_app. simpl List.length. simpl negb. cbn [obind].
  replace (Nat.ltb (List.length pre + 2) 1) with false
    by (symmetry; apply Nat.ltb_ge; lia).
  cbv iota. unfold bind at 1, lift at 1.
  unfold for_in. rewrite py_iter_scheme_list. simpl fst. simpl snd.
  apply begin_loop_general.
  - rewrite py_len_scheme_list, length_app. reflexivity.
  - apply py_getitem_scheme_list.
    rewrite nth_error_app2 by lia.
    replace (0 + List.length pre + 1 - List.length pre) with 1 by lia.
    reflexivity.
Qed.

(** ** A deeper stack changes nothing but [RecursionError] *)

Lemma refines_refl : forall A (c : M A), refines c c.
Proof. intros A c h r h' H _. exact H. Qed.

Lemma refines_bind :
  forall A B (c c' : M A) (k k' : A -> M B),
    refines c c' -> (forall a, refines (k a) (k' a)) ->
    refines (bind c k) (bind c' k').
Proof.
  intros A B c c' k k' Hc Hk h r h' H Hr. unfold bind in *.
  destruct (c h) as [[a|e] h1] eqn:Hch.
  - rewrite (Hc h (Ret a) h1 Hch) by discriminate.
    apply Hk; assumption.
  - injection H as <- <-.
    rewrite (Hc h (Raise e) h1 Hch)
      by (intros E; apply Hr; injection E as ->; reflexivity).
    reflexivity.
Qed.

Lemma refines_except_TypeError :
  forall A (c c' : M A),
    refines c c' -> refines (except_TypeError c) (except_TypeError c').
Proof.
  intros A c c' Hc h r h' H Hr. unfold except_TypeError in *.
  destruct (c h) as [[a|e] h1] eqn:Hch.
  - rewrite (Hc h (Ret a) h1 Hch) by discriminate. exact H.
  - assert (He : e <> RecursionError).
    { intros ->. injection H as <- <-. apply Hr. reflexivity. }
    rewrite (Hc h (Raise e) h1 Hch) by congruence. exact H.
Qed.

Lemma refines_for_loop :
  forall A (body body' : nat -> value -> M (option A)) (orelse : M A)
         items e i,
    (forall i x, refines (body i x) (body' i x)) ->
    refines (for_loop i items e body orelse) (for_loop i items e body' orelse).
Proof.
  intros A body body' orelse items e.
  induction items as [|x r IH]; intros i Hb.
  - apply refines_refl.
  - simpl. apply refines_bind; [apply Hb|].
    intros [a|]; [apply refines_refl | apply IH; assumption].
Qed.

Lemma refines_for_range :
  forall (body body' : nat -> M unit) n lo,
    (forall i, refines (body i) (body' i)) ->
    refines (for_range lo n body) (for_range lo n body').
Proof.
  intros body body' n. induction n as [|n IH]; intros lo Hb; simpl.
  - apply refines_refl.
  - apply refines_bind; [apply Hb | intros; apply IH; assumption].
Qed.

Lemma refines_pair_map :
  forall (fn fn' : value -> M value) self,
    (forall x, refines (fn x) (fn' x)) ->
    refines (pair_map fn self) (pair_map fn' self).
Proof.
  intros fn fn' self Hfn. induction self; simpl; try apply refines_refl.
  apply refines_bind; [apply Hfn|]. intros mapped.
  destruct self2; try apply refines_refl.
  apply refines_bind; [assumption | intros; apply refines_refl].
Qed.

Ltac refines_step :=
  match goal with
  | |- refines ?c ?c => apply refines_refl
  | |- refines (bind _ _) (bind _ _) => apply refines_bind; [|intros]
  | |- refines (except_TypeError _) (except_TypeError _) =>
      apply refines_except_TypeError
  | |- refines (for_in _ _ _) (for_in _ _ _) => unfold for_in
  | |- refines (for_loop _ _ _ _ _) (for_loop _ _ _ _ _) =>
      apply refines_for_loop; intros
  | |- refines (for_range _ _ _) (for_range _ _ _) =>
      apply refines_for_range; intros
  | |- refines (pair_map _ _) (pair_map _ _) =>
      apply refines_pair_map; intros
  | |- refines (if ?b then _ else _) (if ?b then _ else _) => destruct b
  | |- refines (let (_, _) := ?p in _) (let (_, _) := ?p in _) => destruct p
  | |- refines (match ?x with _ => _ end) (match ?x with _ => _ end) =>
      destruct x
  | H : forall e env, refines (?ev e env) (?ev' e env)
    |- refines (?ev _ _) (?ev' _ _) => apply H
  | H : forall p a env, refines (?ap p a env) (?ap' p a env)
    |- refines (?ap _ _ _) (?ap' _ _ _) => apply H
  end.

Section Refines.

Variable native : string -> list value -> outcome value.
Variables ev ev' : evalT.
Variables ap ap' : applyT.
Hypothesis ev_refines : forall e env, refines (ev e env) (ev' e env).
Hypothesis ap_refines : forall p a env, refines (ap p a env) (ap' p a env).

Lemma refines_let_bindings :
  forall env items e names vals,
    refines (let_bindings ev env items e names vals)
      (let_bindings ev' env items e names vals).
Proof.
  intros env items e. induction items as [|item r IH]; intros names vals; simpl.
  - apply refines_refl.
  - repeat refines_step; try apply IH.
Qed.

Lemma refines_do_define_form :
  forall vals env,
    refines (do_define_form ev vals env) (do_define_form ev' vals env).
Proof. intros. unfold do_define_form. repeat refines_step. Qed.

Lemma refines_do_let_form :
  forall vals env, refines (do_let_form ev vals env) (do_let_form ev' vals env).
Proof.
  intros. unfold do_let_form, eval_all_but_last.
  repeat (refines_step || apply refines_let_bindings).
Qed.

Lemma refines_do_let_star_form :
  forall vals env,
    refines (do_let_star_form ev vals env) (do_let_star_form ev' vals env).
Proof.
  intros. unfold do_let_star_form, eval_all_but_last, let_star_binding.
  repeat refines_step.
Qed.

Lemma refines_logic_form :
  forall first,
    match logic_form ev first, logic_form ev' first with
    | Some handler, Some handler' =>
        forall rest env, refines (handler rest env) (handler' rest env)
    | None, None => True
    | _, _ => False
    end.
Proof.
  intros first. unfold logic_form.
  destruct first; try exact I. simpl.
  repeat match goal with
         | |- context [if ?b then _ else _] => destruct b
         end;
    try exact I; intros rest env.
  - unfold do_and_form. repeat refines_step.
  - unfold do_or_form. repeat refines_step.
  - unfold do_if_form. repeat refines_step.
  - unfold do_cond_form, cond_clause. repeat refines_step.
  - unfold do_begin_form, begin_statement. repeat refines_step.
  - apply refines_refl.
Qed.

Lemma refines_eval_combination :
  forall expr env,
    refines
      (if scheme_atomp expr then ret expr
       else if negb (scheme_listp expr) then
         raise (SchemeError "malformed list: {0}" [expr])
       else
         first <- lift (get_first expr) ;;
         rest <- lift (get_second expr) ;;
         match logic_form ev first with
         | Some handler => e <- handler rest env ;; ev e env
         | None =>
             if py_eq first (VStr "lambda") then
               lift (do_lambda_form rest env)
             else if py_eq first (VStr "define") then
               do_define_form ev rest env ;; ret PyNone
             else if py_eq first (VStr "quote") then
               lift (do_quote_form rest)
             else if py_eq first (VStr "let") then
               '(e, env') <- do_let_form ev rest env ;; ev e env'
             else if py_eq first (VStr "let*") then
               '(e, env') <- do_let_star_form ev rest env ;; ev e env'
             else
               procedure <- ev first env ;;
               args <- pair_map (fun operand => ev operand env) rest ;;
               ap procedure args env
         end)
      (if scheme_atomp expr then ret expr
       else if negb (scheme_listp expr) then
         raise (SchemeError "malformed list: {0}" [expr])
       else
         first <- lift (get_first expr) ;;
         rest <- lift (get_second expr) ;;
         match logic_form ev' first with
         | Some handler => e <- handler rest env ;; ev' e env
         | None =>
             if py_eq first (VStr "lambda") then
               lift (do_lambda_form rest env)
             else if py_eq first (VStr "define") then
               do_define_form ev' rest env ;; ret PyNone
             else if py_eq first (VStr "quote") then
               lift (do_quote_form rest)
             else if py_eq first (VStr "let") then
               '(e, env') <- do_let_form ev' rest env ;; ev' e env'
             else if py_eq first (VStr "let*") then
               '(e, env') <- do_let_star_form ev' rest env ;; ev' e env'
             else
               procedure <- ev' first env ;;
               args <- pair_map (fun operand => ev' operand env) rest ;;
               ap' procedure args env
         end).
Proof.
  intros expr env.
  destruct (scheme_atomp expr); [apply refines_refl|].
  destruct (negb (scheme_listp expr)); [apply refines_refl|].
  apply refines_bind; [apply refines_refl|]. intros first.
  apply refines_bind; [apply refines_refl|]. intros rest.
  pose proof (refines_logic_form first) as Hl.
  destruct (logic_form ev first) as [handler|];
    destruct (logic_form ev' first) as [handler'|]; try contradiction.
  - apply refines_bind; [apply Hl | intros; apply ev_refines].
  - repeat (refines_step || apply refines_do_define_form
            || apply refines_do_let_form || apply refines_do_let_star_form).
Qed.

Lemma refines_eval_step :
  forall expr env, refines (eval_step ev ap expr env) (eval_step ev' ap' expr env).
Proof.
  intros expr env. unfold eval_step.
  destruct expr; try apply refines_eval_combination; apply refines_refl.
Qed.

Lemma refines_apply_step :
  forall procedure args env,
    refines (apply_step native ev ap procedure args env)
      (apply_step native ev' ap' procedure args env).
Proof.
  intros procedure args env. unfold apply_step.
  destruct procedure; try apply refines_refl.
  - repeat refines_step.
  - apply refines_bind; [apply refines_refl|]. intros arg_list.
    unfold apply_primitive, call_fn. repeat refines_step.
Qed.

End Refines.

Lemma scheme_eval_apply_deeper :
  forall native d,
    (forall e env,
        refines (scheme_eval native d e env) (scheme_eval native (S d) e env))
    /\ (forall p a env,
           refines (scheme_apply native d p a env)
             (scheme_apply native (S d) p a env)).
Proof.
  intros native d. induction d as [|d [IHe IHa]].
  - split; intros; intros h r h' H Hr; injection H as <- <-;
      exfalso; apply Hr; reflexivity.
  - split; intros.
    + apply (refines_eval_step (scheme_eval native d)
               (scheme_eval native (S d)) (scheme_apply native d)
               (scheme_apply native (S d)) IHe IHa).
    + apply (refines_apply_step native (scheme_eval native d)
               (scheme_eval native (S d)) (scheme_apply native d)
               (scheme_apply native (S d)) IHe IHa).
Qed.

(** An evaluation that does not end in [RecursionError] has the same
    outcome with any deeper stack. *)
Lemma scheme_eval_deeper :
  forall native d k e env h r h',
    scheme_eval native d e env h = (r, h') ->
    r <> Raise RecursionError ->
    scheme_eval native (k + d) e env h = (r, h').
Proof.
  intros native d k. induction k as [|k IH]; intros e env h r h' H Hr.
  - exact H.
  - apply (proj1 (scheme_eval_apply_deeper native (k + d))); auto.
Qed.

(** ** Further facts about the defects *)

(** The frame captured by a closure plays no part in its application. *)
Lemma scheme_apply_ignores_captured_env :
  forall native d formals body cenv cenv' args env h,
    scheme_apply native d (LambdaProcedure formals body cenv) args env h
    = scheme_apply native d (LambdaProcedure formals body cenv') args env h.
Proof. intros. destruct d; reflexivity. Qed.

(** A single symbol as formals is a string for [len] and [zip]: its
    characters are bound to the arguments, one by one. *)
Lemma make_call_frame_symbol_formals :
  call_frame_inner (Scheme (VStr "args")) (Scheme (ints [1; 2]%Z))
  = Ret [(VStr "a", VInt 1); (VStr "r", VInt 2)].
Proof. reflexivity. Qed.

(** One formal before the dot and no argument: the attribute access on
    [NULL] fails; the error is not a [SchemeError]. *)
Lemma make_call_frame_rest_without_arguments :
  call_frame_inner (Scheme (Pair (VStr "a") (VStr "rest"))) (Scheme NULL)
  = Raise AttributeError.
Proof. reflexivity. Qed.

(** The body of a [let*] is evaluated in the outer frame. *)
Lemma let_star_body_in_outer_frame :
  scheme_repl py_native recursion_limit ["(let* ((x 1) (y (+ x 1))) y)"]
  = Ret [Raise (SchemeError "unknown identifier: {0}" [VStr "y"])].
Proof. vm_compute. reflexivity. Qed.

(** [do_cond_form] tests [if test:] as [do_if_form] does: a clause whose
    test evaluates to 0 or to the empty list is passed over. *)
Lemma cond_zero_test_passed_over :
  scheme_repl py_native recursion_limit
    ["(cond (0) (else 2))"; "(cond (nil) (else 2))"; "(cond (7))"]
  = Ret [Ret (VInt 2); Ret (VInt 2); Ret (VBool true)].
Proof. vm_compute. reflexivity. Qed.

(** * Further properties of the evaluator *)

(** ** [and] and [or] *)

Lemma scheme_eval_and :
  forall native d rest env h,
    scheme_listp rest = true ->
    scheme_eval native (S d) (Pair (VStr "and") rest) env h
    = (e <- do_and_form (scheme_eval native d) rest env ;;
       scheme_eval native d e env) h.
Proof.
  intros native d rest env h Hl. simpl. unfold eval_step. simpl.
  rewrite Hl. reflexivity.
Qed.

Lemma scheme_eval_or :
  forall native d rest env h,
    scheme_listp rest = true ->
    scheme_eval native (S d) (Pair (VStr "or") rest) env h
    = (e <- do_or_form (scheme_eval native d) rest env ;;
       scheme_eval native d e env) h.
Proof.
  intros native d rest env h Hl. simpl. unfold eval_step. simpl.
  rewrite Hl. reflexivity.
Qed.

Lemma and_loop_passes :
  forall (ev : evalT) env orelse pre h h1,
    eval_while ev env ne_False pre h = Some h1 ->
    forall i rest,
      for_loop i (pre ++ rest) None
        (fun _ condition =>
           v <- ev condition env ;;
           if py_eq v (VBool false) then ret (Some (VBool false))
           else ret None)
        orelse h
      = for_loop (i + List.length pre) rest None
          (fun _ condition =>
             v <- ev condition env ;;
             if py_eq v (VBool false) then ret (Some (VBool false))
             else ret None)
          orelse h1.
Proof.
  intros ev env orelse pre.
  induction pre as [|e pre IH]; intros h h1 H i rest.
  - injection H as <-. simpl. rewrite Nat.add_0_r. reflexivity.
  - simpl in H. destruct (ev e env h) as [[v|x] h'] eqn:He; [|discriminate H].
    unfold ne_False in H at 1.
    destruct (py_eq v (VBool false)) eqn:Hg; [discriminate H|]. simpl in H.
    simpl. unfold bind at 1. unfold bind at 1. rewrite He, Hg. simpl.
    rewrite (IH h' h1 H (S i) rest). f_equal. lia.
Qed.

Lemma or_loop_passes :
  forall (ev : evalT) env orelse pre h h1,
    eval_while ev env eq_False pre h = Some h1 ->
    forall i rest,
      for_loop i (pre ++ rest) None
        (fun _ condition =>
           v <- ev condition env ;;
           if negb (py_eq v (VBool false)) then ret (Some (VBool true))
           else ret None)
        orelse h
      = for_loop (i + List.length pre) rest None
          (fun _ condition =>
             v <- ev condition env ;;
             if negb (py_eq v (VBool false)) then ret (Some (VBool true))
             else ret None)
          orelse h1.
Proof.
  intros ev env orelse pre.
  induction pre as [|e pre IH]; intros h h1 H i rest.
  - injection H as <-. simpl. rewrite Nat.add_0_r. reflexivity.
  - simpl in H. destruct (ev e env h) as [[v|x] h'] eqn:He; [|discriminate H].
    unfold eq_False in H at 1.
    destruct (py_eq v (VBool false)) eqn:Hg; [|discriminate H].
    simpl. unfold bind at 1. unfold bind at 1. rewrite He, Hg. simpl.
    rewrite (IH h' h1 H (S i) rest). f_equal. lia.
Qed.

(** X1: the value of an [and] form is a boolean, never the value of an
    operand.  It is [False] at the first operand whose value equals
    [False] for Python (the boolean false, and also the integer 0), and
    the operands after it are not evaluated; it is [True] when no operand
    has such a value, also for the empty [and]. *)
Theorem and_short_circuit :
  forall native d env pre h h1,
    eval_while (scheme_eval native (S d)) env ne_False pre h = Some h1 ->
    scheme_eval native (S (S d)) (and_form pre) env h = (Ret (VBool true), h1)
    /\ forall c post v h2,
         scheme_eval native (S d) c env h1 = (Ret v, h2) ->
         eq_False v = true ->
         scheme_eval native (S (S d)) (and_form (pre ++ c :: post)) env h
         = (Ret (VBool false), h2).
Proof.
  intros native d env pre h h1 Hpre. split.
  - unfold and_form. rewrite scheme_eval_and by apply scheme_listp_scheme_list.
    unfold bind at 1. unfold do_and_form, for_in.
    rewrite py_iter_scheme_list. simpl fst. simpl snd.
    rewrite <- (app_nil_r pre).
    rewrite (and_loop_passes _ _ _ _ _ _ Hpre). reflexivity.
  - intros c post v h2 Hc Hv.
    unfold and_form. rewrite scheme_eval_and by apply scheme_listp_scheme_list.
    unfold bind at 1. unfold do_and_form, for_in.
    rewrite py_iter_scheme_list. simpl fst. simpl snd.
    rewrite (and_loop_passes _ _ _ _ _ _ Hpre).
    cbn [for_loop]. unfold bind at 1. unfold bind at 1. rewrite Hc.
    unfold eq_False in Hv. rewrite Hv. reflexivity.
Qed.

(** [(and 1 2)] is [True], and [(and 1 0 (car 5))] is [False] without
    the error of its last operand. *)
Lemma and_short_circuit_witness :
  eval_while (scheme_eval py_native 1) global_env ne_False [VInt 1]
    initial_heap = Some initial_heap
  /\ scheme_eval py_native 2 (and_form [VInt 1; VInt 2]) global_env
       initial_heap = (Ret (VBool true), initial_heap)
  /\ scheme_eval py_native 2
       (and_form ([VInt 1] ++ VInt 0 :: [scheme_list [VStr "car"; VInt 5]]))
       global_env initial_heap
     = (Ret (VBool false), initial_heap).
Proof.
  split; [vm_compute; reflexivity|]. split.
  - apply (proj1 (and_short_circuit py_native 0 global_env [VInt 1; VInt 2]
                    initial_heap initial_heap eq_refl)).
  - apply (proj2 (and_short_circuit py_native 0 global_env [VInt 1]
                    initial_heap initial_heap eq_refl)
             (VInt 0) [scheme_list [VStr "car"; VInt 5]] (VInt 0) initial_heap);
      reflexivity.
Defined.

(** X2: the value of an [or] form is a boolean as well: [True] at the
    first operand whose value differs from [False] for Python, the
    operands after it not being evaluated, and [False] when every operand
    has a value equal to [False], also for the empty [or]. *)
Theorem or_short_circuit :
  forall native d env pre h h1,
    eval_while (scheme_eval native (S d)) env eq_False pre h = Some h1 ->
    scheme_eval native (S (S d)) (or_form pre) env h = (Ret (VBool false), h1)
    /\ forall c post v h2,
         scheme_eval native (S d) c env h1 = (Ret v, h2) ->
         ne_False v = true ->
         scheme_eval native (S (S d)) (or_form (pre ++ c :: post)) env h
         = (Ret (VBool true), h2).
Proof.
  intros native d env pre h h1 Hpre. split.
  - unfold or_form. rewrite scheme_eval_or by apply scheme_listp_scheme_list.
    unfold bind at 1. unfold do_or_form, for_in.
    rewrite py_iter_scheme_list. simpl fst. simpl snd.
    rewrite <- (app_nil_r pre).
    rewrite (or_loop_passes _ _ _ _ _ _ Hpre). reflexivity.
  - intros c post v h2 Hc Hv.
    unfold or_form. rewrite scheme_eval_or by apply scheme_listp_scheme_list.
    unfold bind at 1. unfold do_or_form, for_in.
    rewrite py_iter_scheme_list. simpl fst. simpl snd.
    rewrite (or_loop_passes _ _ _ _ _ _ Hpre).
    cbn [for_loop]. unfold bind at 1. unfold bind at 1. rewrite Hc.
    unfold ne_False in Hv. rewrite Hv. reflexivity.
Qed.

(** [(or #f 0)] is [False], and [(or #f 7 (car 5))] is [True], not 7. *)
Lemma or_short_circuit_witness :
  eval_while (scheme_eval py_native 1) global_env eq_False [VBool false]
    initial_heap = Some initial_heap
  /\ scheme_eval py_native 2 (or_form [VBool false; VInt 0]) global_env
       initial_heap = (Ret (VBool false), initial_heap)
  /\ scheme_eval py_native 2
       (or_form ([VBool false] ++ VInt 7
                 :: [scheme_list [VStr "car"; VInt 5]]))
       global_env initial_heap
     = (Ret (VBool true), initial_heap).
Proof.
  split; [vm_compute; reflexivity|]. split.
  - apply (proj1 (or_short_circuit py_native 0 global_env [VBool false; VInt 0]
                    initial_heap initial_heap eq_refl)).
  - apply (proj2 (or_short_circuit py_native 0 global_env [VBool false]
                    initial_heap initial_heap eq_refl)
             (VInt 7) [scheme_list [VStr "car"; VInt 5]] (VInt 7) initial_heap);
      reflexivity.
Defined.

(** ** [quote], [define], [eval] and [load] *)

Lemma scheme_read_quote :
  forall d toks,
    scheme_read (S d) (VStr "'" :: toks)
    = match scheme_read d toks with
      | (Ret e, p) => (Ret (quote_form e), p)
      | r => r
      end.
Proof. intros. rewrite scheme_read_S. reflexivity. Qed.

(** X3: a quoted datum evaluates to itself.  The reader turns [' e] into
    the list [(quote e)], and [(quote e)] evaluates to [e], unevaluated
    and whatever [e] is, without touching the store. *)
Theorem quote_returns_datum :
  forall native d d' toks e rest env h,
    scheme_read d toks = (Ret e, rest) ->
    scheme_read (S d) (VStr "'" :: toks) = (Ret (quote_form e), rest)
    /\ scheme_eval native (S d') (quote_form e) env h = (Ret e, h).
Proof.
  intros native d d' toks e rest env h H. split.
  - rewrite scheme_read_quote, H. reflexivity.
  - reflexivity.
Qed.

Lemma quote_returns_datum_witness :
  scheme_read 1 [VStr "x"] = (Ret (VStr "x"), [])
  /\ scheme_read 2 [VStr "'"; VStr "x"] = (Ret (quote_form (VStr "x")), [])
  /\ scheme_eval py_native 1 (quote_form (VStr "x")) global_env initial_heap
     = (Ret (VStr "x"), initial_heap).
Proof.
  split; [reflexivity|].
  apply (quote_returns_datum py_native 1 0 [VStr "x"] (VStr "x") []
           global_env initial_heap).
  reflexivity.
Defined.

(** [quote] takes exactly one operand. *)
Lemma quote_arity :
  forall native d a b rest env h,
    scheme_eval native (S d) (scheme_list [VStr "quote"]) env h
    = (Raise (SchemeError "too few operands in form" []), h)
    /\ (scheme_listp rest = true ->
        scheme_eval native (S d) (Pair (VStr "quote") (Pair a (Pair b rest)))
          env h
        = (Raise (SchemeError "too many operands in form" []), h)).
Proof.
  intros native d a b rest env h. split; [reflexivity|].
  intros Hl.
  assert (Hc : check_form (Pair a (Pair b rest)) 1 (Some 1)
               = Raise (SchemeError "too many operands in form" [])).
  { unfold check_form. simpl. rewrite Hl. simpl.
    destruct (pair_len_from_listp rest 2 Hl) as [k Hk]. rewrite Hk.
    reflexivity. }
  simpl. unfold eval_step. simpl. rewrite Hl. simpl.
  unfold bind, lift, do_quote_form. simpl. rewrite Hc. reflexivity.
Qed.

Lemma length_set_nth :
  forall A (l : list A) i x, List.length (set_nth l i x) = List.length l.
Proof.
  induction l as [|a l IH]; intros i x; destruct i; simpl; auto.
Qed.

Lemma py_eq_str_refl : forall s, py_eq (VStr s) (VStr s) = true.
Proof. intros s. unfold py_eq. simpl. apply String.eqb_refl. Qed.

Lemma dict_get_dict_set_same :
  forall d s v, dict_get (dict_set d (VStr s) v) (VStr s) = Some v.
Proof.
  induction d as [|[k0 v0] d IH]; intros s v; simpl.
  - rewrite py_eq_str_refl. reflexivity.
  - destruct (py_eq k0 (VStr s)) eqn:E; simpl; rewrite E; auto.
Qed.

(** A binding made in a frame is what a lookup from that frame finds. *)
Lemma define_getitem :
  forall h self sym v fr,
    nth_error h self = Some fr ->
    getitem self sym (snd (define self (VStr sym) v h))
    = (Ret v, snd (define self (VStr sym) v h)).
Proof.
  intros h self sym v fr Hfr. unfold define. rewrite Hfr. simpl.
  unfold getitem, bind, find. rewrite length_set_nth.
  assert (Hlen : self < List.length h)
    by (apply nth_error_Some; congruence).
  destruct (List.length h) as [|n]; [lia|].
  cbn [find_in].
  rewrite (nth_error_set_nth_eq _ _ _ _ _ Hfr). cbn [inner parent].
  rewrite dict_has_dict_set_same by apply py_eq_str_refl.
  rewrite (nth_error_set_nth_eq _ _ _ _ _ Hfr). cbn [inner].
  rewrite dict_get_dict_set_same. reflexivity.
Qed.

(** X4: a definition is what a lookup finds.  When [e] evaluates to [v]
    in the frame [env], [(define x e)] evaluates to [None] and afterwards
    [x] evaluates to [v] in [env], whatever [x] was bound to in [env] or
    in its parents before. *)
Theorem define_then_lookup :
  forall native d x e env h v h1 fr,
    scheme_eval native (S d) e env h = (Ret v, h1) ->
    nth_error h1 env = Some fr ->
    exists h2,
      scheme_eval native (S (S d)) (scheme_list [VStr "define"; VStr x; e])
        env h = (Ret PyNone, h2)
      /\ scheme_eval native (S d) (VStr x) env h2 = (Ret v, h2).
Proof.
  intros native d x e env h v h1 fr He Hfr.
  exists (snd (define env (VStr x) v h1)). split.
  - change (scheme_eval native (S (S d))
              (scheme_list [VStr "define"; VStr x; e]) env h)
      with (eval_step (scheme_eval native (S d)) (scheme_apply native (S d))
              (scheme_list [VStr "define"; VStr x; e]) env h).
    unfold eval_step. cbn -[scheme_eval scheme_apply define].
    unfold bind, lift, ret. cbn -[scheme_eval scheme_apply define].
    unfold do_define_form, bind, lift. cbn -[scheme_eval scheme_apply define].
    rewrite He. unfold define. rewrite Hfr. reflexivity.
  - change (scheme_eval native (S d) (VStr x) env
              (snd (define env (VStr x) v h1)))
      with (getitem env x (snd (define env (VStr x) v h1))).
    eapply define_getitem. eassumption.
Qed.

Lemma define_then_lookup_witness :
  scheme_eval py_native 1 (VInt 7) global_env initial_heap
  = (Ret (VInt 7), initial_heap)
  /\ exists h2,
      scheme_eval py_native 2 (scheme_list [VStr "define"; VStr "car"; VInt 7])
        global_env initial_heap = (Ret PyNone, h2)
      /\ scheme_eval py_native 1 (VStr "car") global_env h2 = (Ret (VInt 7), h2).
Proof.
  split; [reflexivity|].
  assert (Hfr : exists fr, nth_error initial_heap global_env = Some fr)
    by (vm_compute; eexists; reflexivity).
  destruct Hfr as [fr Hfr].
  apply (define_then_lookup py_native 0 "car" (VInt 7) global_env
           initial_heap (VInt 7) initial_heap fr).
  - reflexivity.
  - exact Hfr.
Defined.

Lemma dict_has_dict_set_other :
  forall d sym v s,
    s <> sym ->
    dict_has (dict_set d (VStr sym) v) (VStr s) = dict_has d (VStr s).
Proof.
  induction d as [|[k0 v0] d IH]; intros sym v s Hne; simpl.
  - unfold py_eq. simpl. rewrite orb_false_r.
    apply String.eqb_neq. congruence.
  - destruct (py_eq k0 (VStr sym)); simpl; [reflexivity|].
    rewrite IH by assumption. reflexivity.
Qed.

Lemma dict_get_dict_set_other :
  forall d sym v s,
    s <> sym ->
    dict_get (dict_set d (VStr sym) v) (VStr s) = dict_get d (VStr s).
Proof.
  induction d as [|[k0 v0] d IH]; intros sym v s Hne; simpl.
  - unfold py_eq. simpl.
    destruct (String.eqb sym s) eqn:E; [|reflexivity].
    apply String.eqb_eq in E. congruence.
  - destruct (py_eq k0 (VStr sym)) eqn:E; simpl.
    + apply py_eq_str_inv in E. subst k0. unfold py_eq. simpl.
      destruct (String.eqb sym s) eqn:E'; [|reflexivity].
      apply String.eqb_eq in E'. congruence.
    + rewrite IH by assumption. reflexivity.
Qed.

Lemma find_in_define_other :
  forall n h self sym v fr env s,
    s <> sym ->
    nth_error h self = Some fr ->
    find_in n
      (set_nth h self (mkFrame (dict_set (inner fr) (VStr sym) v) (parent fr)))
      env s
    = find_in n h env s.
Proof.
  induction n as [|n IH]; intros h self sym v fr env s Hne Hfr; simpl.
  - reflexivity.
  - destruct (Nat.eq_dec self env) as [->|Hse].
    + rewrite (nth_error_set_nth_eq _ _ _ _ _ Hfr), Hfr. cbn [inner parent].
      rewrite dict_has_dict_set_other by assumption.
      destruct (dict_has (inner fr) (VStr s)); [reflexivity|].
      destruct (parent fr) as [p|] eqn:Hp; [|reflexivity].
      rewrite <- Hp. apply IH; assumption.
    + rewrite nth_error_set_nth_neq by assumption.
      destruct (nth_error h env) as [f|]; [|reflexivity].
      destruct (dict_has (inner f) (VStr s)); [reflexivity|].
      destruct (parent f); [apply IH; assumption | reflexivity].
Qed.

Lemma getitem_same_heap :
  forall env s h, snd (getitem env s h) = h.
Proof.
  intros env s h. unfold getitem, bind, find.
  destruct (find_in (List.length h) h env s) as [r|e]; [|reflexivity].
  destruct (nth_error h r) as [f|]; [|reflexivity].
  destruct (dict_get (inner f) (VStr s)); reflexivity.
Qed.

(** X5: a definition touches one name in one frame.  After [sym] has
    been defined in the frame [self], every other symbol resolves, from
    every frame, to what it resolved to before (a value or an error). *)
Theorem define_leaves_other_names :
  forall h self sym v env s,
    s <> sym ->
    getitem env s (snd (define self (VStr sym) v h))
    = (fst (getitem env s h), snd (define self (VStr sym) v h)).
Proof.
  intros h self sym v env s Hne. unfold define.
  destruct (nth_error h self) as [fr|] eqn:Hfr; simpl.
  - unfold getitem, bind, find. rewrite length_set_nth.
    rewrite (find_in_define_other _ _ _ _ _ _ _ _ Hne Hfr).
    destruct (find_in (List.length h) h env s) as [r|e]; [|reflexivity].
    destruct (Nat.eq_dec self r) as [->|Hsr].
    + rewrite (nth_error_set_nth_eq _ _ _ _ _ Hfr), Hfr. cbn [inner].
      rewrite dict_get_dict_set_other by assumption.
      destruct (dict_get (inner fr) (VStr s)); reflexivity.
    + rewrite nth_error_set_nth_neq by assumption.
      destruct (nth_error h r) as [f|]; [|reflexivity].
      destruct (dict_get (inner f) (VStr s)); reflexivity.
  - rewrite <- (getitem_same_heap env s h) at 3.
    destruct (getitem env s h); reflexivity.
Qed.

Lemma define_leaves_other_names_witness :
  "cdr" <> "car"
  /\ getitem global_env "cdr"
       (snd (define global_env (VStr "car") (VInt 7) initial_heap))
     = (Ret (PrimitiveProcedure (Fnative "scheme_cdr")),
        snd (define global_env (VStr "car") (VInt 7) initial_heap)).
Proof.
  split; [discriminate|].
  rewrite (define_leaves_other_names initial_heap global_env "car" (VInt 7)
             global_env "cdr") by discriminate.
  vm_compute. reflexivity.
Defined.

(** X6: [(define (f . formals) body ...)] is [(define f (lambda formals
    body ...))]: the two forms have the same outcome and leave the same
    store, errors included, for every name [f] that is not itself a
    pair. *)
Theorem define_function_is_define_lambda :
  forall native d f formals body env h,
    is_pair f = false ->
    scheme_eval native (S (S d))
      (Pair (VStr "define") (Pair (Pair f formals) (scheme_list body))) env h
    = scheme_eval native (S (S d))
        (scheme_list [VStr "define"; f;
                      Pair (VStr "lambda") (Pair formals (scheme_list body))])
        env h.
Proof.
  intros native d f formals body env h Hf.
  change (scheme_eval native (S (S d))
            (Pair (VStr "define") (Pair (Pair f formals) (scheme_list body)))
            env h)
    with (eval_step (scheme_eval native (S d)) (scheme_apply native (S d))
            (Pair (VStr "define") (Pair (Pair f formals) (scheme_list body)))
            env h).
  change (scheme_eval native (S (S d))
            (scheme_list [VStr "define"; f;
                          Pair (VStr "lambda")
                            (Pair formals (scheme_list body))]) env h)
    with (eval_step (scheme_eval native (S d)) (scheme_apply native (S d))
            (scheme_list [VStr "define"; f;
                          Pair (VStr "lambda")
                            (Pair formals (scheme_list body))]) env h).
  unfold eval_step. cbn -[scheme_eval scheme_apply do_lambda_form define].
  rewrite scheme_listp_scheme_list.
  cbn -[scheme_eval scheme_apply do_lambda_form define].
  unfold bind, lift, ret. cbn -[scheme_eval scheme_apply do_lambda_form define].
  unfold do_define_form, bind, lift, check_form.
  cbn -[scheme_eval scheme_apply do_lambda_form define].
  rewrite scheme_listp_scheme_list, pair_len_from_scheme_list.
  cbn -[scheme_eval scheme_apply do_lambda_form define].
  rewrite Hf.
  change (scheme_eval native (S d)
            (Pair (VStr "lambda") (Pair formals (scheme_list body))) env h)
    with (eval_step (scheme_eval native d) (scheme_apply native d)
            (Pair (VStr "lambda") (Pair formals (scheme_list body))) env h).
  unfold eval_step. cbn -[scheme_eval scheme_apply do_lambda_form define].
  rewrite scheme_listp_scheme_list.
  cbn -[scheme_eval scheme_apply do_lambda_form define].
  unfold bind, lift, ret.
  destruct body as [|b body].
  - reflexivity.
  - cbn -[scheme_eval scheme_apply do_lambda_form define].
    destruct (do_lambda_form (Pair formals (Pair b (scheme_list body))) env)
      as [func|e]; [|reflexivity].
    destruct (define env f func h) as [[[]|e] h']; reflexivity.
Qed.

Lemma define_function_is_define_lambda_witness :
  is_pair (VStr "f") = false
  /\ scheme_eval py_native 2
       (Pair (VStr "define")
          (Pair (Pair (VStr "f") (scheme_list [VStr "x"]))
             (scheme_list [VStr "x"])))
       global_env initial_heap
     = scheme_eval py_native 2
         (scheme_list [VStr "define"; VStr "f";
                       Pair (VStr "lambda")
                         (Pair (scheme_list [VStr "x"])
                            (scheme_list [VStr "x"]))])
         global_env initial_heap.
Proof.
  split; [reflexivity|].
  apply (define_function_is_define_lambda py_native 0 (VStr "f")
           (scheme_list [VStr "x"]) [VStr "x"] global_env initial_heap).
  reflexivity.
Defined.

(** X7: the primitive [load] never loads anything.  Applied to whatever
    arguments, it raises; applied to one symbol it raises [NameError],
    which is not a [SchemeError], so the read-eval-print loop does not
    catch it and the forms after it are not evaluated. *)
Theorem load_never_succeeds :
  forall native d args env h,
    (exists e,
        scheme_apply native d (PrimitiveProcedure Fscheme_load) args env h
        = (Raise e, h))
    /\ (forall sym,
           scheme_apply native (S d) (PrimitiveProcedure Fscheme_load)
             (scheme_list [VStr sym]) env h = (Raise NameError, h))
    /\ scheme_repl native (12 + d) ["(load 'prog)"; "(define x 1)"]
       = Ret [Raise NameError].
Proof.
  intros native d args env h. split; [|split].
  - destruct d as [|d]; [eexists; reflexivity|].
    simpl. unfold apply_step, bind, lift.
    destruct (list_of_iter (py_iter args)) as [arg_list|e];
      [|eexists; reflexivity].
    unfold apply_primitive, except_TypeError, call_fn. simpl.
    destruct arg_list as [|sym [|? ?]]; try (eexists; reflexivity).
    unfold scheme_load. destruct (scheme_symbolp sym); eexists; reflexivity.
  - intros sym. reflexivity.
  - reflexivity.
Qed.

(** X8: the primitives [eval] and [apply] are the evaluator itself.  In
    a frame where the two names have their initial bindings,
    [(eval (quote e))] evaluates [e] in the frame of the call, and
    [(apply f (quote args))] applies the value of [f] to [args]; a
    [TypeError] on the way becomes the [SchemeError] of
    [apply_primitive]. *)
Theorem eval_and_apply_primitives :
  forall native d env h,
    getitem env "eval" h = (Ret (PrimitiveProcedure Fscheme_eval), h) ->
    getitem env "apply" h = (Ret (PrimitiveProcedure Fscheme_apply), h) ->
    (forall e,
        scheme_eval native (S (S d)) (scheme_list [VStr "eval"; quote_form e])
          env h
        = except_TypeError (scheme_eval native d e env) h)
    /\ (forall f args p h1,
           scheme_eval native (S d) f env h = (Ret p, h1) ->
           scheme_eval native (S (S d))
             (scheme_list [VStr "apply"; f; quote_form args]) env h
           = except_TypeError (scheme_apply native d p args env) h1).
Proof.
  intros native d env h Heval Happly. split.
  - intros e.
    change (scheme_eval native (S (S d))
              (scheme_list [VStr "eval"; quote_form e]) env h)
      with (eval_step (scheme_eval native (S d)) (scheme_apply native (S d))
              (scheme_list [VStr "eval"; quote_form e]) env h).
    unfold eval_step. cbn -[scheme_eval scheme_apply getitem].
    unfold bind, lift, ret. cbn -[scheme_eval scheme_apply getitem].
    change (scheme_eval native (S d) (VStr "eval") env h)
      with (getitem env "eval" h).
    rewrite Heval.
    change (scheme_eval native (S d) (quote_form e) env h)
      with (Ret e, h).
    reflexivity.
  - intros f args p h1 Hf.
    change (scheme_eval native (S (S d))
              (scheme_list [VStr "apply"; f; quote_form args]) env h)
      with (eval_step (scheme_eval native (S d)) (scheme_apply native (S d))
              (scheme_list [VStr "apply"; f; quote_form args]) env h).
    unfold eval_step. cbn -[scheme_eval scheme_apply getitem].
    unfold bind, lift, ret. cbn -[scheme_eval scheme_apply getitem].
    change (scheme_eval native (S d) (VStr "apply") env h)
      with (getitem env "apply" h).
    rewrite Happly. rewrite Hf.
    change (scheme_eval native (S d) (quote_form args) env h1)
      with (Ret args, h1).
    reflexivity.
Qed.

(** [(eval (quote (+ 1 2)))] and [(apply + (quote (1 2)))]. *)
Lemma eval_and_apply_primitives_witness :
  scheme_eval py_native 4
    (scheme_list [VStr "eval";
                  quote_form (scheme_list [VStr "+"; VInt 1; VInt 2])])
    global_env initial_heap
  = (Ret (VInt 3), initial_heap)
  /\ scheme_eval py_native 3
       (scheme_list [VStr "apply"; VStr "+"; quote_form (ints [1; 2]%Z)])
       global_env initial_heap
     = (Ret (VInt 3), initial_heap).
Proof.
  split.
  - rewrite (proj1 (eval_and_apply_primitives py_native 2 global_env
                      initial_heap eq_refl eq_refl)).
    vm_compute. reflexivity.
  - rewrite (proj2 (eval_and_apply_primitives py_native 1 global_env
                      initial_heap eq_refl eq_refl)
               (VStr "+") (ints [1; 2]%Z)
               (PrimitiveProcedure (Fnative "scheme_add")) initial_heap
               eq_refl).
    vm_compute. reflexivity.
Defined.

(** X9: the recursion limit only matters through [RecursionError].  An
    evaluation that ends otherwise, with a value or with another
    exception, has the same outcome and leaves the same store under every
    larger limit. *)
Theorem outcome_independent_of_recursion_limit :
  forall native d d' e env h r h',
    d <= d' ->
    scheme_eval native d e env h = (r, h') ->
    r <> Raise RecursionError ->
    scheme_eval native d' e env h = (r, h').
Proof.
  intros native d d' e env h r h' Hle H Hr.
  replace d' with ((d' - d) + d) by lia.
  apply scheme_eval_deeper; assumption.
Qed.

Lemma outcome_independent_of_recursion_limit_witness :
  2 <= 40
  /\ scheme_eval py_native 2 (scheme_list [VStr "+"; VInt 1; VInt 2])
       global_env initial_heap = (Ret (VInt 3), initial_heap)
  /\ scheme_eval py_native 40 (scheme_list [VStr "+"; VInt 1; VInt 2])
       global_env initial_heap = (Ret (VInt 3), initial_heap).
Proof.
  split; [lia|]. split; [vm_compute; reflexivity|].
  apply (outcome_independent_of_recursion_limit py_native 2 40
           (scheme_list [VStr "+"; VInt 1; VInt 2]) global_env initial_heap
           (Ret (VInt 3)) initial_heap).
  - lia.
  - vm_compute. reflexivity.
  - discriminate.
Defined.

Lemma heap_le_length :
  forall h h', heap_le h h' -> List.length h <= List.length h'.
Proof.
  intros h h' Hle.
  destruct (Nat.eq_dec (List.length h) 0) as [E|E]; [lia|].
  destruct (nth_error h (List.length h - 1)) as [f|] eqn:Hf.
  - destruct (Hle _ _ Hf) as [f' [Hf' _]].
    assert (List.length h - 1 < List.length h')
      by (apply nth_error_Some; congruence).
    lia.
  - apply nth_error_None in Hf. lia.
Qed.

(** X10: evaluation only adds to the store.  Whatever is evaluated and
    however it ends, the number of frames does not decrease, and every
    frame of the store is still there afterwards, at the same place,
    with the same parent and with every name it bound still bound. *)
Theorem evaluation_only_adds :
  forall native d e env h,
    List.length h <= List.length (snd (scheme_eval native d e env h))
    /\ forall r f,
        nth_error h r = Some f ->
        exists f',
          nth_error (snd (scheme_eval native d e env h)) r = Some f'
          /\ parent f' = parent f
          /\ forall k,
              dict_has (inner f) k = true -> dict_has (inner f') k = true.
Proof.
  intros native d e env h.
  pose proof (scheme_eval_grows native d e env h) as G.
  split; [apply heap_le_length; exact G|].
  intros r f Hf.
  destruct (G r f Hf) as [f' [Hf' [Hp Hkeys]]].
  exists f'. repeat split; auto.
Qed.

Lemma evaluation_only_adds_witness :
  exists f',
    nth_error
      (snd (scheme_eval py_native 3
              (scheme_list [VStr "define"; VStr "car"; VInt 1])
              global_env initial_heap)) global_env = Some f'
    /\ parent f' = None
    /\ dict_has (inner f') (VStr "cdr") = true.
Proof.
  assert (Hfr : exists fr, nth_error initial_heap global_env = Some fr
                           /\ parent fr = None
                           /\ dict_has (inner fr) (VStr "cdr") = true)
    by (vm_compute; eexists; repeat split; reflexivity).
  destruct Hfr as [fr [Hfr [Hp Hk]]].
  destruct (proj2 (evaluation_only_adds py_native 3
                     (scheme_list [VStr "define"; VStr "car"; VInt 1])
                     global_env initial_heap) global_env fr Hfr)
    as [f' [H1 [H2 H3]]].
  exists f'. split; [assumption|]. split; [congruence | auto].
Defined.

(** * Lists and primitives *)

(** ** Length, indexing and iteration *)

Lemma pair_iter_listp :
  forall v, scheme_listp v = true -> snd (pair_iter v) = None.
Proof.
  induction v; intros H; simpl in *; try discriminate H; try reflexivity.
  destruct (pair_iter v2) as [items e]. simpl in *. auto.
Qed.

Lemma pair_len_from_items :
  forall v n,
    pair_len_from n v
    = if scheme_listp v then Ret (n + List.length (fst (pair_iter v)))
      else Raise (SchemeError "length attempted on improper list" []).
Proof.
  induction v; intros n; simpl; try reflexivity.
  - rewrite Nat.add_0_r. reflexivity.
  - rewrite IHv2. destruct (scheme_listp v2); [|reflexivity].
    destruct (pair_iter v2) as [items e]. simpl. f_equal. lia.
Qed.

(** X11: [len], iteration and [list?] agree on pairs.  The length of a
    pair is the number of items its iteration yields when the pair is a
    well-formed list, and [len] raises a [SchemeError] when it is not;
    the primitive [length] answers that number for a well-formed list and
    refuses anything else with a wrong-type error. *)
Theorem length_of_lists :
  forall x,
    (is_pair x = true ->
     py_len x
     = if scheme_listp x then Ret (List.length (fst (pair_iter x)))
       else Raise (SchemeError "length attempted on improper list" []))
    /\ scheme_length x
       = if scheme_listp x then
           Ret (VInt (Z.of_nat (List.length (fst (pair_iter x)))))
         else
           Raise (SchemeError "argument {0} of {1} has wrong type ({2})"
                    [VInt 0; VStr "length"; VStr (type_name x)]).
Proof.
  intros x. split.
  - intros Hp. destruct x; try discriminate Hp.
    unfold py_len. rewrite pair_len_from_items. simpl.
    destruct (scheme_listp x2); [|reflexivity].
    destruct (pair_iter x2) as [items e]. reflexivity.
  - unfold scheme_length, check_type.
    destruct x; try reflexivity.
    simpl scheme_nullp. cbv iota.
    destruct (scheme_listp (Pair x1 x2)) eqn:Hl; simpl negb; cbv iota;
      [|reflexivity].
    cbn [obind]. unfold py_len. rewrite pair_len_from_items.
    simpl in Hl. rewrite Hl. simpl.
    destruct (pair_iter x2) as [items e]. reflexivity.
Qed.

Lemma length_of_lists_witness :
  is_pair (ints [1; 2; 3]%Z) = true
  /\ py_len (ints [1; 2; 3]%Z) = Ret 3
  /\ scheme_length (Pair (VInt 1) (VInt 2))
     = Raise (SchemeError "argument {0} of {1} has wrong type ({2})"
                [VInt 0; VStr "length"; VStr "Pair"]).
Proof.
  split; [reflexivity|]. split.
  - apply (proj1 (length_of_lists (ints [1; 2; 3]%Z))). reflexivity.
  - apply (proj2 (length_of_lists (Pair (VInt 1) (VInt 2)))).
Defined.

Lemma pair_getitem_improper :
  forall l x tail k,
    scheme_nullp tail = false -> is_pair tail = false ->
    pair_getitem x (improper_list l tail) k
    = match nth_error (x :: l) k with
      | Some v => Ret v
      | None => Raise (SchemeError "ill-formed list" [])
      end.
Proof.
  induction l as [|y l IH]; intros x tail k Hn Hp; destruct k as [|k]; simpl;
    try reflexivity.
  - destruct tail; try discriminate Hn; try discriminate Hp;
      destruct k; reflexivity.
  - apply IH; assumption.
Qed.

(** X12: indexing a list.  [x[k]] is the item at position [k] when [k]
    is below the number of items; beyond them it raises "list index out
    of bounds" on a well-formed list (the empty list included) and
    "ill-formed list" on a list that ends in something else than the
    empty list. *)
Theorem index_of_lists :
  forall l k,
    py_getitem (scheme_list l) k
    = match nth_error l k with
      | Some v => Ret v
      | None => Raise (SchemeError "list index out of bounds" [])
      end
    /\ forall x tail,
        scheme_nullp tail = false -> is_pair tail = false ->
        py_getitem (improper_list (x :: l) tail) k
        = match nth_error (x :: l) k with
          | Some v => Ret v
          | None => Raise (SchemeError "ill-formed list" [])
          end.
Proof.
  intros l k. split.
  - destruct l as [|x l].
    + destruct k; reflexivity.
    + simpl. apply pair_getitem_scheme_list.
  - intros x tail Hn Hp. simpl. apply pair_getitem_improper; assumption.
Qed.

Lemma index_of_lists_witness :
  py_getitem (improper_list [VInt 1; VInt 2] (VInt 3)) 1 = Ret (VInt 2)
  /\ py_getitem (improper_list [VInt 1; VInt 2] (VInt 3)) 2
     = Raise (SchemeError "ill-formed list" []).
Proof.
  split.
  - apply (proj2 (index_of_lists [VInt 2] 1) (VInt 1) (VInt 3));
      reflexivity.
  - apply (proj2 (index_of_lists [VInt 2] 2) (VInt 1) (VInt 3));
      reflexivity.
Defined.

(** ** Truth values *)

(** X13: the truth value of a pair needs its length.  A pair that is a
    well-formed list is true; testing a pair that is not raises the
    [SchemeError] of [Pair.__len__], so an [if] whose test evaluates to
    such a pair raises it instead of selecting a branch. *)
Theorem truth_of_pairs :
  forall first second,
    py_truthy (Pair first second)
    = (if scheme_listp second then Ret true
       else Raise (SchemeError "length attempted on improper list" []))
    /\ forall native d test conseq alt env h h',
        scheme_eval native d test env h = (Ret (Pair first second), h') ->
        scheme_listp second = false ->
        scheme_eval native (S d) (if_form test conseq alt) env h
        = (Raise (SchemeError "length attempted on improper list" []), h').
Proof.
  intros first second.
  assert (Ht : py_truthy (Pair first second)
               = (if scheme_listp second then Ret true
                  else Raise
                         (SchemeError "length attempted on improper list" []))).
  { unfold py_truthy, py_len. rewrite pair_len_from_items.
    destruct (scheme_listp second); [|reflexivity].
    simpl. reflexivity. }
  split; [exact Ht|].
  intros native d test conseq alt env h h' Hev Hl.
  unfold if_form. rewrite scheme_eval_if by reflexivity.
  unfold bind at 1. unfold do_if_form, bind, lift. simpl.
  rewrite Hev, Ht, Hl. reflexivity.
Qed.

Lemma truth_of_pairs_witness :
  scheme_eval py_native 1 (quote_form (Pair (VInt 1) (VInt 2))) global_env
    initial_heap = (Ret (Pair (VInt 1) (VInt 2)), initial_heap)
  /\ scheme_eval py_native 2
       (if_form (quote_form (Pair (VInt 1) (VInt 2))) (VInt 1) (VInt 2))
       global_env initial_heap
     = (Raise (SchemeError "length attempted on improper list" []),
        initial_heap).
Proof.
  split; [reflexivity|].
  apply (proj2 (truth_of_pairs (VInt 1) (VInt 2)) py_native 1
           (quote_form (Pair (VInt 1) (VInt 2))) (VInt 1) (VInt 2)
           global_env initial_heap initial_heap);
    reflexivity.
Defined.

(** ** [append] and arithmetic *)

Lemma append_copy_scheme_list :
  forall l result, append_copy (scheme_list l) result = improper_list l result.
Proof.
  induction l as [|x l IH]; intros result; simpl; [reflexivity|].
  rewrite IH. reflexivity.
Qed.

Lemma improper_list_app :
  forall l1 l2 tail,
    improper_list (l1 ++ l2) tail = improper_list l1 (improper_list l2 tail).
Proof. intros. unfold improper_list. apply fold_right_app. Qed.

Lemma improper_list_NULL : forall l, improper_list l NULL = scheme_list l.
Proof. induction l as [|x l IH]; simpl; [reflexivity | rewrite IH; reflexivity]. Qed.

Lemma append_from_cons :
  forall i v rest,
    rest <> [] ->
    append_from i (v :: rest)
    = (result <-- append_from (i + 1) rest ;;;
       if scheme_nullp v then Ret result
       else
         (_ <-- check_type v is_pair i "append" ;;;
          Ret (append_copy v result)))%py.
Proof. intros i v [|y rest] H; [contradiction | reflexivity]. Qed.

Lemma append_from_lists :
  forall ls i x,
    append_from i (map scheme_list ls ++ [x])
    = Ret (improper_list (List.concat ls) x).
Proof.
  induction ls as [|l ls IH]; intros i x.
  - reflexivity.
  - simpl map. simpl app.
    rewrite append_from_cons by (destruct (map scheme_list ls); discriminate).
    rewrite IH. cbn [obind].
    simpl List.concat. rewrite improper_list_app.
    destruct l as [|a l]; [reflexivity|].
    simpl scheme_nullp. cbv iota. unfold check_type. simpl is_pair.
    cbn [obind].
    rewrite append_copy_scheme_list. reflexivity.
Qed.

(** X14: [append] concatenates.  Applied to well-formed lists it
    returns the list of all their items in order, the empty list for no
    argument; its last argument is taken as it is, list or not, and ends
    the result. *)
Theorem append_concatenates :
  forall ls,
    scheme_append (map scheme_list ls) = Ret (scheme_list (List.concat ls))
    /\ forall x,
        scheme_append (map scheme_list ls ++ [x])
        = Ret (improper_list (List.concat ls) x).
Proof.
  intros ls. split.
  - destruct ls as [|l ls] using rev_ind; [reflexivity|].
    rewrite map_app. simpl map. unfold scheme_append.
    rewrite append_from_lists, concat_app. simpl List.concat.
    rewrite app_nil_r.
    rewrite <- (improper_list_NULL l),
      <- (improper_list_NULL (List.concat ls ++ l)), improper_list_app.
    reflexivity.
  - intros x. apply append_from_lists.
Qed.

Lemma check_nums_ints :
  forall zs i, _check_nums i (map VInt zs) = Ret tt.
Proof. induction zs as [|z zs IH]; intros i; simpl; auto. Qed.

Lemma arith_loop_ints :
  forall fn zs a,
    arith_loop fn (VInt a) (map VInt zs) = Ret (VInt (fold_left fn zs a)).
Proof.
  intros fn zs. induction zs as [|z zs IH]; intros a; simpl; auto.
Qed.

(** X15: arithmetic on integers.  [+] and [*] of any number of integers
    are their sum and product (0 and 1 for none), [-] of one integer is
    its opposite, and [-] of more subtracts the others from the first,
    from left to right. *)
Theorem arithmetic_on_integers :
  forall zs a b,
    py_native "scheme_add" (map VInt zs) = Ret (VInt (sum_of zs))
    /\ py_native "scheme_mul" (map VInt zs) = Ret (VInt (product_of zs))
    /\ py_native "scheme_sub" [VInt a] = Ret (VInt (- a))
    /\ py_native "scheme_sub" (VInt a :: map VInt (b :: zs))
       = Ret (VInt (fold_left Z.sub (b :: zs) a)).
Proof.
  intros zs a b. repeat split.
  - change (py_native "scheme_add" (map VInt zs))
      with (_arith Z.add (VInt 0) (map VInt zs)).
    unfold _arith. rewrite check_nums_ints. cbn [obind].
    apply arith_loop_ints.
  - change (py_native "scheme_mul" (map VInt zs))
      with (_arith Z.mul (VInt 1) (map VInt zs)).
    unfold _arith. rewrite check_nums_ints. cbn [obind].
    apply arith_loop_ints.
  - change (py_native "scheme_sub" (VInt a :: map VInt (b :: zs)))
      with (_arith Z.sub (VInt a) (map VInt (b :: zs))).
    unfold _arith. rewrite check_nums_ints. cbn [obind].
    apply arith_loop_ints.
Qed.

Lemma check_nums_first_bad :
  forall nums bad rest i,
    forallb scheme_numberp nums = true ->
    scheme_numberp bad = false ->
    _check_nums i (nums ++ bad :: rest)
    = Raise (SchemeError "operand {0} ({1}) is not a number"
               [VInt (i + Z.of_nat (List.length nums)); bad]).
Proof.
  induction nums as [|n nums IH]; intros bad rest i Hn Hb; simpl.
  - rewrite Hb. simpl. rewrite Z.add_0_r. reflexivity.
  - simpl in Hn. apply andb_true_iff in Hn. destruct Hn as [H1 H2].
    rewrite H1. simpl. rewrite IH by assumption.
    do 4 f_equal. lia.
Qed.

(** X16: an operand that is not a number.  [+] and [*] refuse the first
    operand that is not a number with a [SchemeError] that carries its
    position and the operand.  [-] checks the operands after the first
    only, and counts the position from the second operand. *)
Theorem arithmetic_first_bad_operand :
  forall nums bad rest val0,
    forallb scheme_numberp nums = true ->
    scheme_numberp bad = false ->
    py_native "scheme_add" (nums ++ bad :: rest)
    = Raise (SchemeError "operand {0} ({1}) is not a number"
               [VInt (Z.of_nat (List.length nums)); bad])
    /\ py_native "scheme_mul" (nums ++ bad :: rest)
       = Raise (SchemeError "operand {0} ({1}) is not a number"
                  [VInt (Z.of_nat (List.length nums)); bad])
    /\ py_native "scheme_sub" (val0 :: nums ++ bad :: rest)
       = Raise (SchemeError "operand {0} ({1}) is not a number"
                  [VInt (Z.of_nat (List.length nums)); bad]).
Proof.
  intros nums bad rest val0 Hn Hb.
  pose proof (check_nums_first_bad nums bad rest 0 Hn Hb) as Hc.
  rewrite Z.add_0_l in Hc.
  repeat split.
  - change (py_native "scheme_add" (nums ++ bad :: rest))
      with (_arith Z.add (VInt 0) (nums ++ bad :: rest)).
    unfold _arith. rewrite Hc. reflexivity.
  - change (py_native "scheme_mul" (nums ++ bad :: rest))
      with (_arith Z.mul (VInt 1) (nums ++ bad :: rest)).
    unfold _arith. rewrite Hc. reflexivity.
  - assert (E : py_native "scheme_sub" (val0 :: nums ++ bad :: rest)
                = _arith Z.sub val0 (nums ++ bad :: rest)).
    { destruct nums; reflexivity. }
    rewrite E. unfold _arith. rewrite Hc. reflexivity.
Qed.

Lemma arithmetic_first_bad_operand_witness :
  py_native "scheme_add" ([VInt 1; VBool true] ++ VStr "a" :: [VInt 2])
  = Raise (SchemeError "operand {0} ({1}) is not a number"
             [VInt 2; VStr "a"])
  /\ py_native "scheme_sub" (VInt 5 :: [] ++ VStr "a" :: [])
     = Raise (SchemeError "operand {0} ({1}) is not a number"
                [VInt 0; VStr "a"]).
Proof.
  split.
  - apply (proj1 (arithmetic_first_bad_operand [VInt 1; VBool true]
                    (VStr "a") [VInt 2] NULL eq_refl eq_refl)).
  - apply (proj2 (proj2 (arithmetic_first_bad_operand [] (VStr "a") []
                           (VInt 5) eq_refl eq_refl))).
Defined.

(** ** Formal parameter lists *)

Lemma check_formals_loop_last :
  forall l args first x y tail tail',
    is_pair tail = false -> is_pair tail' = false ->
    check_formals_loop args first (improper_list (l ++ [x]) tail)
    = check_formals_loop args first (improper_list (l ++ [y]) tail').
Proof.
  induction l as [|z l IH]; intros args first x y tail tail' Ht Ht'.
  - simpl.
    destruct (is_pair first); [reflexivity|].
    destruct (scheme_symbolp first && existsb (py_eq first) args);
      [reflexivity|].
    destruct (scheme_symbolp first && scheme_numberp first); [reflexivity|].
    destruct (list_iadd args first) as [args'|e]; [|reflexivity].
    simpl. destruct tail; try discriminate Ht;
      destruct tail'; try discriminate Ht'; reflexivity.
  - simpl.
    destruct (is_pair first); [reflexivity|].
    destruct (scheme_symbolp first && existsb (py_eq first) args);
      [reflexivity|].
    destruct (scheme_symbolp first && scheme_numberp first); [reflexivity|].
    destruct (list_iadd args first) as [args'|e]; [|reflexivity].
    simpl. apply IH; assumption.
Qed.

Lemma check_formals_loop_not_number :
  forall second args first,
    check_formals_loop args first second
    <> Raise (SchemeError "formal arguments cannot be number" []).
Proof.
  induction second; intros args first; simpl; try discriminate.
  destruct first; simpl; try discriminate;
    try (destruct (existsb _ args); [discriminate|]);
    unfold list_iadd; simpl; try discriminate; apply IHsecond2.
Qed.

(** X17: what [check_formals] does not check.  The last formal of a
    parameter list is never examined: two lists that differ in their last
    item and in what follows it are accepted or refused alike.  And no
    parameter list that is a pair is ever refused with "formal arguments
    cannot be number". *)
Theorem check_formals_ignores_last :
  forall l x y tail tail',
    (is_pair tail = false -> is_pair tail' = false ->
     check_formals (improper_list (l ++ [x]) tail)
     = check_formals (improper_list (l ++ [y]) tail'))
    /\ check_formals (improper_list (x :: l) tail)
       <> Raise (SchemeError "formal arguments cannot be number" []).
Proof.
  intros l x y tail tail'. split.
  - intros Ht Ht'. destruct l as [|z l].
    + simpl. destruct tail; try discriminate Ht;
        destruct tail'; try discriminate Ht'; reflexivity.
    + simpl. apply check_formals_loop_last; assumption.
  - simpl. apply check_formals_loop_not_number.
Qed.

Lemma check_formals_ignores_last_witness :
  check_formals (improper_list ([VStr "a"] ++ [VStr "a"]) NULL)
  = check_formals (improper_list ([VStr "a"] ++ [VStr "b"]) (VStr "c")).
Proof.
  apply (proj1 (check_formals_ignores_last [VStr "a"] (VStr "a") (VStr "b")
                  NULL (VStr "c"))); reflexivity.
Defined.

Lemma check_formals_loop_symbol :
  forall args n first' second',
    check_formals_loop args (VStr n) (Pair first' second')
    = if existsb (py_eq (VStr n)) args then
        Raise (SchemeError "formal arguments cannot have the same name" [])
      else check_formals_loop (args ++ str_chars n) first' second'.
Proof.
  intros. cbn [check_formals_loop]. simpl is_pair. simpl scheme_symbolp.
  cbv iota. simpl andb.
  destruct (existsb (py_eq (VStr n)) args); reflexivity.
Qed.

Lemma long_name_not_char :
  forall n chars,
    2 <= String.length n ->
    existsb (py_eq (VStr n)) (map char_str chars) = false.
Proof.
  intros n chars Hn. induction chars as [|c chars IH]; [reflexivity|].
  simpl. rewrite IH, orb_false_r.
  destruct n as [|a [|b n]]; simpl in Hn; try lia.
  unfold py_eq, char_str. simpl.
  destruct (Ascii.eqb a c); reflexivity.
Qed.

Lemma check_formals_loop_long_names :
  forall names chars n last,
    2 <= String.length n ->
    forallb (fun m => Nat.leb 2 (String.length m)) names = true ->
    check_formals_loop (map char_str chars) (VStr n)
      (scheme_list (map VStr names ++ [last]))
    = Ret tt.
Proof.
  induction names as [|m names IH]; intros chars n last Hn Hall.
  - simpl app. simpl scheme_list. rewrite check_formals_loop_symbol.
    rewrite long_name_not_char by assumption. reflexivity.
  - cbn [forallb] in Hall. apply andb_true_iff in Hall. destruct Hall as [Hm Hall].
    apply Nat.leb_le in Hm.
    simpl map. simpl app. simpl scheme_list.
    rewrite check_formals_loop_symbol.
    rewrite long_name_not_char by assumption.
    unfold str_chars. rewrite <- map_app. apply IH; assumption.
Qed.

Lemma check_formals_loop_seen :
  forall names args n0 last s,
    In s (n0 :: names) ->
    existsb (py_eq (VStr s)) args = true ->
    check_formals_loop args (VStr n0) (scheme_list (map VStr names ++ [last]))
    = Raise (SchemeError "formal arguments cannot have the same name" []).
Proof.
  induction names as [|m names IH]; intros args n0 last s Hin Hs.
  - destruct Hin as [->|[]]. simpl app. simpl scheme_list.
    rewrite check_formals_loop_symbol, Hs. reflexivity.
  - simpl map. simpl app. simpl scheme_list.
    rewrite check_formals_loop_symbol.
    destruct (existsb (py_eq (VStr n0)) args) eqn:E; [reflexivity|].
    destruct Hin as [->|Hin]; [congruence|].
    apply (IH _ _ _ s); [assumption|].
    rewrite existsb_app, Hs. reflexivity.
Qed.

Lemma char_in_str_chars :
  forall c n,
    In c (list_ascii_of_string n) ->
    existsb (py_eq (VStr (String c ""))) (str_chars n) = true.
Proof.
  intros c n Hin. apply existsb_exists. exists (char_str c). split.
  - unfold str_chars. apply in_map. assumption.
  - unfold py_eq, char_str. simpl. rewrite Ascii.eqb_refl. reflexivity.
Qed.

Lemma check_formals_loop_later_char :
  forall pre args h t n mid c post last,
    In c (list_ascii_of_string n) ->
    h :: t = pre ++ n :: mid ++ String c "" :: post ->
    check_formals_loop args (VStr h) (scheme_list (map VStr t ++ [last]))
    = Raise (SchemeError "formal arguments cannot have the same name" []).
Proof.
  induction pre as [|p pre IH]; intros args h t n mid c post last Hc E.
  - simpl in E. injection E as -> ->.
    destruct (mid ++ String c "" :: post) as [|m0 ms] eqn:Em.
    { destruct mid; discriminate Em. }
    simpl map. simpl app. simpl scheme_list.
    rewrite check_formals_loop_symbol.
    destruct (existsb (py_eq (VStr n)) args); [reflexivity|].
    apply (check_formals_loop_seen _ _ _ _ (String c "")).
    + rewrite <- Em. apply in_or_app. right. left. reflexivity.
    + rewrite existsb_app, (char_in_str_chars c n Hc). apply orb_true_r.
  - simpl in E. injection E as -> ->.
    destruct (pre ++ n :: mid ++ String c "" :: post) as [|h' t'] eqn:Ep.
    { destruct pre; discriminate Ep. }
    simpl map. simpl app. simpl scheme_list.
    rewrite check_formals_loop_symbol.
    destruct (existsb (py_eq (VStr p)) args); [reflexivity|].
    apply (IH _ _ _ n mid c post); [assumption | symmetry; exact Ep].
Qed.

(** X18: distinct names are compared by their characters.  The names
    seen so far are kept as the list of their characters, so a list of
    formals whose names all have two characters or more is accepted
    whatever names it repeats, and a one-character formal that occurs as
    a character in an earlier formal is refused as a repeated name (when
    it is not the last formal). *)
Theorem check_formals_compares_characters :
  forall last,
    (forall names,
        forallb (fun m => Nat.leb 2 (String.length m)) names = true ->
        check_formals (scheme_list (map VStr names ++ [last])) = Ret tt)
    /\ (forall pre n mid c post,
           In c (list_ascii_of_string n) ->
           check_formals
             (scheme_list
                (map VStr (pre ++ n :: mid ++ String c "" :: post) ++ [last]))
           = Raise
               (SchemeError "formal arguments cannot have the same name" [])).
Proof.
  intros last. split.
  - intros [|n names] Hall; [reflexivity|].
    cbn [forallb] in Hall. apply andb_true_iff in Hall. destruct Hall as [Hn Hall].
    apply Nat.leb_le in Hn.
    simpl. apply (check_formals_loop_long_names names [] n last); assumption.
  - intros pre n mid c post Hc.
    destruct (pre ++ n :: mid ++ String c "" :: post) as [|h t] eqn:E.
    { destruct pre; discriminate E. }
    simpl. apply (check_formals_loop_later_char pre [] h t n mid c post last);
      [assumption | symmetry; exact E].
Qed.

Lemma check_formals_compares_characters_witness :
  check_formals (scheme_list (map VStr ["xs"; "xs"; "ys"] ++ [VStr "k"]))
  = Ret tt
  /\ check_formals
       (scheme_list
          (map VStr ([] ++ "xs" :: [] ++ String "x" "" :: []) ++ [VStr "k"]))
     = Raise (SchemeError "formal arguments cannot have the same name" []).
Proof.
  split.
  - apply (proj1 (check_formals_compares_characters (VStr "k"))).
    reflexivity.
  - apply (proj2 (check_formals_compares_characters (VStr "k"))
             [] "xs" [] "x"%char []).
    simpl. left. reflexivity.
Defined.

(** ** [let] *)

Lemma scheme_eval_let :
  forall native d rest env h,
    scheme_listp rest = true ->
    scheme_eval native (S d) (Pair (VStr "let") rest) env h
    = ('(e, env') <- do_let_form (scheme_eval native d) rest env ;;
       scheme_eval native d e env') h.
Proof.
  intros native d rest env h Hl. simpl. unfold eval_step. simpl.
  rewrite Hl. reflexivity.
Qed.

Lemma zip_bind_bind_all :
  forall keys vals d,
    zip_bind d keys None vals None = Ret (bind_all d (combine keys vals)).
Proof.
  induction keys as [|k keys IH]; intros vals d; [reflexivity|].
  destruct vals as [|v vals]; [reflexivity|]. simpl. apply IH.
Qed.

Lemma let_bindings_eval_args :
  forall (ev : evalT) env bs names vals h,
    let_bindings ev env (map (fun b => scheme_list [fst b; snd b]) bs) None
      names vals h
    = (vs <- eval_args ev env (map snd bs) ;;
       ret (names ++ map fst bs, vals ++ vs)) h.
Proof.
  intros ev env bs. induction bs as [|[n e] bs IH]; intros names vals h.
  - simpl. unfold bind, ret. rewrite !app_nil_r. reflexivity.
  - rewrite !map_cons.
    change (scheme_list [fst (n, e); snd (n, e)]) with (Pair n (Pair e NULL)).
    cbn [let_bindings eval_args fst snd].
    unfold bind at 1, lift at 1. cbn [get_first].
    unfold bind at 1, lift at 1. cbn [get_second].
    unfold bind at 1, lift at 1. cbn [get_first].
    unfold bind.
    destruct (ev e env h) as [[v|err] h1]; [|reflexivity].
    rewrite IH. unfold bind.
    destruct (eval_args ev env (map snd bs) h1) as [[vs|err] h2];
      [|reflexivity].
    unfold ret. rewrite <- !app_assoc. reflexivity.
Qed.

Lemma bind_bind :
  forall A B C (c : M A) (k : A -> M B) (k' : B -> M C) h,
    bind (bind c k) k' h = bind c (fun a => bind (k a) k') h.
Proof.
  intros. unfold bind. destruct (c h) as [[a|e] h1]; reflexivity.
Qed.

Lemma bind_ret :
  forall A B (a : A) (k : A -> M B) h, bind (ret a) k h = k a h.
Proof. reflexivity. Qed.

Lemma bind_lift_Ret :
  forall A B (a : A) (k : A -> M B) h, bind (lift (Ret a)) k h = k a h.
Proof. reflexivity. Qed.

Lemma bind_cong :
  forall A B (c : M A) (k k' : A -> M B) h,
    (forall a h', k a h' = k' a h') -> bind c k h = bind c k' h.
Proof.
  intros A B c k k' h H. unfold bind.
  destruct (c h) as [[a|e] h1]; [apply H | reflexivity].
Qed.

Lemma bind_cong_l :
  forall A B (c c' : M A) (k : A -> M B) h,
    c h = c' h -> bind c k h = bind c' k h.
Proof. intros A B c c' k h H. unfold bind. rewrite H. reflexivity. Qed.

Lemma eval_all_but_last_from :
  forall (ev : evalT) env front pre last h,
    for_range (List.length front) (List.length pre)
      (fun i =>
         e <- lift (py_getitem (scheme_list (front ++ pre ++ [last])) i) ;;
         ev e env ;; ret tt) h
    = eval_each ev pre env h.
Proof.
  intros ev env front pre last. revert front.
  induction pre as [|e pre IH]; intros front h; [reflexivity|].
  cbn [List.length for_range eval_each].
  rewrite bind_bind.
  rewrite (py_getitem_scheme_list _ _ e)
    by (rewrite nth_error_app2 by lia; rewrite Nat.sub_diag; reflexivity).
  rewrite bind_lift_Ret, bind_bind.
  apply bind_cong. intros v h1. rewrite bind_ret.
  specialize (IH (front ++ [e]) h1).
  rewrite length_app in IH. simpl List.length in IH.
  rewrite Nat.add_1_r in IH. rewrite <- app_assoc in IH. exact IH.
Qed.

(** X19: [let] binds in parallel.  The value expressions of the bindings
    are evaluated from left to right in the frame of the [let] itself;
    then one new frame, a child of that frame, binds every name to its
    value; the body expressions before the last are evaluated in the new
    frame for effect, and the value of the last, evaluated there too, is
    the value of the form.  An error in a value expression ends the form
    before the frame is made. *)
Theorem let_parallel_scoping :
  forall native d env bs pre last h,
    scheme_eval native (S d) (let_form bs (pre ++ [last])) env h
    = (vs <- eval_args (scheme_eval native d) env (map snd bs) ;;
       new_env <- new_frame
                    (mkFrame (bind_all [] (combine (map fst bs) vs))
                       (Some env)) ;;
       eval_each (scheme_eval native d) pre new_env ;;
       scheme_eval native d last new_env) h.
Proof.
  intros native d env bs pre last h.
  unfold let_form.
  rewrite scheme_eval_let by (simpl; apply scheme_listp_scheme_list).
  set (ev := scheme_eval native d).
  set (bindings := scheme_list (map (fun b => scheme_list [fst b; snd b]) bs)).
  assert (Hcf : check_form (Pair bindings (scheme_list (pre ++ [last]))) 2 None
                = Ret tt).
  { unfold check_form. cbn [scheme_listp py_len].
    rewrite scheme_listp_scheme_list, pair_len_from_scheme_list.
    rewrite length_app. simpl List.length. cbn [negb obind].
    replace (Nat.ltb (1 + (List.length pre + 1)) 2) with false
      by (symmetry; apply Nat.ltb_ge; lia).
    reflexivity. }
  unfold do_let_form.
  rewrite bind_bind, Hcf, bind_lift_Ret.
  rewrite bind_bind. cbn [py_getitem pair_getitem]. rewrite bind_lift_Ret.
  rewrite bind_bind. cbn [get_second]. rewrite bind_lift_Ret.
  unfold bindings at 1. rewrite scheme_listp_scheme_list. cbn [negb].
  unfold bindings. rewrite py_iter_scheme_list. cbn [fst snd].
  rewrite bind_bind.
  rewrite (bind_cong_l _ _ _ _ _ _ (let_bindings_eval_args ev env bs [] [] h)).
  rewrite bind_bind. apply bind_cong. intros vs h1.
  rewrite bind_ret. cbn [app].
  unfold make_call_frame, call_frame_inner, seq_len, seq_iter.
  rewrite zip_bind_bind_all, !not_iterable_none.
  rewrite !bind_bind, bind_lift_Ret.
  apply bind_cong. intros new_env h2.
  rewrite bind_bind, py_len_scheme_list, bind_lift_Ret.
  rewrite length_app. simpl List.length.
  replace (List.length pre + 1 - 1) with (List.length pre) by lia.
  rewrite bind_bind. unfold eval_all_but_last.
  rewrite (bind_cong_l _ _ _ _ _ _
             (eval_all_but_last_from ev new_env [] pre last h2)).
  apply bind_cong. intros [] h3.
  rewrite bind_bind.
  rewrite (py_getitem_scheme_list _ _ last)
    by (rewrite nth_error_app2 by lia; rewrite Nat.sub_diag; reflexivity).
  rewrite bind_lift_Ret, bind_ret. reflexivity.
Qed.

(** ** Procedure calls *)

Lemma pair_map_eval_args :
  forall (ev : evalT) env args h,
    pair_map (fun operand => ev operand env) (scheme_list args) h
    = (vs <- eval_args ev env args ;; ret (scheme_list vs)) h.
Proof.
  intros ev env args. induction args as [|a args IH]; intros h.
  - reflexivity.
  - cbn [scheme_list pair_map eval_args].
    rewrite bind_bind. apply bind_cong. intros v h1.
    assert (E : forall k : M value,
               match scheme_list args with
               | NULL | Pair _ _ => k
               | _ => raise (SchemeError "ill-formed list" [])
               end = k).
    { intros k. destruct args; reflexivity. }
    rewrite E. rewrite (bind_cong_l _ _ _ _ _ _ (IH h1)).
    rewrite !bind_bind. apply bind_cong. intros vs h2.
    rewrite !bind_ret. reflexivity.
Qed.

Lemma is_special_logic_form :
  forall (ev : evalT) first,
    is_special first = false -> logic_form ev first = None.
Proof.
  intros ev first H. destruct first; try reflexivity.
  unfold is_special in H. cbn [special_forms map existsb] in H.
  unfold py_eq in H. cbn [as_int value_eqb] in H.
  unfold logic_form, LOGIC_FORMS. cbn [assoc_str].
  repeat match type of H with
         | (String.eqb s ?k || _) = false =>
             apply orb_false_iff in H; destruct H as [E H];
             try rewrite (String.eqb_sym k s), E; clear E
         end.
  reflexivity.
Qed.

(** X20: the order of evaluation in a call.  A combination whose first
    item is not the name of a special form evaluates the operator first,
    then the operands from left to right, all in the frame of the call,
    and applies the value of the operator to the list of the values; the
    first error ends the call. *)
Theorem call_evaluation_order :
  forall native d f args env h,
    is_special f = false ->
    scheme_eval native (S d) (Pair f (scheme_list args)) env h
    = (procedure <- scheme_eval native d f env ;;
       vs <- eval_args (scheme_eval native d) env args ;;
       scheme_apply native d procedure (scheme_list vs) env) h.
Proof.
  intros native d f args env h Hs.
  change (scheme_eval native (S d) (Pair f (scheme_list args)) env h)
    with (eval_step (scheme_eval native d) (scheme_apply native d)
            (Pair f (scheme_list args)) env h).
  set (ev := scheme_eval native d). set (ap := scheme_apply native d).
  unfold eval_step. cbn [scheme_atomp scheme_booleanp scheme_numberp
                           scheme_symbolp scheme_nullp scheme_listp].
  rewrite scheme_listp_scheme_list. cbn [negb get_first get_second].
  rewrite !bind_lift_Ret.
  rewrite (is_special_logic_form ev f Hs).
  unfold is_special in Hs. cbn [special_forms map existsb] in Hs.
  repeat (apply orb_false_iff in Hs; destruct Hs as [? Hs]).
  repeat match goal with
         | E : py_eq f (VStr ?k) = false |- context [py_eq f (VStr ?k)] =>
             rewrite E
         end.
  apply bind_cong. intros procedure h1.
  rewrite (bind_cong_l _ _ _ _ _ _ (pair_map_eval_args ev env args h1)).
  rewrite bind_bind. apply bind_cong. intros vs h2.
  rewrite bind_ret. reflexivity.
Qed.

Lemma call_evaluation_order_witness :
  is_special (VStr "+") = false
  /\ scheme_eval py_native 3
       (Pair (VStr "+") (scheme_list [VInt 1; VInt 2])) global_env initial_heap
     = (procedure <- scheme_eval py_native 2 (VStr "+") global_env ;;
        vs <- eval_args (scheme_eval py_native 2) global_env [VInt 1; VInt 2] ;;
        scheme_apply py_native 2 procedure (scheme_list vs) global_env)
         initial_heap.
Proof.
  split; [reflexivity|].
  apply (call_evaluation_order py_native 2 (VStr "+") [VInt 1; VInt 2]
           global_env initial_heap).
  reflexivity.
Defined.

(** ** Reading what was written *)

Lemma readable_atom :
  forall e,
    readable e = true -> is_pair e = false ->
    scheme_atomp e && negb (DELIMITERS e) = true
    /\ py_eq e (VStr ")") = false /\ py_eq e (VStr ".") = false.
Proof.
  intros e Hr Hp. destruct e; try discriminate Hr; try discriminate Hp;
    try (repeat split; reflexivity).
  simpl in Hr. apply negb_true_iff in Hr.
  split; [simpl; rewrite Hr; reflexivity|].
  unfold DELIMITERS in Hr. cbn [existsb] in Hr.
  apply orb_false_iff in Hr. destruct Hr as [_ Hr].
  apply orb_false_iff in Hr. destruct Hr as [H1 Hr].
  apply orb_false_iff in Hr. destruct Hr as [_ Hr].
  apply orb_false_iff in Hr. destruct Hr as [H2 _].
  split; assumption.
Qed.

Lemma tokens_of_head :
  forall e,
    readable e = true ->
    exists t r,
      tokens_of e = t :: r
      /\ py_eq t (VStr ")") = false /\ py_eq t (VStr ".") = false.
Proof.
  intros e Hr. destruct e; try discriminate Hr;
    try (eexists; eexists; repeat split; reflexivity).
  destruct (readable_atom (VStr s) Hr eq_refl) as [_ [H1 H2]].
  exists (VStr s), []. repeat split; assumption.
Qed.

Lemma tokens_of_length : forall e, 1 <= List.length (tokens_of e).
Proof. destruct e; simpl; lia. Qed.

Lemma tail_tokens_length : forall e, 1 <= List.length (tail_tokens e).
Proof.
  destruct e; cbn [tail_tokens]; try (simpl; lia).
  rewrite length_app. pose proof (tokens_of_length e1). lia.
Qed.

Lemma read_tail_atom :
  forall e d rest,
    readable e = true -> is_pair e = false -> scheme_nullp e = false ->
    read_tail (3 + d) (VStr "." :: e :: VStr ")" :: rest) = (Ret e, rest).
Proof.
  intros e d rest Hr Hp Hn.
  destruct (readable_atom e Hr Hp) as [Ha [H1 H2]].
  change (3 + d) with (S (S (S d))).
  rewrite read_tail_S. cbn [current pop].
  change (py_eq (VStr ".") (VStr ")")) with false.
  change (py_eq (VStr ".") (VStr ".")) with true. cbv iota.
  rewrite read_tail_S. cbn [current pop]. rewrite H1, H2.
  rewrite scheme_read_S. cbn [current pop]. rewrite Ha.
  rewrite read_tail_S. cbn [current pop].
  change (py_eq (VStr ")") (VStr ")")) with true. cbv iota.
  reflexivity.
Qed.

(** Reading inverts writing, for an expression and for the rest of a
    list. *)
Lemma read_tokens_of :
  forall e,
    readable e = true ->
    (forall d rest,
        List.length (tokens_of e) <= d ->
        scheme_read d (tokens_of e ++ rest) = (Ret e, rest))
    /\ (forall d rest,
           List.length (tail_tokens e) <= d ->
           read_tail d (tail_tokens e ++ rest) = (Ret e, rest)).
Proof.
  induction e; intros Hr; try discriminate Hr.
  - (* booleans *)
    split; intros d rest Hd.
    + destruct d as [|d]; [simpl in Hd; lia|]. reflexivity.
    + simpl in Hd. destruct d as [|[|[|d]]]; try lia.
      apply (read_tail_atom (VBool b) d rest); reflexivity.
  - (* integers *)
    split; intros d rest Hd.
    + destruct d as [|d]; [simpl in Hd; lia|]. reflexivity.
    + simpl in Hd. destruct d as [|[|[|d]]]; try lia.
      apply (read_tail_atom (VInt z) d rest); reflexivity.
  - (* symbols *)
    destruct (readable_atom (VStr s) Hr eq_refl) as [Ha _].
    split; intros d rest Hd.
    + destruct d as [|d]; [simpl in Hd; lia|].
      cbn [tokens_of app]. rewrite scheme_read_S. cbn [current pop].
      rewrite Ha. reflexivity.
    + simpl in Hd. destruct d as [|[|[|d]]]; try lia.
      apply (read_tail_atom (VStr s) d rest); [assumption|reflexivity..].
  - (* the empty list *)
    split; intros d rest Hd.
    + destruct d as [|d]; [simpl in Hd; lia|]. reflexivity.
    + destruct d as [|d]; [simpl in Hd; lia|]. reflexivity.
  - (* pairs *)
    simpl in Hr. apply andb_true_iff in Hr. destruct Hr as [Hr1 Hr2].
    destruct (IHe1 Hr1) as [P1 _]. destruct (IHe2 Hr2) as [_ Q2].
    assert (Q : forall d rest,
               List.length (tail_tokens (Pair e1 e2)) <= d ->
               read_tail d (tail_tokens (Pair e1 e2) ++ rest)
               = (Ret (Pair e1 e2), rest)).
    { intros d rest Hd. cbn [tail_tokens] in *. rewrite length_app in Hd.
      pose proof (tail_tokens_length e2) as L2.
      pose proof (tokens_of_length e1) as L1.
      destruct d as [|d]; [lia|].
      rewrite read_tail_S.
      destruct (tokens_of_head e1 Hr1) as [t [r [Et [H1 H2]]]].
      rewrite <- app_assoc.
      assert (Ec : current (tokens_of e1 ++ tail_tokens e2 ++ rest) = Some t)
        by (rewrite Et; reflexivity).
      rewrite Ec, H1, H2.
      rewrite P1 by lia. rewrite Q2 by lia. reflexivity. }
    split; [|exact Q].
    intros d rest Hd. cbn [tokens_of] in Hd. simpl List.length in Hd.
    destruct d as [|d]; [lia|].
    cbn [tokens_of app]. rewrite scheme_read_S. cbn [current pop].
    change (scheme_atomp (VStr "(") && negb (DELIMITERS (VStr "("))) with false.
    change (py_eq (VStr "(") (VStr "'")) with false.
    change (py_eq (VStr "(") (VStr "(")) with true. cbv iota.
    apply Q. cbn [tail_tokens]. lia.
Qed.

(** X21: reading inverts writing.  For every datum made of booleans,
    integers, symbols, the empty list and pairs, [scheme_read] on the
    tokens of its written form, followed by any tokens, returns the datum
    and leaves exactly the tokens that follow; a recursion depth of the
    number of tokens is enough. *)
Theorem read_inverts_write :
  forall e d rest,
    readable e = true ->
    List.length (tokens_of e) <= d ->
    scheme_read d (tokens_of e ++ rest) = (Ret e, rest).
Proof.
  intros e d rest Hr Hd. apply (proj1 (read_tokens_of e Hr)). assumption.
Qed.

Lemma read_inverts_write_witness :
  scheme_read 9
    (tokens_of (Pair (VStr "a") (Pair (ints [1; 2]%Z) (VStr "b")))
     ++ [VStr "c"])
  = (Ret (Pair (VStr "a") (Pair (ints [1; 2]%Z) (VStr "b"))), [VStr "c"]).
Proof.
  apply (read_inverts_write
           (Pair (VStr "a") (Pair (ints [1; 2]%Z) (VStr "b"))) 9 [VStr "c"]).
  - reflexivity.
  - simpl. lia.
Defined.

Lemma read_tail_unclosed :
  forall items d,
    forallb readable items = true ->
    List.length (List.concat (map tokens_of items)) < d ->
    read_tail d (List.concat (map tokens_of items))
    = (Raise (SchemeError "unexpected end of file" []), []).
Proof.
  induction items as [|x items IH]; intros d Hr Hd.
  - destruct d as [|d]; [simpl in Hd; lia|]. reflexivity.
  - cbn [forallb] in Hr. apply andb_true_iff in Hr. destruct Hr as [Hx Hr].
    cbn [map List.concat] in *. rewrite length_app in Hd.
    pose proof (tokens_of_length x) as Lx.
    destruct d as [|d]; [lia|].
    rewrite read_tail_S.
    destruct (tokens_of_head x Hx) as [t [r [Et [H1 H2]]]].
    assert (Ec : current (tokens_of x ++ List.concat (map tokens_of items))
                 = Some t) by (rewrite Et; reflexivity).
    rewrite Ec, H1, H2.
    rewrite (proj1 (read_tokens_of x Hx)) by lia.
    rewrite IH by (assumption || lia). reflexivity.
Qed.

(** X22: a list that is not closed.  When the input ends inside a list,
    after an opening parenthesis and any number of complete items,
    [scheme_read] raises the [SchemeError] "unexpected end of file" and
    has consumed all the input. *)
Theorem read_unclosed_list :
  forall items d,
    forallb readable items = true ->
    List.length (List.concat (map tokens_of items)) + 1 < d ->
    scheme_read d (VStr "(" :: List.concat (map tokens_of items))
    = (Raise (SchemeError "unexpected end of file" []), []).
Proof.
  intros items d Hr Hd. destruct d as [|d]; [lia|].
  rewrite scheme_read_S. cbn [current pop].
  change (scheme_atomp (VStr "(") && negb (DELIMITERS (VStr "("))) with false.
  change (py_eq (VStr "(") (VStr "'")) with false.
  change (py_eq (VStr "(") (VStr "(")) with true. cbv iota.
  apply read_tail_unclosed; [assumption | lia].
Qed.

Lemma read_unclosed_list_witness :
  scheme_read 6
    (VStr "(" :: List.concat (map tokens_of [VStr "a"; ints [1]%Z]))
  = (Raise (SchemeError "unexpected end of file" []), []).
Proof.
  apply (read_unclosed_list [VStr "a"; ints [1]%Z] 6).
  - reflexivity.
  - simpl. lia.
Defined.

(** ** Sessions *)

Lemma readable_not_EOF : forall e, readable e = true -> e <> EOF.
Proof. intros e H ->. discriminate H. Qed.

Lemma read_eval_print_forms :
  forall native d es n env h,
    0 < d ->
    forallb readable es = true ->
    (forall e, In e es -> List.length (tokens_of e) <= d) ->
    List.length es < n ->
    read_eval_print native n d (List.concat (map tokens_of es)) env h
    = session native d es env h.
Proof.
  intros native d es. induction es as [|e es IH]; intros n env h H0 Hr Hd Hn.
  - destruct n as [|n]; [simpl in Hn; lia|].
    cbn [map List.concat read_eval_print session].
    destruct d; [lia | reflexivity].
  - cbn [forallb] in Hr. apply andb_true_iff in Hr. destruct Hr as [He Hr].
    simpl List.length in Hn. destruct n as [|n]; [lia|].
    cbn [map List.concat read_eval_print session].
    rewrite (proj1 (read_tokens_of e He)) by (apply Hd; left; reflexivity).
    assert (IH' : forall h',
               read_eval_print native n d (List.concat (map tokens_of es))
                 env h'
               = session native d es env h').
    { intros h'. apply IH; [assumption | assumption | | lia].
      intros e' Hin. apply Hd. right. assumption. }
    destruct e; try discriminate He;
      destruct (scheme_eval native d _ env h) as [[val|[]] h'];
      rewrite ?IH'; reflexivity.
Qed.

(** X23: a session is the evaluation of its forms in order.  On the
    written form of a sequence of data, the read-eval-print loop
    evaluates each datum in turn in the same frame, each in the store
    its predecessor left; a [SchemeError] is reported and the loop goes
    on with the next form, and an exception of any other class ends the
    loop. *)
Theorem repl_evaluates_forms_in_order :
  forall native d es n env h,
    0 < d ->
    forallb readable es = true ->
    forallb (fun e => Nat.leb (List.length (tokens_of e)) d) es = true ->
    List.length es < n ->
    read_eval_print native n d (List.concat (map tokens_of es)) env h
    = session native d es env h.
Proof.
  intros native d es n env h H0 Hr Hd Hn.
  apply read_eval_print_forms; try assumption.
  intros e Hin. rewrite forallb_forall in Hd.
  apply Nat.leb_le. apply Hd. assumption.
Qed.

Lemma repl_evaluates_forms_in_order_witness :
  read_eval_print py_native 3 5
    (List.concat
       (map tokens_of
          [scheme_list [VStr "define"; VStr "x"; VInt 1]; VStr "x"]))
    global_env initial_heap
  = session py_native 5
      [scheme_list [VStr "define"; VStr "x"; VInt 1]; VStr "x"]
      global_env initial_heap.
Proof.
  apply (repl_evaluates_forms_in_order py_native 5
           [scheme_list [VStr "define"; VStr "x"; VInt 1]; VStr "x"] 3
           global_env initial_heap).
  - lia.
  - reflexivity.
  - reflexivity.
  - simpl. lia.
Defined.

(** ** The tokens of a line *)

Lemma classify_token_ok :
  forall text t, classify text = Ret (Some t) -> token_ok t = true.
Proof.
  intros text t H. unfold classify in H.
  destruct (DELIMITERS (VStr text)) eqn:Ed.
  { injection H as <-. simpl. rewrite Ed. reflexivity. }
  destruct (String.eqb text "+" || String.eqb text "-") eqn:Ep.
  { injection H as <-. cbn [token_ok]. rewrite Ed.
    apply orb_true_iff in Ep. destruct Ep as [-> | ->];
      rewrite ?orb_true_r; reflexivity. }
  destruct (String.eqb text "#t" || String.eqb (lower text) "true").
  { injection H as <-. reflexivity. }
  destruct (String.eqb text "#f" || String.eqb (lower text) "false").
  { injection H as <-. reflexivity. }
  destruct (String.eqb text "nil").
  { injection H as <-. reflexivity. }
  destruct text as [|c r]; [discriminate H|].
  destruct (_NUMERAL_STARTS c).
  { destruct (py_int (String c r)); [|discriminate H].
    injection H as <-. reflexivity. }
  destruct (_SYMBOL_STARTS c && valid_symbol (String c r)) eqn:Es;
    [|discriminate H].
  injection H as <-. cbn [token_ok].
  apply andb_true_iff in Es. destruct Es as [_ ->].
  rewrite !orb_true_r. reflexivity.
Qed.

Lemma tokenize_loop_token_ok :
  forall n line result toks,
    forallb token_ok result = true ->
    tokenize_loop n line result = Ret toks ->
    forallb token_ok toks = true.
Proof.
  induction n as [|n IH]; intros line result toks Hr H.
  - simpl in H. destruct (_next_candidate_token line) as [[text|] rest];
      [discriminate H|]. injection H as <-. assumption.
  - cbn [tokenize_loop] in H.
    destruct (_next_candidate_token line) as [[text|] rest].
    + destruct (classify text) as [[t|]|e] eqn:Ec; cbn [obind] in H.
      * apply (IH rest (result ++ [t]) toks); [|assumption].
        rewrite forallb_app, Hr. simpl.
        rewrite (classify_token_ok text t Ec). reflexivity.
      * apply (IH rest result toks); assumption.
      * discriminate H.
    + injection H as <-. assumption.
Qed.

Lemma span_token_length :
  forall line,
    String.length (snd (span_token line)) <= String.length line.
Proof.
  induction line as [|c r IH]; [simpl; lia|].
  cbn [span_token]. destruct (_TOKEN_END c); [simpl; lia|].
  destruct (span_token r) as [t rest]. simpl in *. lia.
Qed.

(** A candidate is not empty and takes at least one character of the
    line. *)
Lemma next_candidate_some :
  forall line text rest,
    _next_candidate_token line = (Some text, rest) ->
    text <> EmptyString /\ String.length rest < String.length line.
Proof.
  induction line as [|c r IH]; intros text rest H; [discriminate H|].
  cbn [_next_candidate_token] in H.
  destruct (Ascii.eqb c ";"); [discriminate H|].
  destruct (_WHITESPACE c) eqn:Hw.
  { destruct (IH text rest H) as [H1 H2]. split; [assumption | simpl; lia]. }
  destruct (_SINGLE_CHAR_TOKENS c) eqn:Hs.
  { injection H as <- <-. split; [discriminate | simpl; lia]. }
  destruct (Ascii.eqb c "#").
  { destruct r as [|c2 r2]; injection H as <- <-;
      (split; [discriminate | simpl; lia]). }
  cbn [span_token] in H. unfold _TOKEN_END in H. rewrite Hw, Hs in H.
  cbn [orb] in H.
  pose proof (span_token_length r) as L.
  destruct (span_token r) as [t rest']. injection H as <- <-.
  split; [discriminate | simpl in *; lia].
Qed.

(** On a candidate whose numeral, if it is one, is an integer,
    [classify] returns. *)
Lemma classify_returns :
  forall text,
    text <> EmptyString -> numeral_ok text = true ->
    exists o, classify text = Ret o.
Proof.
  intros text Hne Hn. unfold classify.
  destruct (DELIMITERS (VStr text)) eqn:Ed; [eexists; reflexivity|].
  destruct (String.eqb text "+" || String.eqb text "-") eqn:Ep;
    [eexists; reflexivity|].
  destruct (String.eqb text "#t" || String.eqb (lower text) "true");
    [eexists; reflexivity|].
  destruct (String.eqb text "#f" || String.eqb (lower text) "false");
    [eexists; reflexivity|].
  destruct (String.eqb text "nil"); [eexists; reflexivity|].
  destruct text as [|c r]; [contradiction|].
  unfold numeral_ok in Hn.
  destruct (_NUMERAL_STARTS c).
  - assert (Hdot : String.eqb (String c r) "." = false).
    { unfold DELIMITERS in Ed. cbn [existsb] in Ed.
      unfold py_eq in Ed. cbn [as_int value_eqb] in Ed.
      repeat (apply orb_false_iff in Ed; destruct Ed as [? Ed]).
      assumption. }
    apply orb_false_iff in Ep. destruct Ep as [E1 E2].
    rewrite E1, E2, Hdot in Hn. cbn [orb] in Hn.
    destruct (py_int (String c r)); [eexists; reflexivity | discriminate Hn].
  - destruct (_SYMBOL_STARTS c && valid_symbol (String c r));
      eexists; reflexivity.
Qed.

Lemma tokenize_loop_returns :
  forall n line result,
    String.length line <= n ->
    forallb numeral_ok (candidates n line) = true ->
    forallb token_ok result = true ->
    exists toks,
      tokenize_loop n line result = Ret toks
      /\ forallb token_ok toks = true.
Proof.
  induction n as [|n IH]; intros line result Hl Hc Hr.
  - destruct line; [|simpl in Hl; lia].
    exists result. split; [reflexivity | assumption].
  - cbn [tokenize_loop]. cbn [candidates] in Hc.
    destruct (_next_candidate_token line) as [[text|] rest] eqn:En.
    + destruct (next_candidate_some line text rest En) as [Hne Hlen].
      cbn [forallb] in Hc. apply andb_true_iff in Hc.
      destruct Hc as [Hn Hc].
      destruct (classify_returns text Hne Hn) as [o Ho].
      rewrite Ho. cbn [obind].
      destruct o as [t|].
      * apply IH; [lia | assumption |].
        rewrite forallb_app, Hr. cbn [forallb].
        rewrite (classify_token_ok text t Ho). reflexivity.
      * apply IH; [lia | assumption | assumption].
    + exists result. split; [reflexivity | assumption].
Qed.

(** X24: the lexer on input whose numerals are integers.  When every
    candidate that starts like a numeral is [+], [-], a dot or a signed
    sequence of decimal digits, [tokenize_lines] returns, without an
    error, and every token of its result is a delimiter, a boolean, an
    integer, the empty list, one of the symbols [+] and [-], or a symbol
    that [valid_symbol] accepts; an invalid candidate leaves no token.
    (A numeral of another form makes the source try [float(text)]; the
    embedding has no floats, and the hypothesis leaves such input
    aside.) *)
Theorem tokenize_lines_token_ok :
  forall input,
    forallb
      (fun line => forallb numeral_ok (candidates (String.length line) line))
      input = true ->
    exists toks,
      tokenize_lines input = Ret toks /\ forallb token_ok toks = true.
Proof.
  induction input as [|line input IH]; intros H.
  - exists []. split; reflexivity.
  - cbn [forallb] in H. apply andb_true_iff in H. destruct H as [Hl Hi].
    destruct (IH Hi) as [rest [Hrest Hok]].
    destruct (tokenize_loop_returns (String.length line) line []
                (Nat.le_refl _) Hl eq_refl) as [ts [Hts Htok]].
    exists (ts ++ rest). cbn [tokenize_lines]. unfold tokenize_line.
    rewrite Hts, Hrest. cbn [obind].
    split; [reflexivity|].
    rewrite forallb_app, Htok, Hok. reflexivity.
Qed.

Lemma tokenize_lines_token_ok_witness :
  exists toks,
    tokenize_lines ["(+ 1 x1 A) ; sum"; "#t -12"] = Ret toks
    /\ forallb token_ok toks = true.
Proof.
  apply (tokenize_lines_token_ok ["(+ 1 x1 A) ; sum"; "#t -12"]).
  reflexivity.
Defined.

(** ** Writing and reading back *)

Lemma append_assoc :
  forall a b c : string,
    String.append (String.append a b) c = String.append a (String.append b c).
Proof. induction a as [|x a IH]; intros; simpl; [|rewrite IH]; reflexivity. Qed.

Lemma length_append :
  forall a b : string,
    String.length (String.append a b) = String.length a + String.length b.
Proof. induction a as [|x a IH]; intros; simpl; [|rewrite IH]; reflexivity. Qed.

Lemma span_token_app :
  forall t r,
    forallb_str (fun c => negb (_TOKEN_END c)) t = true ->
    delimited r = true ->
    span_token (String.append t r) = (t, r).
Proof.
  induction t as [|c t IH]; intros r Ht Hr.
  - simpl. destruct r as [|c r]; [reflexivity|].
    simpl in *. rewrite Hr. reflexivity.
  - simpl in Ht. apply andb_true_iff in Ht. destruct Ht as [Hc Ht].
    apply negb_true_iff in Hc.
    simpl. rewrite Hc, IH by assumption. reflexivity.
Qed.

Lemma next_candidate_atom :
  forall t r,
    atom_text t = true -> delimited r = true ->
    _next_candidate_token (String.append t r) = (Some t, r).
Proof.
  intros [|c t] r Ht Hr; [discriminate Ht|].
  unfold atom_text in Ht.
  apply andb_true_iff in Ht. destruct Ht as [Ht Hall].
  apply andb_true_iff in Ht. destruct Ht as [H1 H2].
  apply negb_true_iff in H1. apply negb_true_iff in H2.
  pose proof Hall as Hall'.
  cbn [forallb_str] in Hall'. apply andb_true_iff in Hall'.
  destruct Hall' as [Hc _]. apply negb_true_iff in Hc.
  unfold _TOKEN_END in Hc. apply orb_false_iff in Hc. destruct Hc as [Hw Hs].
  change (String.append (String c t) r) with (String c (String.append t r)).
  cbn [_next_candidate_token]. rewrite H1, Hw, Hs, H2.
  change (String c (String.append t r)) with (String.append (String c t) r).
  rewrite span_token_app by assumption. reflexivity.
Qed.

Lemma tokenize_loop_step :
  forall n line text rest t result,
    _next_candidate_token line = (Some text, rest) ->
    classify text = Ret (Some t) ->
    tokenize_loop (S n) line result = tokenize_loop n rest (result ++ [t]).
Proof.
  intros n line text rest t result Hn Hc.
  cbn [tokenize_loop]. rewrite Hn, Hc. reflexivity.
Qed.

Lemma tokenize_loop_space :
  forall n line result,
    tokenize_loop n (String " " line) result = tokenize_loop n line result.
Proof. intros. destruct n; reflexivity. Qed.

(** Characters. *)

Lemma symbol_start_differs :
  forall c k,
    _SYMBOL_STARTS c = true -> _SYMBOL_STARTS k = false ->
    Ascii.eqb c k = false.
Proof.
  intros c k Hc Hk. destruct (Ascii.eqb c k) eqn:E; [|reflexivity].
  apply Ascii.eqb_eq in E. subst k. congruence.
Qed.

Lemma symbol_inner_char :
  forall c,
    _SYMBOL_INNERS c = true -> _TOKEN_END c = false /\ lower_char c = c.
Proof.
  intros [b0 b1 b2 b3 b4 b5 b6 b7] H.
  destruct b0, b1, b2, b3, b4, b5, b6, b7;
    try discriminate H; split; reflexivity.
Qed.

Lemma symbol_start_inner :
  forall c, _SYMBOL_STARTS c = true -> _SYMBOL_INNERS c = true.
Proof. intros c H. unfold _SYMBOL_INNERS. rewrite H. reflexivity. Qed.

Lemma symbol_start_not_numeral :
  forall c, _SYMBOL_STARTS c = true -> _NUMERAL_STARTS c = false.
Proof.
  intros [b0 b1 b2 b3 b4 b5 b6 b7] H.
  destruct b0, b1, b2, b3, b4, b5, b6, b7;
    try discriminate H; reflexivity.
Qed.

Lemma lower_symbol :
  forall s, forallb_str _SYMBOL_INNERS s = true -> lower s = s.
Proof.
  induction s as [|c s IH]; intros H; [reflexivity|].
  simpl in H. apply andb_true_iff in H. destruct H as [Hc Hs].
  simpl. rewrite (proj2 (symbol_inner_char c Hc)), IH by assumption.
  reflexivity.
Qed.

Lemma symbol_no_token_end :
  forall s,
    forallb_str _SYMBOL_INNERS s = true ->
    forallb_str (fun c => negb (_TOKEN_END c)) s = true.
Proof.
  induction s as [|c s IH]; intros H; [reflexivity|].
  simpl in H. apply andb_true_iff in H. destruct H as [Hc Hs].
  simpl. rewrite (proj1 (symbol_inner_char c Hc)), IH by assumption.
  reflexivity.
Qed.

Lemma eqb_first_char :
  forall c r k kr,
    Ascii.eqb c k = false -> String.eqb (String c r) (String k kr) = false.
Proof. intros c r k kr H. simpl. rewrite H. reflexivity. Qed.

(** Symbols. *)

Lemma classify_symbol :
  forall s,
    valid_symbol s = true ->
    String.eqb s "true" = false -> String.eqb s "false" = false ->
    String.eqb s "nil" = false ->
    classify s = Ret (Some (VStr s)).
Proof.
  intros [|c r] Hv Ht Hf Hn; [discriminate Hv|].
  pose proof Hv as Hv'. unfold valid_symbol in Hv'.
  apply andb_true_iff in Hv'. destruct Hv' as [Hc Hr].
  assert (Hl : lower (String c r) = String c r).
  { apply lower_symbol. simpl. rewrite (symbol_start_inner c Hc), Hr.
    reflexivity. }
  assert (D : forall k kr,
             _SYMBOL_STARTS k = false ->
             String.eqb (String c r) (String k kr) = false).
  { intros k kr Hk. apply eqb_first_char.
    apply symbol_start_differs; assumption. }
  unfold classify, DELIMITERS. cbn [existsb].
  unfold py_eq. cbn [as_int value_eqb].
  rewrite !D by reflexivity. rewrite Hl, Ht, Hf, Hn.
  cbn [orb]. rewrite (symbol_start_not_numeral c Hc), Hc, Hv. reflexivity.
Qed.

Lemma atom_text_symbol :
  forall s, valid_symbol s = true -> atom_text s = true.
Proof.
  intros [|c r] Hv; [discriminate Hv|].
  unfold valid_symbol in Hv.
  apply andb_true_iff in Hv. destruct Hv as [Hc Hr].
  unfold atom_text.
  rewrite !(symbol_start_differs c _ Hc) by reflexivity.
  apply symbol_no_token_end. simpl.
  rewrite (symbol_start_inner c Hc), Hr. reflexivity.
Qed.

(** Integers. *)

Lemma digits_val_uint_acc :
  forall u p,
    digits_val (Z.pos p) (DecimalString.NilEmpty.string_of_uint u)
    = Some (Z.pos (Pos.of_uint_acc u p)).
Proof.
  induction u; intros p; [reflexivity|..];
    cbn [DecimalString.NilEmpty.string_of_uint Pos.of_uint_acc];
    match goal with
    | |- digits_val ?a (String ?c ?s) = _ =>
        let v := eval vm_compute in (Z.of_nat (nat_of_ascii c - 48)) in
        change (digits_val a (String c s)) with (digits_val (10 * a + v)%Z s)
    end;
    match goal with
    | |- digits_val ?a _ = Some (Z.pos (Pos.of_uint_acc _ ?q)) =>
        replace a with (Z.pos q) by lia
    end;
    apply IHu.
Qed.

Lemma digits_val_uint :
  forall u,
    digits_val 0 (DecimalString.NilEmpty.string_of_uint u)
    = Some (Z.of_N (Pos.of_uint u)).
Proof.
  induction u; [reflexivity | exact IHu | ..];
    cbn [DecimalString.NilEmpty.string_of_uint Pos.of_uint Z.of_N];
    match goal with
    | |- digits_val 0%Z (String ?c ?s) = Some (Z.pos (Pos.of_uint_acc _ ?q)) =>
        change (digits_val 0%Z (String c s)) with (digits_val (Z.pos q) s)
    end;
    apply digits_val_uint_acc.
Qed.

Lemma uint_digits :
  forall u,
    forallb_str digit_char (DecimalString.NilEmpty.string_of_uint u) = true.
Proof. induction u; simpl; try rewrite IHu; reflexivity. Qed.

Lemma digit_char_facts :
  forall c,
    digit_char c = true ->
    _TOKEN_END c = false /\ _NUMERAL_STARTS c = true
    /\ lower_char c = c /\ _SYMBOL_STARTS c = false
    /\ Ascii.eqb c "+" = false /\ Ascii.eqb c "-" = false
    /\ Ascii.eqb c "." = false.
Proof.
  intros [b0 b1 b2 b3 b4 b5 b6 b7] H.
  destruct b0, b1, b2, b3, b4, b5, b6, b7;
    try discriminate H; repeat split; reflexivity.
Qed.

Lemma numeral_start_char :
  forall c,
    _NUMERAL_STARTS c = true ->
    _TOKEN_END c = false /\ lower_char c = c
    /\ Ascii.eqb c ";" = false /\ Ascii.eqb c "#" = false
    /\ Ascii.eqb c "(" = false /\ Ascii.eqb c ")" = false
    /\ Ascii.eqb c "'" = false /\ Ascii.eqb c "t" = false
    /\ Ascii.eqb c "f" = false /\ Ascii.eqb c "n" = false.
Proof.
  intros [b0 b1 b2 b3 b4 b5 b6 b7] H.
  destruct b0, b1, b2, b3, b4, b5, b6, b7;
    try discriminate H; repeat split; reflexivity.
Qed.

Lemma classify_numeral :
  forall c r z,
    _NUMERAL_STARTS c = true ->
    String.eqb (String c r) "." = false ->
    String.eqb (String c r) "+" = false ->
    String.eqb (String c r) "-" = false ->
    py_int (String c r) = Some z ->
    classify (String c r) = Ret (Some (VInt z)).
Proof.
  intros c r z Hc Hdot Hplus Hminus Hz.
  destruct (numeral_start_char c Hc)
    as [_ [Hl [_ [Hh [Ho [Hcl [Hq [Ht [Hf Hn]]]]]]]]].
  unfold classify, DELIMITERS. cbn [existsb].
  unfold py_eq. cbn [as_int value_eqb].
  rewrite !(eqb_first_char c r _ _ Ho), !(eqb_first_char c r _ _ Hcl),
    !(eqb_first_char c r _ _ Hq), Hdot, Hplus, Hminus.
  cbn [lower]. rewrite Hl.
  rewrite !(eqb_first_char c r _ _ Hh), !(eqb_first_char c _ _ _ Ht),
    !(eqb_first_char c _ _ _ Hf), !(eqb_first_char c r _ _ Hn).
  cbn [orb]. rewrite Hc, Hz. reflexivity.
Qed.

Lemma str_int_cases :
  forall z,
    (exists c r,
        str_int z = String c r /\ digit_char c = true
        /\ forallb_str digit_char r = true /\ (0 <= z)%Z)
    \/ (exists c r,
           str_int z = String "-" (String c r) /\ digit_char c = true
           /\ forallb_str digit_char r = true /\ (z < 0)%Z).
Proof.
  intros [|p|p].
  - left. exists "0"%char, "". repeat split; (reflexivity || lia).
  - left. unfold str_int. cbn [Z.to_int DecimalString.NilEmpty.string_of_int].
    pose proof (DecimalPos.Unsigned.to_uint_nonnil p) as Hn.
    pose proof (uint_digits (Pos.to_uint p)) as Hd.
    destruct (Pos.to_uint p); [congruence|..];
      cbn [DecimalString.NilEmpty.string_of_uint] in *;
      eexists; eexists; (split; [reflexivity|]);
      cbn [forallb_str] in Hd; apply andb_true_iff in Hd;
      destruct Hd as [H1 H2]; repeat split; (assumption || lia).
  - right. unfold str_int. cbn [Z.to_int DecimalString.NilEmpty.string_of_int].
    pose proof (DecimalPos.Unsigned.to_uint_nonnil p) as Hn.
    pose proof (uint_digits (Pos.to_uint p)) as Hd.
    destruct (Pos.to_uint p); [congruence|..];
      cbn [DecimalString.NilEmpty.string_of_uint] in *;
      eexists; eexists; (split; [reflexivity|]);
      cbn [forallb_str] in Hd; apply andb_true_iff in Hd;
      destruct Hd as [H1 H2]; repeat split; (assumption || lia).
Qed.

Lemma py_int_str_int : forall z, py_int (str_int z) = Some z.
Proof.
  intros [|p|p].
  - reflexivity.
  - unfold str_int. cbn [Z.to_int DecimalString.NilEmpty.string_of_int].
    pose proof (digits_val_uint (Pos.to_uint p)) as Hv.
    rewrite DecimalPos.Unsigned.of_to in Hv. cbn [Z.of_N] in Hv.
    destruct (str_int_cases (Z.pos p)) as [[c [r [E [Hc _]]]]|[c [r [_ [_ [_ H]]]]]];
      [|lia].
    unfold str_int in E.
    cbn [Z.to_int DecimalString.NilEmpty.string_of_int] in E.
    rewrite E in *.
    destruct (digit_char_facts c Hc) as [_ [_ [_ [_ [Hp [Hm _]]]]]].
    unfold py_int. rewrite Hp, Hm. exact Hv.
  - unfold str_int. cbn [Z.to_int DecimalString.NilEmpty.string_of_int].
    pose proof (digits_val_uint (Pos.to_uint p)) as Hv.
    rewrite DecimalPos.Unsigned.of_to in Hv. cbn [Z.of_N] in Hv.
    pose proof (DecimalPos.Unsigned.to_uint_nonnil p) as Hn.
    unfold py_int.
    change (Ascii.eqb "-" "+") with false.
    change (Ascii.eqb "-" "-") with true. cbv iota.
    destruct (DecimalString.NilEmpty.string_of_uint (Pos.to_uint p)) eqn:E.
    + destruct (Pos.to_uint p); try congruence; discriminate E.
    + rewrite Hv. reflexivity.
Qed.

Lemma digits_no_token_end :
  forall s,
    forallb_str digit_char s = true ->
    forallb_str (fun c => negb (_TOKEN_END c)) s = true.
Proof.
  induction s as [|c s IH]; intros H; [reflexivity|].
  simpl in H. apply andb_true_iff in H. destruct H as [Hc Hs].
  simpl. rewrite (proj1 (digit_char_facts c Hc)), IH by assumption.
  reflexivity.
Qed.

Lemma classify_str_int :
  forall z, classify (str_int z) = Ret (Some (VInt z)).
Proof.
  intros z. pose proof (py_int_str_int z) as Hz.
  destruct (str_int_cases z)
    as [[c [r [E [Hc _]]]]|[c [r [E [Hc _]]]]]; rewrite E in *.
  - destruct (digit_char_facts c Hc) as [_ [Hn [_ [_ [Hp [Hm Hd]]]]]].
    apply classify_numeral; try assumption;
      apply eqb_first_char; assumption.
  - apply classify_numeral; try assumption; reflexivity.
Qed.

Lemma atom_text_str_int : forall z, atom_text (str_int z) = true.
Proof.
  intros z.
  destruct (str_int_cases z)
    as [[c [r [E [Hc [Hr _]]]]]|[c [r [E [Hc [Hr _]]]]]]; rewrite E.
  - destruct (digit_char_facts c Hc) as [Ht [Hn _]].
    destruct (numeral_start_char c Hn) as [_ [_ [Hs [Hh _]]]].
    unfold atom_text. rewrite Hs, Hh. cbn [negb andb forallb_str].
    rewrite Ht, (digits_no_token_end r Hr). reflexivity.
  - destruct (digit_char_facts c Hc) as [Ht _].
    unfold atom_text.
    change (Ascii.eqb "-" ";") with false.
    change (Ascii.eqb "-" "#") with false.
    cbn [negb andb forallb_str].
    change (_TOKEN_END "-") with false.
    rewrite Ht, (digits_no_token_end r Hr). reflexivity.
Qed.

(** Atoms. *)

Lemma writable_atom :
  forall e,
    writable e = true -> is_pair e = false ->
    classify (atom_str e) = Ret (Some e) /\ atom_text (atom_str e) = true.
Proof.
  intros e Hw Hp. destruct e; try discriminate Hw; try discriminate Hp.
  - destruct b; split; reflexivity.
  - split; [apply classify_str_int | apply atom_text_str_int].
  - cbn [writable] in Hw. cbn [atom_str].
    apply orb_true_iff in Hw. destruct Hw as [Hw|Hw].
    + apply orb_true_iff in Hw.
      destruct Hw as [Hw|Hw]; apply String.eqb_eq in Hw; subst s;
        split; reflexivity.
    + apply andb_true_iff in Hw. destruct Hw as [Hw Hn].
      apply andb_true_iff in Hw. destruct Hw as [Hw Hf].
      apply andb_true_iff in Hw. destruct Hw as [Hv Ht].
      apply negb_true_iff in Hn, Hf, Ht.
      split; [apply classify_symbol | apply atom_text_symbol]; assumption.
  - split; reflexivity.
Qed.

Lemma writable_readable : forall e, writable e = true -> readable e = true.
Proof.
  induction e; intros Hw; try discriminate Hw; try reflexivity.
  - destruct (writable_atom (VStr s) Hw eq_refl) as [Hc _].
    cbn [atom_str] in Hc. cbn [readable].
    unfold classify in Hc.
    destruct (DELIMITERS (VStr s)) eqn:Ed; [|reflexivity].
    exfalso. cbn [writable] in Hw.
    unfold DELIMITERS in Ed. cbn [existsb] in Ed.
    unfold py_eq in Ed. cbn [as_int value_eqb] in Ed.
    repeat (apply orb_true_iff in Ed; destruct Ed as [Ed|Ed]);
      try discriminate Ed; apply String.eqb_eq in Ed; subst s;
      discriminate Hw.
  - cbn [writable] in Hw. apply andb_true_iff in Hw.
    destruct Hw as [H1 H2]. cbn [readable].
    rewrite IHe1, IHe2 by assumption. reflexivity.
Qed.

Lemma append_nil_r : forall s : string, String.append s "" = s.
Proof. induction s as [|c s IH]; simpl; [|rewrite IH]; reflexivity. Qed.

Lemma str_tail_delimited :
  forall y r, delimited (String.append (str_tail y) r) = true.
Proof. destruct y; reflexivity. Qed.

Lemma tokenize_loop_atom :
  forall e m r result,
    writable e = true -> is_pair e = false -> delimited r = true ->
    tokenize_loop (S m) (String.append (atom_str e) r) result
    = tokenize_loop m r (result ++ [e]).
Proof.
  intros e m r result Hw Hp Hr.
  destruct (writable_atom e Hw Hp) as [Hc Ht].
  apply (tokenize_loop_step m _ (atom_str e) r e result);
    [apply next_candidate_atom; assumption | assumption].
Qed.

Lemma tokenize_loop_dotted :
  forall e m r result,
    writable e = true -> is_pair e = false ->
    tokenize_loop (3 + m)
      (String.append
         (String.append " . " (String.append (atom_str e) ")")) r) result
    = tokenize_loop m r (result ++ [VStr "."; e; VStr ")"]).
Proof.
  intros e m r result Hw Hp.
  rewrite !append_assoc.
  change (String.append " . " (String.append (atom_str e) (String.append ")" r)))
    with (String " " (String "." (String " "
            (String.append (atom_str e) (String ")" r))))).
  rewrite tokenize_loop_space.
  change (3 + m) with (S (S (S m))).
  rewrite (tokenize_loop_step _ _ "."
             (String " " (String.append (atom_str e) (String ")" r)))
             (VStr ".")) by reflexivity.
  rewrite tokenize_loop_space.
  rewrite tokenize_loop_atom by (assumption || reflexivity).
  rewrite (tokenize_loop_step _ _ ")" r (VStr ")")) by reflexivity.
  rewrite <- !app_assoc. reflexivity.
Qed.

(** The lexer on the written form of a datum and on the rest of a
    written list. *)
Lemma tokenize_py_str :
  forall e,
    writable e = true ->
    (forall m r result,
        delimited r = true ->
        tokenize_loop (List.length (tokens_of e) + m)
          (String.append (py_str e) r) result
        = tokenize_loop m r (result ++ tokens_of e))
    /\ (forall m r result,
           tokenize_loop (List.length (tail_tokens e) + m)
             (String.append (str_tail e) r) result
           = tokenize_loop m r (result ++ tail_tokens e)).
Proof.
  induction e; intros Hw; try discriminate Hw.
  - split; intros m r result; [intros Hr|].
    + apply (tokenize_loop_atom (VBool b)); (assumption || reflexivity).
    + apply (tokenize_loop_dotted (VBool b)); (assumption || reflexivity).
  - split; intros m r result; [intros Hr|].
    + apply (tokenize_loop_atom (VInt z)); (assumption || reflexivity).
    + apply (tokenize_loop_dotted (VInt z)); (assumption || reflexivity).
  - split; intros m r result; [intros Hr|].
    + apply (tokenize_loop_atom (VStr s)); (assumption || reflexivity).
    + apply (tokenize_loop_dotted (VStr s)); (assumption || reflexivity).
  - split; intros m r result; [intros Hr|].
    + apply (tokenize_loop_atom NULL); (assumption || reflexivity).
    + apply (tokenize_loop_step m _ ")" r (VStr ")")); reflexivity.
  - cbn [writable] in Hw. apply andb_true_iff in Hw. destruct Hw as [H1 H2].
    destruct (IHe1 H1) as [P1 _]. destruct (IHe2 H2) as [_ Q2].
    assert (G : forall m r result,
               tokenize_loop
                 (List.length (tokens_of e1 ++ tail_tokens e2) + m)
                 (String.append
                    (String.append (py_str e1) (str_tail e2)) r) result
               = tokenize_loop m r
                   (result ++ tokens_of e1 ++ tail_tokens e2)).
    { intros m r result. rewrite length_app, <- Nat.add_assoc, append_assoc.
      rewrite P1 by apply str_tail_delimited.
      rewrite Q2, <- app_assoc. reflexivity. }
    split; intros m r result; [intros Hr|].
    + cbn [py_str tokens_of List.length].
      change (String.append
                (String.append "("
                   (String.append (py_str e1) (str_tail e2))) r)
        with (String "("
                (String.append
                   (String.append (py_str e1) (str_tail e2)) r)).
      change (S (List.length (tokens_of e1 ++ tail_tokens e2)) + m)
        with (S (List.length (tokens_of e1 ++ tail_tokens e2) + m)).
      rewrite (tokenize_loop_step _ _ "("
                 (String.append
                    (String.append (py_str e1) (str_tail e2)) r)
                 (VStr "(")) by reflexivity.
      rewrite G, <- app_assoc. reflexivity.
    + cbn [str_tail tail_tokens].
      change (String.append
                (String.append " "
                   (String.append (py_str e1) (str_tail e2))) r)
        with (String " "
                (String.append
                   (String.append (py_str e1) (str_tail e2)) r)).
      rewrite tokenize_loop_space. apply G.
Qed.

Lemma tokens_le_chars :
  forall e,
    writable e = true ->
    List.length (tokens_of e) <= String.length (py_str e)
    /\ List.length (tail_tokens e) <= String.length (str_tail e).
Proof.
  assert (A : forall e,
             writable e = true -> is_pair e = false ->
             1 <= String.length (atom_str e)).
  { intros e Hw Hp. destruct (writable_atom e Hw Hp) as [_ Ht].
    destruct (atom_str e); [discriminate Ht | simpl; lia]. }
  induction e; intros Hw; try discriminate Hw.
  - pose proof (A (VBool b) Hw eq_refl). split; [assumption|].
    cbn [str_tail tail_tokens]. cbn [String.append String.length List.length].
    rewrite length_append. lia.
  - pose proof (A (VInt z) Hw eq_refl). split; [assumption|].
    cbn [str_tail tail_tokens]. cbn [String.append String.length List.length].
    rewrite length_append. lia.
  - pose proof (A (VStr s) Hw eq_refl). split; [assumption|].
    cbn [str_tail tail_tokens]. cbn [String.append String.length List.length].
    rewrite length_append. lia.
  - split; simpl; lia.
  - cbn [writable] in Hw. apply andb_true_iff in Hw. destruct Hw as [H1 H2].
    destruct (IHe1 H1) as [L1 _]. destruct (IHe2 H2) as [_ L2].
    cbn [py_str str_tail tokens_of tail_tokens].
    cbn [String.append String.length List.length].
    rewrite length_append, length_app. lia.
Qed.

(** X25: what is written is read back.  For every datum made of
    booleans, integers, the empty list, pairs and symbols (the symbols
    [+] and [-] and the valid symbols other than [true], [false] and
    [nil]), the lexer turns the text [str] gives the datum into the
    tokens of its written form, and [read_line] on that text returns the
    datum. *)
Theorem read_line_inverts_str :
  forall e,
    writable e = true ->
    tokenize_line (py_str e) = Ret (tokens_of e)
    /\ forall d,
        List.length (tokens_of e) <= d -> read_line d (py_str e) = Ret e.
Proof.
  intros e Hw.
  assert (Ht : tokenize_line (py_str e) = Ret (tokens_of e)).
  { unfold tokenize_line.
    destruct (tokens_le_chars e Hw) as [L _].
    replace (String.length (py_str e))
      with (List.length (tokens_of e)
            + (String.length (py_str e) - List.length (tokens_of e)))
      by lia.
    rewrite <- (append_nil_r (py_str e)) at 2.
    rewrite (proj1 (tokenize_py_str e Hw)) by reflexivity.
    destruct (String.length (py_str e) - List.length (tokens_of e));
      reflexivity. }
  split; [exact Ht|].
  intros d Hd. unfold read_line. rewrite Ht. cbn [obind].
  rewrite <- (app_nil_r (tokens_of e)).
  rewrite (proj1 (read_tokens_of e (writable_readable e Hw))) by assumption.
  reflexivity.
Qed.

Lemma read_line_inverts_str_witness :
  py_str (Pair (VStr "f") (Pair (ints [-12; 0]%Z) (VBool true)))
  = "(f (-12 0) . True)"
  /\ read_line 9 "(f (-12 0) . True)"
     = Ret (Pair (VStr "f") (Pair (ints [-12; 0]%Z) (VBool true))).
Proof.
  split; [reflexivity|].
  apply (proj2 (read_line_inverts_str
                  (Pair (VStr "f") (Pair (ints [-12; 0]%Z) (VBool true)))
                  eq_refl) 9).
  simpl. lia.
Defined.

(** * Well-formed stores *)

Lemma keeps_mono :
  forall A n m (c : M A) Q, keeps n c Q -> n <= m -> keeps m c Q.
Proof. intros A n m c Q H Hnm h Hw Hl. apply H; [assumption | lia]. Qed.

Lemma keeps_weaken :
  forall A n (c : M A) (Q Q' : A -> nat -> Prop),
    keeps n c Q -> (forall a b, Q a b -> Q' a b) -> keeps n c Q'.
Proof.
  intros A n c Q Q' H HQ h Hw Hl. destruct (H h Hw Hl) as [H1 [H2 H3]].
  repeat split; auto.
Qed.

Lemma keeps_any :
  forall A n (c : M A) Q, keeps n c Q -> keeps n c any.
Proof. intros. eapply keeps_weaken; [eassumption|]. intros; exact I. Qed.

Lemma keeps_ret :
  forall A n (a : A) (Q : A -> nat -> Prop),
    (forall b, n <= b -> Q a b) -> keeps n (ret a) Q.
Proof.
  intros A n a Q HQ h Hw Hl. simpl. repeat split; auto.
  intros a' E. injection E as <-. auto.
Qed.

Lemma keeps_raise : forall A n e Q, keeps n (@raise A e) Q.
Proof. intros A n e Q h Hw Hl. simpl. repeat split; auto. discriminate. Qed.

Lemma keeps_same_heap :
  forall A n (c : M A), (forall h, snd (c h) = h) -> keeps n c any.
Proof.
  intros A n c H h Hw Hl. rewrite H. repeat split; auto.
Qed.

Lemma keeps_lift : forall A n (o : outcome A), keeps n (lift o) any.
Proof. intros. apply keeps_same_heap. reflexivity. Qed.

Lemma keeps_bind :
  forall A B n (c : M A) (k : A -> M B) Q R,
    keeps n c Q ->
    (forall a m, n <= m -> Q a m -> keeps m (k a) R) ->
    keeps n (bind c k) R.
Proof.
  intros A B n c k Q R Hc Hk h Hw Hl. unfold bind.
  destruct (Hc h Hw Hl) as [H1 [H2 H3]].
  destruct (c h) as [[a|e] h1]; simpl in *.
  - destruct (Hk a (List.length h1) ltac:(lia) (H3 a eq_refl) h1 H1
                ltac:(lia)) as [K1 [K2 K3]].
    repeat split; [assumption | lia | assumption].
  - repeat split; [assumption | assumption | discriminate].
Qed.

Lemma keeps_bind_any :
  forall A B n (c : M A) (k : A -> M B) R,
    keeps n c any -> (forall a, keeps n (k a) R) -> keeps n (bind c k) R.
Proof.
  intros A B n c k R Hc Hk. eapply keeps_bind; [exact Hc|].
  intros a m Hm _. eapply keeps_mono; [apply Hk | assumption].
Qed.

Lemma heap_wf_set_nth :
  forall h self fr d,
    heap_wf h -> nth_error h self = Some fr ->
    heap_wf (set_nth h self (mkFrame d (parent fr))).
Proof.
  intros h self fr d Hw Hfr i f p Hi Hp.
  destruct (Nat.eq_dec self i) as [->|Hne].
  - rewrite (nth_error_set_nth_eq _ _ _ _ _ Hfr) in Hi. injection Hi as <-.
    simpl in Hp. eapply Hw; eassumption.
  - rewrite nth_error_set_nth_neq in Hi by assumption.
    eapply Hw; eassumption.
Qed.

Lemma keeps_define :
  forall n self sym val, keeps n (define self sym val) any.
Proof.
  intros n self sym val h Hw Hl. unfold define.
  destruct (nth_error h self) as [fr|] eqn:Hfr; simpl.
  - repeat split.
    + apply heap_wf_set_nth; assumption.
    + rewrite length_set_nth. lia.
  - repeat split; auto.
Qed.

Lemma keeps_getitem : forall n self sym, keeps n (getitem self sym) any.
Proof.
  intros. apply keeps_same_heap. intros h. unfold getitem, bind, find.
  simpl. destruct (find_in (List.length h) h self sym); [|reflexivity].
  destruct (nth_error h a); [|reflexivity].
  destruct (dict_get (inner f) (VStr sym)); reflexivity.
Qed.

Lemma heap_wf_push :
  forall h d self,
    heap_wf h -> self < List.length h ->
    heap_wf (h ++ [mkFrame d (Some self)]).
Proof.
  intros h d self Hw Hs i fr p Hi Hp.
  destruct (Nat.lt_ge_cases i (List.length h)) as [Hlt|Hge].
  - rewrite nth_error_app1 in Hi by assumption. eapply Hw; eassumption.
  - rewrite nth_error_app2 in Hi by assumption.
    destruct (i - List.length h) as [|k] eqn:E.
    + simpl in Hi. injection Hi as <-. simpl in Hp. injection Hp as <-. lia.
    + simpl in Hi. destruct k; discriminate Hi.
Qed.

Lemma keeps_make_call_frame :
  forall n self formals vals,
    self < n -> keeps n (make_call_frame self formals vals) below.
Proof.
  intros n self formals vals Hs h Hw Hl.
  unfold make_call_frame, bind, lift, new_frame.
  destruct (call_frame_inner formals vals) as [d|e]; simpl.
  - repeat split.
    + apply heap_wf_push; [assumption | lia].
    + rewrite length_app. simpl. lia.
    + intros a E. injection E as <-. unfold below.
      rewrite length_app. simpl. lia.
  - repeat split; auto. discriminate.
Qed.

Lemma keeps_except_TypeError :
  forall A n (c : M A) Q, keeps n c Q -> keeps n (except_TypeError c) Q.
Proof.
  intros A n c Q Hc h Hw Hl. unfold except_TypeError.
  destruct (Hc h Hw Hl) as [H1 [H2 H3]].
  destruct (c h) as [[a|e] h1]; simpl in *.
  - repeat split; assumption.
  - destruct e; simpl; repeat split; try assumption; discriminate.
Qed.

Lemma keeps_for_loop :
  forall A n (body : nat -> value -> M (option A)) (orelse : M A) items e i,
    (forall i x, keeps n (body i x) any) -> keeps n orelse any ->
    keeps n (for_loop i items e body orelse) any.
Proof.
  intros A n body orelse items e. induction items as [|x r IH]; intros i Hb Ho.
  - simpl. destruct e; [apply keeps_raise | assumption].
  - simpl. apply keeps_bind_any; [apply Hb|].
    intros [a|]; [apply keeps_ret; intros; exact I | apply IH; assumption].
Qed.

Lemma keeps_for_range :
  forall n (body : nat -> M unit) k lo,
    (forall i, keeps n (body i) any) -> keeps n (for_range lo k body) any.
Proof.
  intros n body k. induction k as [|k IH]; intros lo Hb; simpl.
  - apply keeps_ret. intros; exact I.
  - apply keeps_bind_any; [apply Hb | intros; apply IH; assumption].
Qed.

Lemma keeps_pair_map :
  forall n (fn : value -> M value) self,
    (forall x, keeps n (fn x) any) -> keeps n (pair_map fn self) any.
Proof.
  intros n fn self Hfn. induction self; simpl;
    try apply keeps_raise; try (apply keeps_ret; intros; exact I).
  apply keeps_bind_any; [apply Hfn|]. intros mapped.
  destruct self2; try apply keeps_raise.
  - apply keeps_bind_any; [assumption|].
    intros; apply keeps_ret; intros; exact I.
  - apply keeps_bind_any; [assumption|].
    intros; apply keeps_ret; intros; exact I.
Qed.

(** One step of a proof that a computation built from the monad's
    operations keeps the store well-formed. *)
Ltac keeps_step :=
  match goal with
  | |- keeps _ (bind (make_call_frame _ _ _) _) _ =>
      eapply keeps_bind;
      [apply keeps_make_call_frame; lia
      | unfold below; intros]
  | |- keeps _ (bind _ _) _ => apply keeps_bind_any; [|intros]
  | |- keeps _ (ret _) any => apply keeps_ret; intros; exact I
  | |- keeps _ (ret _) env_below =>
      apply keeps_ret; unfold env_below; simpl; intros; lia
  | |- keeps _ (raise _) _ => apply keeps_raise
  | |- keeps _ (lift _) any => apply keeps_lift
  | |- keeps _ (define _ _ _) any => apply keeps_define
  | |- keeps _ (getitem _ _) any => apply keeps_getitem
  | |- keeps _ (except_TypeError _) _ => apply keeps_except_TypeError
  | |- keeps _ (for_in _ _ _) _ => unfold for_in
  | |- keeps _ (for_loop _ _ _ _ _) any => apply keeps_for_loop; intros
  | |- keeps _ (for_range _ _ _) any => apply keeps_for_range; intros
  | |- keeps _ (pair_map _ _) any => apply keeps_pair_map; intros
  | |- keeps _ (if ?b then _ else _) _ => destruct b
  | |- keeps _ (let (_, _) := ?p in _) _ => destruct p
  | |- keeps _ (match ?x with _ => _ end) _ => destruct x
  | H : forall e env n, env < n -> keeps n (?ev e env) any
    |- keeps _ (?ev _ _) any => apply H; lia
  | H : forall p a env n, env < n -> keeps n (?ap p a env) any
    |- keeps _ (?ap _ _ _) any => apply H; lia
  end.

Section Keeps.

Variable native : string -> list value -> outcome value.
Variable ev : evalT.
Variable ap : applyT.
Hypothesis ev_keeps : forall e env n, env < n -> keeps n (ev e env) any.
Hypothesis ap_keeps : forall p a env n, env < n -> keeps n (ap p a env) any.

Lemma keeps_let_bindings :
  forall n env items e names vals,
    env < n -> keeps n (let_bindings ev env items e names vals) any.
Proof.
  intros n env items e. induction items as [|item r IH];
    intros names vals Hn; simpl.
  - destruct e; [apply keeps_raise | apply keeps_ret; intros; exact I].
  - repeat keeps_step; try (apply IH; assumption).
Qed.

Lemma keeps_do_define_form :
  forall n vals env, env < n -> keeps n (do_define_form ev vals env) any.
Proof. intros. unfold do_define_form. repeat keeps_step. Qed.

Lemma keeps_do_let_form :
  forall n vals env, env < n -> keeps n (do_let_form ev vals env) env_below.
Proof.
  intros. unfold do_let_form, eval_all_but_last.
  repeat (keeps_step || (apply keeps_let_bindings; assumption)).
Qed.

Lemma keeps_do_let_star_form :
  forall n vals env,
    env < n -> keeps n (do_let_star_form ev vals env) env_below.
Proof.
  intros. unfold do_let_star_form, eval_all_but_last, let_star_binding.
  repeat keeps_step.
Qed.

Lemma keeps_logic_form :
  forall n first handler rest env,
    env < n ->
    logic_form ev first = Some handler -> keeps n (handler rest env) any.
Proof.
  intros n first handler rest env Hn H. unfold logic_form in H.
  destruct first; try discriminate H. simpl in H.
  repeat match type of H with
         | (if ?b then _ else _) = _ => destruct b
         end;
    try discriminate H; injection H as <-.
  - unfold do_and_form. repeat keeps_step.
  - unfold do_or_form. repeat keeps_step.
  - unfold do_if_form. repeat keeps_step.
  - unfold do_cond_form, cond_clause. repeat keeps_step.
  - unfold do_begin_form, begin_statement. repeat keeps_step.
  - unfold do_case_form. repeat keeps_step.
Qed.

Lemma keeps_eval_combination :
  forall n expr env,
    env < n ->
    keeps n
      (if scheme_atomp expr then ret expr
       else if negb (scheme_listp expr) then
         raise (SchemeError "malformed list: {0}" [expr])
       else
         first <- lift (get_first expr) ;;
         rest <- lift (get_second expr) ;;
         match logic_form ev first with
         | Some handler => e <- handler rest env ;; ev e env
         | None =>
             if py_eq first (VStr "lambda") then
               lift (do_lambda_form rest env)
             else if py_eq first (VStr "define") then
               do_define_form ev rest env ;; ret PyNone
             else if py_eq first (VStr "quote") then
               lift (do_quote_form rest)
             else if py_eq first (VStr "let") then
               '(e, env') <- do_let_form ev rest env ;; ev e env'
             else if py_eq first (VStr "let*") then
               '(e, env') <- do_let_star_form ev rest env ;; ev e env'
             else
               procedure <- ev first env ;;
               args <- pair_map (fun operand => ev operand env) rest ;;
               ap procedure args env
         end) any.
Proof.
  intros n expr env Hn.
  destruct (scheme_atomp expr); [apply keeps_ret; intros; exact I|].
  destruct (negb (scheme_listp expr)); [apply keeps_raise|].
  apply keeps_bind_any; [apply keeps_lift|]. intros first.
  apply keeps_bind_any; [apply keeps_lift|]. intros rest.
  destruct (logic_form ev first) as [handler|] eqn:Hl.
  - apply keeps_bind_any; [eapply keeps_logic_form; eassumption|].
    intros. apply ev_keeps. assumption.
  - destruct (py_eq first (VStr "lambda")); [apply keeps_lift|].
    destruct (py_eq first (VStr "define")).
    { apply keeps_bind_any; [apply keeps_do_define_form; assumption|].
      intros. apply keeps_ret. intros; exact I. }
    destruct (py_eq first (VStr "quote")); [apply keeps_lift|].
    destruct (py_eq first (VStr "let")).
    { eapply keeps_bind; [apply keeps_do_let_form; assumption|].
      intros [e env'] m Hm Hq. unfold env_below in Hq. simpl in Hq.
      apply ev_keeps. assumption. }
    destruct (py_eq first (VStr "let*")).
    { eapply keeps_bind; [apply keeps_do_let_star_form; assumption|].
      intros [e env'] m Hm Hq. unfold env_below in Hq. simpl in Hq.
      apply ev_keeps. assumption. }
    repeat keeps_step.
Qed.

Lemma keeps_eval_step :
  forall n expr env, env < n -> keeps n (eval_step ev ap expr env) any.
Proof.
  intros n expr env Hn. unfold eval_step.
  destruct expr; try (apply keeps_eval_combination; assumption).
  - apply keeps_raise.
  - apply keeps_getitem.
Qed.

Lemma keeps_apply_step :
  forall n procedure args env,
    env < n -> keeps n (apply_step native ev ap procedure args env) any.
Proof.
  intros n procedure args env Hn. unfold apply_step.
  destruct procedure; try apply keeps_raise.
  - repeat keeps_step.
  - apply keeps_bind_any; [apply keeps_lift|]. intros arg_list.
    unfold apply_primitive. apply keeps_except_TypeError.
    destruct fn; cbn [use_env call_fn]; unfold scheme_load;
      repeat keeps_step.
Qed.

End Keeps.

Lemma scheme_eval_apply_keep :
  forall native d,
    (forall e env n, env < n -> keeps n (scheme_eval native d e env) any)
    /\ (forall p a env n,
           env < n -> keeps n (scheme_apply native d p a env) any).
Proof.
  intros native d. induction d as [|d [IHe IHa]].
  - split; intros; apply keeps_raise.
  - split; intros.
    + apply (keeps_eval_step (scheme_eval native d) (scheme_apply native d)
               IHe IHa); assumption.
    + apply (keeps_apply_step native (scheme_eval native d)
               (scheme_apply native d) IHe IHa); assumption.
Qed.

Lemma find_in_wf :
  forall n h self sym,
    heap_wf h -> self < List.length h -> self < n ->
    (exists r,
        find_in n h self sym = Ret r /\ r <= self
        /\ has_key h r (VStr sym) = true)
    \/ find_in n h self sym
       = Raise (SchemeError "unknown identifier: {0}" [VStr sym]).
Proof.
  induction n as [|n IH]; intros h self sym Hw Hs Hn; [lia|].
  cbn [find_in].
  destruct (nth_error h self) as [fr|] eqn:Hfr.
  - destruct (dict_has (inner fr) (VStr sym)) eqn:Hd.
    + left. exists self. repeat split; [lia|].
      unfold has_key. rewrite Hfr. assumption.
    + destruct (parent fr) as [p|] eqn:Hp; [|right; reflexivity].
      pose proof (Hw self fr p Hfr Hp) as Hlt.
      destruct (IH h p sym Hw ltac:(lia) ltac:(lia))
        as [[r [H1 [H2 H3]]]|H1].
      * left. exists r. repeat split; [assumption | lia | assumption].
      * right. assumption.
  - apply nth_error_None in Hfr. lia.
Qed.

Lemma find_in_push :
  forall n h t self sym,
    heap_wf h -> self < List.length h ->
    find_in n (h ++ t) self sym = find_in n h self sym.
Proof.
  induction n as [|n IH]; intros h t self sym Hw Hs; [reflexivity|].
  cbn [find_in]. rewrite nth_error_app1 by assumption.
  destruct (nth_error h self) as [fr|] eqn:Hfr; [|reflexivity].
  destruct (dict_has (inner fr) (VStr sym)); [reflexivity|].
  destruct (parent fr) as [p|] eqn:Hp; [|reflexivity].
  pose proof (Hw self fr p Hfr Hp). apply IH; [assumption | lia].
Qed.

Lemma dict_has_false_dict_get :
  forall d k, dict_has d k = false -> dict_get d k = None.
Proof.
  induction d as [|[k0 v0] d IH]; intros k H; [reflexivity|].
  unfold dict_has in H. simpl in *.
  apply orb_false_iff in H. destruct H as [H1 H2].
  rewrite H1. apply IH. exact H2.
Qed.

Lemma initial_heap_wf : heap_wf initial_heap.
Proof.
  intros i fr p Hi Hp. destruct i as [|i].
  - vm_compute in Hi. injection Hi as <-. discriminate Hp.
  - assert (E : List.length initial_heap = 1) by (vm_compute; reflexivity).
    assert (L : S i < List.length initial_heap)
      by (apply nth_error_Some; congruence).
    lia.
Qed.

Lemma find_in_ancestors :
  forall n h self sym,
    heap_wf h -> self < List.length h -> self < n ->
    find_in n h self sym
    = match List.find (fun r => has_key h r (VStr sym)) (ancestors n h self)
      with
      | Some r => Ret r
      | None => Raise (SchemeError "unknown identifier: {0}" [VStr sym])
      end.
Proof.
  induction n as [|n IH]; intros h self sym Hw Hs Hn; [lia|].
  cbn [find_in ancestors].
  destruct (nth_error h self) as [fr|] eqn:Hfr.
  - cbn [List.find]. unfold has_key at 1. rewrite Hfr.
    destruct (dict_has (inner fr) (VStr sym)); [reflexivity|].
    destruct (parent fr) as [p|] eqn:Hp; [|reflexivity].
    pose proof (Hw self fr p Hfr Hp).
    apply IH; [assumption | lia | lia].
  - apply nth_error_None in Hfr. lia.
Qed.

Lemma last_default :
  forall (l : list nat) x d d', last (x :: l) d = last (x :: l) d'.
Proof.
  induction l as [|y l IH]; intros x d d'; [reflexivity|].
  change (last (x :: y :: l) d) with (last (y :: l) d).
  change (last (x :: y :: l) d') with (last (y :: l) d').
  apply IH.
Qed.

Lemma ancestors_root :
  forall n h self,
    heap_wf h -> self < List.length h -> self < n ->
    exists root fr,
      last (ancestors n h self) self = root
      /\ nth_error h root = Some fr /\ parent fr = None.
Proof.
  induction n as [|n IH]; intros h self Hw Hs Hn; [lia|].
  cbn [ancestors].
  destruct (nth_error h self) as [fr|] eqn:Hfr.
  - destruct (parent fr) as [p|] eqn:Hp.
    + pose proof (Hw self fr p Hfr Hp) as Hlt.
      destruct (IH h p Hw ltac:(lia) ltac:(lia)) as [root [fr' [H1 [H2 H3]]]].
      exists root, fr'. split; [|split; assumption].
      destruct (ancestors n h p) as [|x l] eqn:Ea.
      * destruct n as [|n']; [lia|]. cbn [ancestors] in Ea.
        destruct (nth_error h p) eqn:Hfp; [discriminate Ea|].
        apply nth_error_None in Hfp. lia.
      * change (last (self :: x :: l) self) with (last (x :: l) self).
        rewrite (last_default l x self p). exact H1.
    + exists self, fr. repeat split; assumption.
  - apply nth_error_None in Hfr. lia.
Qed.

(** X26: every frame is younger than its parent.  Evaluation started in
    a store where the parent of every frame was made before the frame,
    in a frame of that store, leaves such a store, whatever is evaluated
    and however it ends.  In such a store the chain of parents of a
    frame ends in a frame without parent, and [Frame.find] from the
    frame returns the first frame of that chain that binds the symbol,
    the nearest one, or raises the [SchemeError] "unknown identifier"
    when no frame of the chain binds it. *)
Theorem frames_younger_than_parents :
  forall native d e env h,
    heap_wf h -> env < List.length h ->
    let h' := snd (scheme_eval native d e env h) in
    heap_wf h'
    /\ forall self sym,
        self < List.length h' ->
        (exists root fr,
            last (ancestors (List.length h') h' self) self = root
            /\ nth_error h' root = Some fr /\ parent fr = None)
        /\ find self sym h'
           = (match
                List.find (fun r => has_key h' r (VStr sym))
                  (ancestors (List.length h') h' self)
              with
              | Some r => Ret r
              | None =>
                  Raise (SchemeError "unknown identifier: {0}" [VStr sym])
              end, h').
Proof.
  intros native d e env h Hw He h'.
  destruct (proj1 (scheme_eval_apply_keep native d) e env (List.length h)
              He h Hw (Nat.le_refl _)) as [Hw' _].
  fold h' in Hw'. split; [exact Hw'|].
  intros self sym Hs. split.
  - apply ancestors_root; assumption.
  - unfold find. rewrite find_in_ancestors by assumption. reflexivity.
Qed.

(** [(let ((x 1)) x)] in the global frame: afterwards the chain of the
    new frame is the frame and the global frame, [x] is found in the
    frame itself and [car] in the global frame. *)
Lemma frames_younger_than_parents_witness :
  heap_wf
    (snd (scheme_eval py_native 4
            (let_form [(VStr "x", VInt 1)] [VStr "x"]) global_env
            initial_heap))
  /\ fst (find 1 "x"
            (snd (scheme_eval py_native 4
                    (let_form [(VStr "x", VInt 1)] [VStr "x"]) global_env
                    initial_heap))) = Ret 1
  /\ fst (find 1 "car"
            (snd (scheme_eval py_native 4
                    (let_form [(VStr "x", VInt 1)] [VStr "x"]) global_env
                    initial_heap))) = Ret 0.
Proof.
  assert (He : global_env < List.length initial_heap)
    by (vm_compute; lia).
  destruct (frames_younger_than_parents py_native 4
              (let_form [(VStr "x", VInt 1)] [VStr "x"]) global_env
              initial_heap initial_heap_wf He) as [Hw Hf].
  split; [exact Hw|].
  split.
  - rewrite (proj2 (Hf 1 "x" ltac:(vm_compute; lia))).
    vm_compute. reflexivity.
  - rewrite (proj2 (Hf 1 "car" ltac:(vm_compute; lia))).
    vm_compute. reflexivity.
Defined.

(** X27: a frame shadows and inherits.  In a frame made as a child of
    [env], as [make_call_frame] makes them, a symbol the frame binds has
    the value bound there, whatever [env] holds, and every other symbol
    is looked up as in [env], with the same value or the same error. *)
Theorem child_frame_shadows_and_inherits :
  forall h env d0 sym,
    heap_wf h -> env < List.length h ->
    getitem (List.length h) sym (h ++ [mkFrame d0 (Some env)])
    = (match dict_get d0 (VStr sym) with
       | Some v => Ret v
       | None => fst (getitem env sym h)
       end, h ++ [mkFrame d0 (Some env)]).
Proof.
  intros h env d0 sym Hw He.
  unfold getitem, bind, find.
  rewrite length_app. simpl List.length. rewrite Nat.add_1_r.
  cbn [find_in]. rewrite nth_error_app2 by lia. rewrite Nat.sub_diag.
  cbn [nth_error inner parent].
  destruct (dict_has d0 (VStr sym)) eqn:Hd.
  - destruct (dict_has_dict_get _ _ Hd) as [v Hv].
    rewrite nth_error_app2 by lia. rewrite Nat.sub_diag.
    cbn [nth_error inner]. rewrite Hv. reflexivity.
  - rewrite (dict_has_false_dict_get _ _ Hd).
    rewrite find_in_push by assumption.
    destruct (find_in (List.length h) h env sym) as [r|e] eqn:Hf;
      [|reflexivity].
    pose proof (find_in_valid _ _ _ _ _ Hf) as Hr.
    rewrite nth_error_app1 by assumption.
    destruct (nth_error h r) as [f|]; [|reflexivity].
    destruct (dict_get (inner f) (VStr sym)); reflexivity.
Qed.

Lemma child_frame_shadows_and_inherits_witness :
  getitem (List.length initial_heap) "car"
    (initial_heap ++ [mkFrame [(VStr "x", VInt 1)] (Some global_env)])
  = (Ret (PrimitiveProcedure (Fnative "scheme_car")),
     initial_heap ++ [mkFrame [(VStr "x", VInt 1)] (Some global_env)]).
Proof.
  rewrite (child_frame_shadows_and_inherits initial_heap global_env
             [(VStr "x", VInt 1)] "car" initial_heap_wf).
  - vm_compute. reflexivity.
  - vm_compute. lia.
Defined.

(** * Applying a lambda expression *)

Lemma scheme_eval_lambda :
  forall native d names body env h,
    check_formals (scheme_list names) = Ret tt ->
    scheme_eval native (S d) (lambda_form names body) env h
    = (Ret (LambdaProcedure (scheme_list names) body env), h).
Proof.
  intros native d names body env h Hc.
  unfold lambda_form. simpl. unfold eval_step. simpl.
  unfold bind, lift, do_lambda_form, check_form. simpl.
  rewrite Hc. reflexivity.
Qed.

Lemma call_frame_inner_lists :
  forall names vs,
    call_frame_inner (Scheme (scheme_list names)) (Scheme (scheme_list vs))
    = Ret (bind_all [] (combine names vs)).
Proof.
  intros names vs. unfold call_frame_inner, seq_len, seq_iter.
  rewrite py_len_scheme_list, !py_iter_scheme_list, !not_iterable_none.
  apply zip_bind_bind_all.
Qed.

(** X28: the call of a lambda expression.  [((lambda (x1 ... xn) body)
    e1 ... em)], for formals that [check_formals] accepts, evaluates the
    operands from left to right in the frame of the call, makes one new
    frame, a child of that frame, which binds the formals to the values
    position by position as far as both lists go, and evaluates the body
    there; a different number of operands is no error. *)
Theorem lambda_call :
  forall native d names body es env h,
    check_formals (scheme_list names) = Ret tt ->
    scheme_eval native (S (S d))
      (Pair (lambda_form names body) (scheme_list es)) env h
    = (vs <- eval_args (scheme_eval native (S d)) env es ;;
       frame <- new_frame
                  (mkFrame (bind_all [] (combine names vs)) (Some env)) ;;
       scheme_eval native d body frame) h.
Proof.
  intros native d names body es env h Hc.
  change (scheme_eval native (S (S d))
            (Pair (lambda_form names body) (scheme_list es)) env h)
    with (eval_step (scheme_eval native (S d)) (scheme_apply native (S d))
            (Pair (lambda_form names body) (scheme_list es)) env h).
  set (ev := scheme_eval native (S d)).
  set (ap := scheme_apply native (S d)).
  unfold eval_step. cbn [scheme_atomp scheme_booleanp scheme_numberp
                           scheme_symbolp scheme_nullp scheme_listp].
  rewrite scheme_listp_scheme_list. cbn [negb get_first get_second].
  rewrite !bind_lift_Ret.
  change (logic_form ev (lambda_form names body)) with
    (@None (value -> nat -> M value)).
  change (py_eq (lambda_form names body) (VStr "lambda")) with false.
  change (py_eq (lambda_form names body) (VStr "define")) with false.
  change (py_eq (lambda_form names body) (VStr "quote")) with false.
  change (py_eq (lambda_form names body) (VStr "let")) with false.
  change (py_eq (lambda_form names body) (VStr "let*")) with false.
  cbv iota.
  unfold bind at 1. unfold ev at 1.
  rewrite (scheme_eval_lambda native d names body env h Hc).
  rewrite (bind_cong_l _ _ _ _ _ _ (pair_map_eval_args ev env es h)).
  rewrite bind_bind. apply bind_cong. intros vs h1.
  rewrite bind_ret. unfold ap.
  rewrite (scheme_apply_frame_parent native d (scheme_list names) body env
             (scheme_list vs) env h1 _ (call_frame_inner_lists names vs))
    by (rewrite py_iter_scheme_list; reflexivity).
  reflexivity.
Qed.

Lemma lambda_call_witness :
  scheme_eval py_native 3
    (Pair (lambda_form [VStr "x"; VStr "y"] (VStr "x"))
       (scheme_list [VInt 1])) global_env initial_heap
  = (vs <- eval_args (scheme_eval py_native 2) global_env [VInt 1] ;;
     frame <- new_frame
                (mkFrame (bind_all [] (combine [VStr "x"; VStr "y"] vs))
                   (Some global_env)) ;;
     scheme_eval py_native 1 (VStr "x") frame) initial_heap.
Proof.
  apply (lambda_call py_native 1 [VStr "x"; VStr "y"] (VStr "x") [VInt 1]
           global_env initial_heap).
  reflexivity.
Defined.
